(** * The streaming transcoder of claude-worker-proxy (OpenAI provider)

    A shallow embedding of [src/openai.ts] (class [impl], method
    [convertStreamResponse]) and of the helpers of [src/utils.ts] it drives
    ([generateId], [sendMessageStart], [sendMessageStop], [processTextPart],
    [processToolUsePart], [processProviderStream]).

    - JavaScript values that come out of [JSON.parse] are the type [json];
      [undefined] is [None] in [value := option json].
    - An exception is an [Abrupt] completion; code that mutates the closure
      variable [accumulatedOutputTokens] or draws from [Math.random] runs in
      the state-and-exception monad [M] over [world].
    - What the platform provides ([JSON.parse], [JSON.stringify], the
      [ToString] coercion, [Math.random]) is the class [Platform]; the token
      estimator, whose module is not part of the sources, is the record
      [TokenEstimator].  Every theorem holds for all of them; the module
      [Sample] gives executable ones to run the model on concrete streams.
    - Text is [string]; one character stands for one code unit of the decoded
      upstream text (exact for ASCII bodies). *)

From Stdlib Require Import String Ascii List ZArith Bool Arith Lia.
From Stdlib Require Import DecimalString.
Import ListNotations.
Open Scope string_scope.
Open Scope list_scope.

(* ================================================================= *)
(** ** JavaScript values *)

(** A JSON number is kept as the exact decimal [m * 10^e]. *)
Unset Elimination Schemes.
Inductive json : Type :=
| JNull
| JBool (b : bool)
| JNum (m e : Z)
| JStr (s : string)
| JArr (items : list json)
| JObj (members : list (string * json)).
Set Elimination Schemes.

(** A JavaScript value reachable from parsed JSON: [None] is [undefined]. *)
Definition value : Type := option json.

Definition JNat (n : nat) : json := JNum (Z.of_nat n) 0.

(** ToBoolean. *)
Definition truthy (v : value) : bool :=
  match v with
  | None => false
  | Some JNull => false
  | Some (JBool b) => b
  | Some (JNum m _) => negb (m =? 0)%Z
  | Some (JStr s) => negb (s =? "")
  | Some (JArr _) => true
  | Some (JObj _) => true
  end.

(** Own property of an object created by [JSON.parse]: the last binding of
    the key wins. *)
Fixpoint lookup (k : string) (members : list (string * json)) : value :=
  match members with
  | [] => None
  | (k', v) :: rest =>
      match lookup k rest with
      | Some w => Some w
      | None => if k' =? k then Some v else None
      end
  end.

(** [v.length] on a value that is not [null] or [undefined]. *)
Definition get_length (v : json) : value :=
  match v with
  | JArr items => Some (JNat (List.length items))
  | JStr s => Some (JNat (String.length s))
  | JObj members => lookup "length" members
  | _ => None
  end.

(** [v[0]] on a value that is not [null] or [undefined]. *)
Definition get_first (v : json) : value :=
  match v with
  | JArr items => nth_error items 0
  | JStr s => match s with
              | EmptyString => None
              | String c _ => Some (JStr (String c EmptyString))
              end
  | JObj members => lookup "0" members
  | _ => None
  end.

(** [v.name] for a property name that is neither an index nor [length] nor
    a member of a built-in prototype (the names the transcoder reads:
    choices, delta, content, tool_calls, function, name, arguments,
    messages). *)
Definition get (v : json) (name : string) : value :=
  match v with
  | JObj members => lookup name members
  | _ => None
  end.

(** [x === 0] for a value. *)
Definition is_zero (v : value) : bool :=
  match v with
  | Some (JNum m _) => (m =? 0)%Z
  | _ => false
  end.

(* ================================================================= *)
(** ** String methods *)

Definition LF : ascii := ascii_of_nat 10.
Definition NL : string := String LF EmptyString.

(** White space removed by [trim], among the code units a character can
    stand for: tab to carriage return, space and no-break space (the
    others, U+1680, U+2000 to U+200A, U+2028, U+2029, U+202F, U+205F,
    U+3000 and U+FEFF, are beyond them). *)
Definition is_ws (c : ascii) : bool :=
  let n := nat_of_ascii c in
  ((n =? 32) || ((9 <=? n) && (n <=? 13)) || (n =? 160))%nat.

Fixpoint trimStart (s : string) : string :=
  match s with
  | EmptyString => EmptyString
  | String c r => if is_ws c then trimStart r else s
  end.

Fixpoint trimEnd (s : string) : string :=
  match s with
  | EmptyString => EmptyString
  | String c r =>
      match trimEnd r with
      | EmptyString => if is_ws c then EmptyString else String c EmptyString
      | t => String c t
      end
  end.

Definition trim (s : string) : string := trimEnd (trimStart s).

(** [s.startsWith(p)]. *)
Definition startsWith (s p : string) : bool := String.prefix p s.

(** [s.slice(n)] for [n >= 0]. *)
Fixpoint slice (n : nat) (s : string) : string :=
  match n, s with
  | O, _ => s
  | S _, EmptyString => EmptyString
  | S n', String _ r => slice n' r
  end.

(** [s.split('\n')]: never empty. *)
Fixpoint split_nl (s : string) : list string :=
  match s with
  | EmptyString => [EmptyString]
  | String c r =>
      if Ascii.eqb c LF then EmptyString :: split_nl r
      else match split_nl r with
           | h :: t => String c h :: t
           | [] => [String c EmptyString]
           end
  end.

(** [hay.includes(needle)]. *)
Fixpoint includes (hay needle : string) : bool :=
  String.prefix needle hay ||
  match hay with
  | EmptyString => false
  | String _ r => includes r needle
  end.

(** [a.pop()]: the removed last element ([undefined] on an empty array) and
    the array that is left. *)
Definition pop {A : Type} (a : list A) : option A * list A :=
  match a with
  | [] => (None, [])
  | x :: r => (Some (last r x), removelast a)
  end.

(** [s || ''] for a string that may be [undefined] or [null]. *)
Definition or_empty (s : option string) : string :=
  match s with
  | Some t => t
  | None => EmptyString
  end.

(** Truthiness of a string. *)
Definition nonempty (s : string) : bool := negb (s =? "").

(* ================================================================= *)
(** ** Platform, estimator and effects *)

(** What the JavaScript runtime provides.  [JSON_parse] is [None] where
    [JSON.parse] throws a SyntaxError; [random36 n] is the text of
    [Math.random().toString(36)] at the [n]-th draw. *)
Class Platform : Type := {
  JSON_parse : string -> option json;
  JSON_stringify : json -> string;
  ToString : json -> string;
  random36 : nat -> string
}.

(** The token estimator consumed by the transcoder
    ([utils.OptimizedTokenEstimator]): an opaque capability returning a
    count for a value. *)
Record TokenEstimator : Type := {
  estimate : json -> Z;
  estimateMessages : value -> Z
}.

(** The mutable state a line handler can touch: the number of draws made
    from [Math.random], and the closure variable of
    [convertStreamResponse]. *)
Record world : Type := {
  draws : nat;
  accumulatedOutputTokens : Z
}.

(** A completion: normal with a value, or a thrown exception. *)
Inductive completion (A : Type) : Type :=
| Normal (a : A)
| Abrupt.
Arguments Normal {A} a.
Arguments Abrupt {A}.

Definition M (A : Type) : Type := world -> completion A * world.

Definition ret {A : Type} (a : A) : M A := fun w => (Normal a, w).

Definition throw {A : Type} : M A := fun w => (Abrupt, w).

Definition bind {A B : Type} (c : M A) (k : A -> M B) : M B :=
  fun w =>
    match c w with
    | (Normal a, w') => k a w'
    | (Abrupt, w') => (Abrupt, w')
    end.

Notation "x <- c ;; k" := (bind c (fun x => k))
  (at level 61, c at next level, right associativity).
Notation "c ;;; k" := (bind c (fun _ => k))
  (at level 61, right associativity).

(** [accumulatedOutputTokens += n]. *)
Definition add_tokens (n : Z) : M unit :=
  fun w => (Normal tt,
            {| draws := draws w;
               accumulatedOutputTokens := accumulatedOutputTokens w + n |}).

Definition read_tokens : M Z :=
  fun w => (Normal (accumulatedOutputTokens w), w).

(** [v.name]: a TypeError when [v] is [null] or [undefined]. *)
Definition member (v : value) (name : string) : M value :=
  match v with
  | None | Some JNull => throw
  | Some j => ret (get j name)
  end.

(** [v?.name]. *)
Definition member_opt (v : value) (name : string) : value :=
  match v with
  | None | Some JNull => None
  | Some j => get j name
  end.

(** The values a [for ... of] loop visits: the elements of an array, the
    characters of a string, a TypeError for anything else. *)
Definition iterate (v : json) : M (list json) :=
  match v with
  | JArr items => ret items
  | JStr s => ret (map (fun c => JStr (String c EmptyString))
                       (list_ascii_of_string s))
  | _ => throw
  end.

(** A [for ... of] body run over the visited values, the loop's variables
    threaded through. *)
Fixpoint for_of {A S : Type} (xs : list A) (body : A -> S -> M S) (s : S)
  : M S :=
  match xs with
  | [] => ret s
  | x :: rest => s' <- body x s ;; for_of rest body s'
  end.

(* ================================================================= *)
(** ** Event encoder *)

(** The events of the outbound protocol, by payload shape. *)
Inductive event : Type :=
| message_start (id : string)
| text_block_start (index : nat)
| tool_use_block_start (index : nat) (id : string) (name : json)
| text_delta (index : nat) (text : json)
| input_json_delta (index : nat) (partial_json : string)
| content_block_stop (index : nat)
| message_stop (usage : option (Z * Z)).

Definition event_name (ev : event) : string :=
  match ev with
  | message_start _ => "message_start"
  | text_block_start _ | tool_use_block_start _ _ _ => "content_block_start"
  | text_delta _ _ | input_json_delta _ _ => "content_block_delta"
  | content_block_stop _ => "content_block_stop"
  | message_stop _ => "message_stop"
  end.

(** The object literal each event serialises. *)
Definition payload (ev : event) : json :=
  match ev with
  | message_start id =>
      JObj [("type", JStr "message_start");
            ("message", JObj [("id", JStr id);
                              ("type", JStr "message");
                              ("role", JStr "assistant");
                              ("content", JArr [])])]
  | text_block_start index =>
      JObj [("type", JStr "content_block_start");
            ("index", JNat index);
            ("content_block", JObj [("type", JStr "text");
                                    ("text", JStr "")])]
  | tool_use_block_start index id name =>
      JObj [("type", JStr "content_block_start");
            ("index", JNat index);
            ("content_block", JObj [("type", JStr "tool_use");
                                    ("id", JStr id);
                                    ("name", name);
                                    ("input", JObj [])])]
  | text_delta index text =>
      JObj [("type", JStr "content_block_delta");
            ("index", JNat index);
            ("delta", JObj [("type", JStr "text_delta");
                            ("text", text)])]
  | input_json_delta index partial_json =>
      JObj [("type", JStr "content_block_delta");
            ("index", JNat index);
            ("delta", JObj [("type", JStr "input_json_delta");
                            ("partial_json", JStr partial_json)])]
  | content_block_stop index =>
      JObj [("type", JStr "content_block_stop");
            ("index", JNat index)]
  | message_stop None =>
      JObj [("type", JStr "message_stop")]
  | message_stop (Some (input_tokens, output_tokens)) =>
      JObj [("type", JStr "message_stop");
            ("usage", JObj [("input_tokens", JNum input_tokens 0);
                            ("output_tokens", JNum output_tokens 0)])]
  end.

(** Classification of events. *)
Definition is_message_start (ev : event) : bool :=
  match ev with message_start _ => true | _ => false end.

Definition is_message_stop (ev : event) : bool :=
  match ev with message_stop _ => true | _ => false end.

Definition is_block_event (ev : event) : bool :=
  negb (is_message_start ev) && negb (is_message_stop ev).

Definition is_block_start (i : nat) (ev : event) : bool :=
  match ev with
  | text_block_start j | tool_use_block_start j _ _ => (j =? i)%nat
  | _ => false
  end.

Definition is_block_delta (i : nat) (ev : event) : bool :=
  match ev with
  | text_delta j _ | input_json_delta j _ => (j =? i)%nat
  | _ => false
  end.

Definition is_block_stop (i : nat) (ev : event) : bool :=
  match ev with
  | content_block_stop j => (j =? i)%nat
  | _ => false
  end.

Module LineResult.
(** What a line handler returns when it does not return [null]. *)
Record t : Type := {
  events : list event;
  textBlockIndex : nat;
  toolUseBlockIndex : nat;
  outputTokens : option Z
}.
End LineResult.

Section Transcoder.

Context {P : Platform}.

(** The wire record of an event:
    [event: <name>\ndata: <JSON>\n\n]. *)
Definition wire (ev : event) : string :=
  ("event: " ++ event_name ev ++ NL ++
   "data: " ++ JSON_stringify (payload ev) ++ NL ++ NL)%string.

(** [generateId]: [Math.random().toString(36).substring(2)]. *)
Definition generateId : M string :=
  fun w => (Normal (slice 2 (random36 (draws w))),
            {| draws := S (draws w);
               accumulatedOutputTokens := accumulatedOutputTokens w |}).

Definition processTextPart (text : json) (index : nat) : list event :=
  [text_block_start index; text_delta index text; content_block_stop index].

Definition processToolUsePart (name args : json) (index : nat)
  : M (list event) :=
  toolUseId <- generateId ;;
  ret [tool_use_block_start index toolUseId name;
       input_json_delta index (JSON_stringify args);
       content_block_stop index].

(** Modelled from the spec: [safeJsonParse] of the module token-estimator,
    which is not part of the sources.  The argument text is parsed;
    unparsable text is the empty object and nothing is raised.  A value
    that is not text reaches the parser through the platform's [ToString],
    as any argument of [JSON.parse] does. *)
Definition safeJsonParse (arguments : json) : json :=
  let text := match arguments with
              | JStr s => s
              | other => ToString other
              end in
  match JSON_parse text with
  | Some v => v
  | None => JObj []
  end.

(* ================================================================= *)
(** ** The line handler of [convertStreamResponse] *)

(** The handler's local variables. *)
Record locals : Type := {
  events : list event;
  currentTextIndex : nat;
  currentToolIndex : nat
}.

Section OpenAI.

Variable tokenEstimator : TokenEstimator.

(** [if (delta.content) { ... }] for a truthy [delta.content]. *)
Definition text_fragment (content : json) (l : locals) : M locals :=
  let evs := processTextPart content (currentTextIndex l) in
  add_tokens (estimate tokenEstimator content) ;;;
  ret {| events := events l ++ evs;
         currentTextIndex := S (currentTextIndex l);
         currentToolIndex := currentToolIndex l |}.

(** The body of [for (const toolCall of delta.tool_calls)]. *)
Definition tool_fragment (toolCall : json) (l : locals) : M locals :=
  fn <- member (Some toolCall) "function" ;;
  match member_opt fn "name", member_opt fn "arguments" with
  | Some name, Some arguments =>
      if truthy (Some name) && truthy (Some arguments) then
        let toolArgs := safeJsonParse arguments in
        evs <- processToolUsePart name toolArgs (currentToolIndex l) ;;
        add_tokens (estimate tokenEstimator name) ;;;
        add_tokens (estimate tokenEstimator (JStr (JSON_stringify toolArgs))) ;;;
        ret {| events := events l ++ evs;
               currentTextIndex := currentTextIndex l;
               currentToolIndex := S (currentToolIndex l) |}
      else ret l
  | _, _ => ret l
  end.

(** [if (delta.content) { ... }]. *)
Definition on_content (content : value) (l : locals) : M locals :=
  match content with
  | Some text => if truthy content then text_fragment text l else ret l
  | None => ret l
  end.

(** [if (delta.tool_calls) { for (const toolCall of ...) { ... } }]. *)
Definition on_tool_calls (tool_calls : value) (l : locals) : M locals :=
  match tool_calls with
  | Some calls =>
      if truthy tool_calls
      then toolCalls <- iterate calls ;; for_of toolCalls tool_fragment l
      else ret l
  | None => ret l
  end.

(** The callback passed to [processProviderStream]. *)
Definition processLine (jsonStr : string)
  (textBlockIndex toolUseBlockIndex : nat) : M (option LineResult.t) :=
  match JSON_parse jsonStr with
  | None => throw
  | Some openaiData =>
      choices <- member (Some openaiData) "choices" ;;
      match choices with
      | None => ret None
      | Some c =>
          if negb (truthy choices) || is_zero (get_length c) then ret None
          else
            let choice := get_first c in
            delta <- member choice "delta" ;;
            content <- member delta "content" ;;
            l1 <- on_content content
                    {| events := [];
                       currentTextIndex := textBlockIndex;
                       currentToolIndex := toolUseBlockIndex |} ;;
            tool_calls <- member delta "tool_calls" ;;
            l2 <- on_tool_calls tool_calls l1 ;;
            outputTokens <- read_tokens ;;
            ret (Some {| LineResult.events := events l2;
                         LineResult.textBlockIndex := currentTextIndex l2;
                         LineResult.toolUseBlockIndex := currentToolIndex l2;
                         LineResult.outputTokens := Some outputTokens |})
      end
  end.

End OpenAI.

(* ================================================================= *)
(** ** [processProviderStream] *)

(** The upstream body as its reader delivers it: the decoded text of each
    read, then either [done] or a rejected read.  (The streaming decoder
    keeps an incomplete multi-byte sequence for the next read, so the
    texts of the reads concatenate to the text of the body.) *)
Record upstream : Type := {
  reads : list string;
  read_fails : bool
}.

(** The variables of the [start] callback, the controller's queue (in
    enqueue order) and the state the handler can touch. *)
Record stream_state : Type := {
  buffer : string;
  textBlockIndex : nat;
  toolUseBlockIndex : nat;
  totalOutputTokens : Z;
  enqueued : list event;
  env : world
}.

(** How the [try] block ended: the reader reported [done], the line
    handler threw inside the loop, or a read was rejected. *)
Inductive try_end : Type :=
| LoopDone
| HandlerThrew
| ReadRejected.

(** How the [start] callback ended. *)
Record outcome : Type := {
  final : stream_state;
  closed : bool;          (* [controller.close()] was called *)
  released : bool;        (* [reader.releaseLock()] was called *)
  try_exit : try_end;
  flush_threw : bool      (* the handler threw inside [finally] *)
}.

Definition emitted (o : outcome) : list event := enqueued (final o).

(** An exception left [start]. *)
Definition rejected (o : outcome) : bool :=
  flush_threw o ||
  match try_exit o with
  | LoopDone => false
  | HandlerThrew | ReadRejected => true
  end.

Definition set_env (w : world) (s : stream_state) : stream_state :=
  {| buffer := buffer s;
     textBlockIndex := textBlockIndex s;
     toolUseBlockIndex := toolUseBlockIndex s;
     totalOutputTokens := totalOutputTokens s;
     enqueued := enqueued s;
     env := w |}.

Definition set_buffer (b : string) (s : stream_state) : stream_state :=
  {| buffer := b;
     textBlockIndex := textBlockIndex s;
     toolUseBlockIndex := toolUseBlockIndex s;
     totalOutputTokens := totalOutputTokens s;
     enqueued := enqueued s;
     env := env s |}.

Definition enqueue (evs : list event) (s : stream_state) : stream_state :=
  {| buffer := buffer s;
     textBlockIndex := textBlockIndex s;
     toolUseBlockIndex := toolUseBlockIndex s;
     totalOutputTokens := totalOutputTokens s;
     enqueued := enqueued s ++ evs;
     env := env s |}.

(** [if (result.outputTokens) totalOutputTokens = result.outputTokens]. *)
Definition take_tokens (outputTokens : option Z) (total : Z) : Z :=
  match outputTokens with
  | Some n => if (n =? 0)%Z then total else n
  | None => total
  end.

Definition sendMessageStart (s : stream_state) : stream_state :=
  match generateId (env s) with
  | (Normal id, w) => enqueue [message_start id] (set_env w s)
  | (Abrupt, w) => set_env w s
  end.

Definition sendMessageStop (usage : option (Z * Z)) (s : stream_state)
  : stream_state :=
  enqueue [message_stop usage] s.

Section ProviderStream.

Variable processLine :
  string -> nat -> nat -> M (option LineResult.t).
Variable originalClaudeRequest : value.
Variable tokenEstimator : option TokenEstimator.

(** The body of [for (const line of lines)]; the flag tells that the
    handler threw. *)
Definition on_line (line : string) (s : stream_state) : stream_state * bool :=
  if negb (nonempty (trim line)) || negb (startsWith line "data: ")
  then (s, false)
  else
    let jsonStr := slice 6 line in
    if jsonStr =? "[DONE]" then (s, false)
    else
      match processLine jsonStr (textBlockIndex s) (toolUseBlockIndex s)
                        (env s) with
      | (Abrupt, w) => (set_env w s, true)
      | (Normal None, w) => (set_env w s, false)
      | (Normal (Some result), w) =>
          ({| buffer := buffer s;
              textBlockIndex := LineResult.textBlockIndex result;
              toolUseBlockIndex := LineResult.toolUseBlockIndex result;
              totalOutputTokens :=
                take_tokens (LineResult.outputTokens result)
                            (totalOutputTokens s);
              enqueued := enqueued s ++ LineResult.events result;
              env := w |}, false)
      end.

Fixpoint for_lines (lines : list string) (s : stream_state)
  : stream_state * bool :=
  match lines with
  | [] => (s, false)
  | line :: rest =>
      match on_line line s with
      | (s', true) => (s', true)
      | (s', false) => for_lines rest s'
      end
  end.

(** One iteration of [while (true)] for a read that is not [done]. *)
Definition on_read (value : string) (s : stream_state)
  : stream_state * bool :=
  let chunk := (buffer s ++ value)%string in
  let lines := split_nl chunk in
  let (last_line, lines') := pop lines in
  for_lines lines' (set_buffer (or_empty last_line) s).

Fixpoint read_loop (values : list string) (s : stream_state)
  : stream_state * bool :=
  match values with
  | [] => (s, false)
  | value :: rest =>
      match on_read value s with
      | (s', true) => (s', true)
      | (s', false) => read_loop rest s'
      end
  end.

(** The first statement of [finally]: the remainder of the buffer. *)
Definition flush (s : stream_state) : stream_state * bool :=
  if nonempty (trim (buffer s)) then
    match processLine (slice 6 (buffer s)) (textBlockIndex s)
                      (toolUseBlockIndex s) (env s) with
    | (Abrupt, w) => (set_env w s, true)
    | (Normal None, w) => (set_env w s, false)
    | (Normal (Some result), w) =>
        ({| buffer := buffer s;
            textBlockIndex := textBlockIndex s;
            toolUseBlockIndex := toolUseBlockIndex s;
            totalOutputTokens :=
              take_tokens (LineResult.outputTokens result)
                          (totalOutputTokens s);
            enqueued := enqueued s ++ LineResult.events result;
            env := w |}, false)
    end
  else (s, false).

(** The usage attached to [message_stop]. *)
Definition final_usage (total : Z) : option (Z * Z) :=
  match tokenEstimator with
  | Some estimator =>
      if truthy originalClaudeRequest then
        let inputTokens :=
          estimateMessages estimator
            (member_opt originalClaudeRequest "messages") in
        Some (inputTokens, total)
      else None
  | None => None
  end.

(** The [finally] block, entered after the [try] block ended as [t]. *)
Definition finally (t : try_end) (s : stream_state) : outcome :=
  match flush s with
  | (s', true) =>
      {| final := s'; closed := false; released := false;
         try_exit := t; flush_threw := true |}
  | (s', false) =>
      {| final := sendMessageStop (final_usage (totalOutputTokens s')) s';
         closed := true;
         released := true;
         try_exit := t;
         flush_threw := false |}
  end.

Definition initial_state : stream_state :=
  {| buffer := "";
     textBlockIndex := 0;
     toolUseBlockIndex := 0;
     totalOutputTokens := 0;
     enqueued := [];
     env := {| draws := 0; accumulatedOutputTokens := 0 |} |}.

(** The [start] callback of the outbound stream, run to its end on the
    body of the provider's response ([None]: no body). *)
Definition start (body : option upstream) : outcome :=
  match body with
  | None =>
      {| final := initial_state;
         closed := true; released := false;
         try_exit := LoopDone; flush_threw := false |}
  | Some up =>
      match read_loop (reads up) (sendMessageStart initial_state) with
      | (s, true) => finally HandlerThrew s
      | (s, false) =>
          finally (if read_fails up then ReadRejected else LoopDone) s
      end
  end.

End ProviderStream.

(** [convertStreamResponse]: the stream that [processProviderStream] builds
    from the handler, the original request and the estimator. *)
Definition convertStreamResponse (estimator : TokenEstimator)
  (originalClaudeRequest : value) (body : option upstream) : outcome :=
  start (processLine estimator) originalClaudeRequest (Some estimator) body.

End Transcoder.

(* ================================================================= *)
(** ** [convertToClaudeResponse]: which path a response takes *)

(** The provider's response, as far as the conversion looks at it. *)
Record Response : Type := {
  ok : bool;
  status : nat;
  content_type : option string;   (* [headers.get('content-type')] *)
  body : option upstream
}.

Inductive converted : Type :=
| Unchanged (r : Response)                 (* returned as it is *)
| Streamed (status : nat) (o : outcome)    (* [convertStreamResponse] *)
| NotStreamed (r : Response).              (* left to [convertNormalResponse] *)

Definition convertToClaudeResponse {P : Platform}
  (estimator : TokenEstimator) (openaiResponse : Response)
  (originalClaudeRequest : value) : converted :=
  if negb (ok openaiResponse) then Unchanged openaiResponse
  else
    let contentType := or_empty (content_type openaiResponse) in
    let isStream := includes contentType "text/event-stream" in
    if isStream
    then Streamed (status openaiResponse)
           (convertStreamResponse estimator originalClaudeRequest
              (body openaiResponse))
    else NotStreamed openaiResponse.

(* ================================================================= *)
(** ** [buildUrl] *)

(** [s.endsWith(p)]. *)
Definition endsWith (s p : string) : bool :=
  (slice (String.length s - String.length p) s =? p)%string.

Definition buildUrl (baseUrl endpoint : string) : string :=
  let finalUrl :=
    if negb (endsWith baseUrl "/") then (baseUrl ++ "/")%string
    else baseUrl in
  (finalUrl ++ endpoint)%string.

(* ================================================================= *)
(** ** [handle]: the checks made before a request is forwarded *)

(** [s.split(sep)] for a separator of one character: never empty. *)
Fixpoint split_on (sep : ascii) (s : string) : list string :=
  match s with
  | EmptyString => [EmptyString]
  | String c r =>
      if Ascii.eqb c sep then EmptyString :: split_on sep r
      else match split_on sep r with
           | h :: t => String c h :: t
           | [] => [String c EmptyString]
           end
  end.

(** [parts.join(sep)] for an array of strings. *)
Fixpoint Array_join (sep : string) (parts : list string) : string :=
  match parts with
  | [] => EmptyString
  | [x] => x
  | x :: rest => (x ++ sep ++ Array_join sep rest)%string
  end.

(** The request, as far as [handle] looks at it before it reads the body:
    its method, the [pathname] of its URL, and [headers.get('x-api-key')]. *)
Record IncomingRequest : Type := {
  method : string;
  pathname : string;
  x_api_key : option string
}.

Inductive provider_type : Type :=
| gemini
| openai.

(** What [handle] does with a request: answer it at once with a status and
    a text, or go on (read the body, convert the request with the provider,
    fetch, convert the response) with a provider, a base URL and a key. *)
Inductive handled : Type :=
| Answered (status : nat) (text : string)
| Dispatched (provider : provider_type) (baseUrl apiKey : string).

Definition handle (request : IncomingRequest) : handled :=
  if negb (method request =? "POST")%string
  then Answered 405 "Method not allowed"
  else
    let pathParts :=
      filter (fun part => negb (part =? "")%string)
             (split_on "/" (pathname request)) in
    if (List.length pathParts <? 3)%nat
    then Answered 400
           "Invalid path format. Expected: /{type}/{provider_url}/v1/messages"
    else
      let lastTwoParts := skipn (List.length pathParts - 2) pathParts in
      if negb (nth 0 lastTwoParts "" =? "v1")%string
         || negb (nth 1 lastTwoParts "" =? "messages")%string
      then Answered 404 "Path must end with /v1/messages"
      else
        let typeParam := nth 0 pathParts "" in
        let providerUrlParts :=
          firstn (List.length pathParts - 2 - 1) (skipn 1 pathParts) in
        let baseUrl := Array_join "/" providerUrlParts in
        if negb (nonempty typeParam) || negb (nonempty baseUrl)
        then Answered 400 "Missing type or provider_url in path"
        else
          match x_api_key request with
          | None => Answered 401 "Missing x-api-key header"
          | Some apiKey =>
              if negb (nonempty apiKey)
              then Answered 401 "Missing x-api-key header"
              else if (typeParam =? "gemini")%string
              then Dispatched gemini baseUrl apiKey
              else if (typeParam =? "openai")%string
              then Dispatched openai baseUrl apiKey
              else Answered 400 "Unsupported type"
          end.

(* ================================================================= *)
(** ** [cleanJsonSchema] *)

(** [typeof v === 'object'] for a value that is not [undefined]. *)
Definition typeof_object (v : json) : bool :=
  match v with
  | JNull | JArr _ | JObj _ => true
  | _ => false
  end.

(** [Array.isArray(v)]. *)
Definition isArray (v : json) : bool :=
  match v with
  | JArr _ => true
  | _ => false
  end.

(** [v === 'string']. *)
Definition is_the_string (text : string) (v : value) : bool :=
  match v with
  | Some (JStr s) => (s =? text)%string
  | _ => false
  end.

(** The property key of an array index. *)
Definition index_key (n : nat) : string :=
  NilZero.string_of_uint (Nat.to_uint n).

(** The own properties of [{...array}]: the elements under their
    indexes. *)
Fixpoint spread_array (i : nat) (items : list json)
  : list (string * json) :=
  match items with
  | [] => []
  | v :: rest => (index_key i, v) :: spread_array (S i) rest
  end.

(** The keys deleted wherever they are met. *)
Definition removed_key (key : string) : bool :=
  ((key =? "$schema") || (key =? "additionalProperties") ||
   (key =? "title") || (key =? "examples"))%string.

Section CleanLoop.

(** The recursive call, and [cleaned.type === 'string']. *)
Variable recur : json -> json.
Variable type_is_string : bool.

(** [for (const key in cleaned) { ... }] on the copy of an object. *)
Fixpoint clean_members (members : list (string * json))
  : list (string * json) :=
  match members with
  | [] => []
  | (key, v) :: rest =>
      if removed_key key then clean_members rest
      else if (key =? "enum")%string && isArray v
      then (key, v) :: clean_members rest
      else if (key =? "format")%string && type_is_string
      then clean_members rest
      else if (key =? "properties")%string && typeof_object v
      then (key, recur v) :: clean_members rest
      else if (key =? "items")%string && typeof_object v
      then (key, recur v) :: clean_members rest
      else if typeof_object v && negb (isArray v)
      then (key, recur v) :: clean_members rest
      else (key, v) :: clean_members rest
  end.

(** The same loop on the copy of an array, whose keys are indexes: only
    the last two branches can apply. *)
Fixpoint clean_indexed (i : nat) (items : list json)
  : list (string * json) :=
  match items with
  | [] => []
  | v :: rest =>
      (index_key i,
       if typeof_object v && negb (isArray v) then recur v else v)
      :: clean_indexed (S i) rest
  end.

End CleanLoop.

Fixpoint cleanJsonSchema (schema : json) : json :=
  match schema with
  | JObj members =>
      JObj (clean_members cleanJsonSchema
              (is_the_string "string" (lookup "type" members)) members)
  | JArr items => JObj (clean_indexed cleanJsonSchema 0 items)
  | other => other
  end.

(* ================================================================= *)
(** ** [convertMessages] *)

(** A tool call of an outgoing message:
    [{id, type: 'function', function: {name, arguments}}];
    [arguments] is missing when [JSON.stringify] is given [undefined]. *)
Record OpenAIToolCall : Type := {
  call_id : value;
  call_name : value;
  call_arguments : option string
}.

(** An outgoing message: [{role, content?, tool_calls?}] with role
    assistant or user, or [{role: 'tool', tool_call_id, content}]. *)
Inductive OpenAIMessage : Type :=
| chat_message (role : string) (content : option string)
    (tool_calls : option (list OpenAIToolCall))
| tool_message (tool_call_id : value) (content : option string).

(** The three arrays filled from the content blocks of one message. *)
Record gathered : Type := {
  textContents : list value;
  toolCalls : list OpenAIToolCall;
  toolResults : list (value * option string)
}.

(** The values a [for ... of] loop visits, without the monad: [None] is
    the TypeError for a value that cannot be iterated. *)
Definition iterated (v : value) : option (list json) :=
  match v with
  | Some (JArr items) => Some items
  | Some (JStr s) => Some (map (fun c => JStr (String c EmptyString))
                               (list_ascii_of_string s))
  | _ => None
  end.

Section Messages.

Context {P : Platform}.

(** [JSON.stringify(v)]: [undefined] for [undefined]. *)
Definition stringify_value (v : value) : option string :=
  option_map JSON_stringify v.

(** What [join] makes of an element. *)
Definition join_element (v : value) : string :=
  match v with
  | None | Some JNull => EmptyString
  | Some (JStr s) => s
  | Some other => ToString other
  end.

(** [message.role === 'assistant' ? 'assistant' : 'user']. *)
Definition role_of (message : json) : string :=
  if is_the_string "assistant" (get message "role") then "assistant"
  else "user".

(** The body of [for (const content of message.content)]: the [switch] on
    [content.type].  The second component is [toolCallMap], as the list of
    the calls of [set] made on it. *)
Definition on_block (content : json)
  (state : gathered * list (value * value))
  : option (gathered * list (value * value)) :=
  let (g, toolCallMap) := state in
  match content with
  | JNull => None
  | _ =>
      let type := get content "type" in
      if is_the_string "text" type then
        Some ({| textContents := textContents g ++ [get content "text"];
                 toolCalls := toolCalls g;
                 toolResults := toolResults g |}, toolCallMap)
      else if is_the_string "tool_use" type then
        Some ({| textContents := textContents g;
                 toolCalls :=
                   toolCalls g ++
                   [{| call_id := get content "id";
                       call_name := get content "name";
                       call_arguments :=
                         stringify_value (get content "input") |}];
                 toolResults := toolResults g |},
              toolCallMap ++ [(get content "id", get content "id")])
      else if is_the_string "tool_result" type then
        Some ({| textContents := textContents g;
                 toolCalls := toolCalls g;
                 toolResults :=
                   toolResults g ++
                   [(get content "tool_use_id",
                     match get content "content" with
                     | Some (JStr s) => Some s
                     | other => stringify_value other
                     end)] |}, toolCallMap)
      else Some (g, toolCallMap)
  end.

Fixpoint on_blocks (blocks : list json)
  (state : gathered * list (value * value))
  : option (gathered * list (value * value)) :=
  match blocks with
  | [] => Some state
  | content :: rest =>
      match on_block content state with
      | Some state' => on_blocks rest state'
      | None => None
      end
  end.

(** What is pushed for a message once its blocks are gathered. *)
Definition pushed (message : json) (g : gathered) : list OpenAIMessage :=
  (if (0 <? List.length (textContents g))%nat
      || (0 <? List.length (toolCalls g))%nat
   then [chat_message (role_of message)
           (if (0 <? List.length (textContents g))%nat
            then Some (Array_join NL (map join_element (textContents g)))
            else None)
           (if (0 <? List.length (toolCalls g))%nat
            then Some (toolCalls g)
            else None)]
   else [])
  ++ map (fun toolResult : value * option string =>
            tool_message (fst toolResult) (snd toolResult))
         (toolResults g).

(** The body of [for (const message of claudeMessages)]. *)
Definition on_message (message : json)
  (state : list OpenAIMessage * list (value * value))
  : option (list OpenAIMessage * list (value * value)) :=
  let (openaiMessages, toolCallMap) := state in
  match message with
  | JNull => None
  | _ =>
      match get message "content" with
      | Some (JStr text) =>
          Some (openaiMessages ++
                [chat_message (role_of message) (Some text) None],
                toolCallMap)
      | Some (JArr blocks) =>
          match on_blocks blocks
                  ({| textContents := []; toolCalls := [];
                      toolResults := [] |}, toolCallMap) with
          | Some (g, toolCallMap') =>
              Some (openaiMessages ++ pushed message g, toolCallMap')
          | None => None
          end
      | _ => None
      end
  end.

Fixpoint on_messages (messages : list json)
  (state : list OpenAIMessage * list (value * value))
  : option (list OpenAIMessage * list (value * value)) :=
  match messages with
  | [] => Some state
  | message :: rest =>
      match on_message message state with
      | Some state' => on_messages rest state'
      | None => None
      end
  end.

(** [convertMessages]: [None] when a TypeError is thrown. *)
Definition convertMessages (claudeMessages : value)
  : option (list OpenAIMessage) :=
  match iterated claudeMessages with
  | Some messages => option_map fst (on_messages messages ([], []))
  | None => None
  end.

End Messages.

(* ================================================================= *)
(** ** [convertNormalResponse] *)

(** A content block of the response that is built. *)
Inductive ClaudeContent : Type :=
| text_content (text : json)
| tool_use_content (id name : value) (input : json).

(** The response that is built (beside the constant members
    [type: 'message'] and [role: 'assistant']); a count of the usage is
    the provider's own value or a number. *)
Record ClaudeResponse : Type := {
  response_id : string;
  response_content : list ClaudeContent;
  stop_reason : option string;
  input_tokens : json;
  output_tokens : json
}.

Section NormalResponse.

Context {P : Platform}.
Variable estimator : TokenEstimator.

(** [tokenEstimator.estimateClaudeContent], of the module that is not part
    of the sources: an opaque capability. *)
Variable estimateClaudeContent : list ClaudeContent -> Z.

(** Whether [v > 0] holds for a string, an array or an object [v], which
    the platform first turns into a number. *)
Variable positive_number : json -> bool.

(** [v > 0]. *)
Definition greater_than_zero (v : value) : bool :=
  match v with
  | None | Some JNull => false
  | Some (JBool b) => b
  | Some (JNum m _) => (0 <? m)%Z
  | Some other => positive_number other
  end.

(** [v || 0]. *)
Definition or_zero (v : value) : json :=
  match v with
  | Some j => if truthy v then j else JNum 0 0
  | None => JNum 0 0
  end.

(** Modelled from the spec: [safeJsonParse] of the module token-estimator,
    which is not part of the sources, on a value that may be [undefined]
    (whose text is [undefined]). *)
Definition safeJsonParse_of (arguments : value) : json :=
  match arguments with
  | Some j => safeJsonParse j
  | None =>
      match JSON_parse "undefined" with
      | Some v => v
      | None => JObj []
      end
  end.

(** [await openaiResponse.json()]: the text of the body (its reads put
    together), parsed; a rejected read or a text that is not JSON is an
    exception. *)
Definition response_json (openaiResponse : Response) : M json :=
  match body openaiResponse with
  | None =>
      match JSON_parse "" with
      | Some data => ret data
      | None => throw
      end
  | Some up =>
      if read_fails up then throw
      else match JSON_parse (fold_right append EmptyString (reads up)) with
           | Some data => ret data
           | None => throw
           end
  end.

(** The body of [for (const toolCall of message.tool_calls)]. *)
Definition tool_use_of (toolCall : json) (content : list ClaudeContent)
  : M (list ClaudeContent) :=
  id <- member (Some toolCall) "id" ;;
  fn <- member (Some toolCall) "function" ;;
  name <- member fn "name" ;;
  arguments <- member fn "arguments" ;;
  ret (content ++ [tool_use_content id name (safeJsonParse_of arguments)]).

(** The block [if (openaiData.choices && openaiData.choices.length > 0)]:
    the content and the stop reason. *)
Definition from_choices (openaiData : json)
  : M (list ClaudeContent * option string) :=
  choices <- member (Some openaiData) "choices" ;;
  match choices with
  | None => ret ([], None)
  | Some c =>
      if truthy choices && greater_than_zero (get_length c) then
        let choice := get_first c in
        message <- member choice "message" ;;
        text <- member message "content" ;;
        let content :=
          match text with
          | Some t => if truthy text then [text_content t] else []
          | None => []
          end in
        tool_calls <- member message "tool_calls" ;;
        match tool_calls with
        | Some calls =>
            if truthy tool_calls then
              toolCalls <- iterate calls ;;
              content' <- for_of toolCalls tool_use_of content ;;
              ret (content', Some "tool_use")
            else
              finish_reason <- member choice "finish_reason" ;;
              ret (content,
                   Some (if is_the_string "length" finish_reason
                         then "max_tokens" else "end_turn"))
        | None =>
            finish_reason <- member choice "finish_reason" ;;
            ret (content,
                 Some (if is_the_string "length" finish_reason
                       then "max_tokens" else "end_turn"))
        end
      else ret ([], None)
  end.

(** The two counts of the usage. *)
Definition usage_of (openaiData : json) (originalClaudeRequest : value)
  (content : list ClaudeContent) : json * json :=
  let usage := get openaiData "usage" in
  let inputTokens := or_zero (member_opt usage "prompt_tokens") in
  let outputTokens := or_zero (member_opt usage "completion_tokens") in
  if negb (truthy usage) && truthy originalClaudeRequest then
    (JNum (estimateMessages estimator
             (member_opt originalClaudeRequest "messages")) 0,
     JNum (estimateClaudeContent content) 0)
  else if negb (truthy (member_opt usage "completion_tokens"))
          && (0 <? List.length content)%nat
  then (inputTokens, JNum (estimateClaudeContent content) 0)
  else (inputTokens, outputTokens).

(** [convertNormalResponse]: the status and the response whose
    serialisation is the body. *)
Definition convertNormalResponse (openaiResponse : Response)
  (originalClaudeRequest : value) : M (nat * ClaudeResponse) :=
  openaiData <- response_json openaiResponse ;;
  id <- generateId ;;
  built <- from_choices openaiData ;;
  let (content, reason) := built in
  let (inputTokens, outputTokens) :=
    usage_of openaiData originalClaudeRequest content in
  ret (status openaiResponse,
       {| response_id := id;
          response_content := content;
          stop_reason := reason;
          input_tokens := inputTokens;
          output_tokens := outputTokens |}).

End NormalResponse.

(* ================================================================= *)
(** ** An executable platform *)

Module Sample.

Definition chr (n : nat) : ascii := ascii_of_nat n.

Definition is_json_ws (c : ascii) : bool :=
  let n := nat_of_ascii c in
  ((n =? 32) || (n =? 9) || (n =? 10) || (n =? 13))%nat.

Fixpoint skip_ws (s : list ascii) : list ascii :=
  match s with
  | c :: r => if is_json_ws c then skip_ws r else s
  | [] => []
  end.

Definition digit_of (c : ascii) : option Z :=
  let n := nat_of_ascii c in
  if ((48 <=? n) && (n <=? 57))%nat then Some (Z.of_nat (n - 48)) else None.

Definition hex_of (c : ascii) : option nat :=
  let n := nat_of_ascii c in
  if ((48 <=? n) && (n <=? 57))%nat then Some (n - 48)
  else if ((65 <=? n) && (n <=? 70))%nat then Some (n - 55)
  else if ((97 <=? n) && (n <=? 102))%nat then Some (n - 87)
  else None.

(** A maximal run of digits: its value on top of [acc], how many there
    were, and what follows. *)
Fixpoint digits (s : list ascii) (acc : Z) (n : nat)
  : Z * nat * list ascii :=
  match s with
  | c :: r =>
      match digit_of c with
      | Some d => digits r (acc * 10 + d)%Z (S n)
      | None => (acc, n, s)
      end
  | [] => (acc, n, s)
  end.

Definition is_char (n : nat) (c : ascii) : bool :=
  (nat_of_ascii c =? n)%nat.

Definition parse_exponent (s : list ascii) : option (Z * list ascii) :=
  match s with
  | c :: r =>
      if is_char 101 c || is_char 69 c then
        let '(negative, r1) :=
          match r with
          | d :: r' => if is_char 45 d then (true, r')
                       else if is_char 43 d then (false, r')
                       else (false, r)
          | [] => (false, r)
          end in
        let '(v, n, rest) := digits r1 0%Z 0 in
        if (n =? 0)%nat then None
        else Some ((if negative then - v else v)%Z, rest)
      else Some (0%Z, s)
  | [] => Some (0%Z, s)
  end.

Definition parse_fraction (int_part : Z) (s : list ascii)
  : option (Z * nat * list ascii) :=
  match s with
  | c :: r =>
      if is_char 46 c then
        let '(m, n, rest) := digits r int_part 0 in
        if (n =? 0)%nat then None else Some (m, n, rest)
      else Some (int_part, 0, s)
  | [] => Some (int_part, 0, s)
  end.

Definition parse_number (s : list ascii) : option (json * list ascii) :=
  let '(negative, s1) :=
    match s with
    | c :: r => if is_char 45 c then (true, r) else (false, s)
    | [] => (false, s)
    end in
  match s1 with
  | c :: r =>
      match digit_of c with
      | None => None
      | Some d =>
          let '(int_part, _, s2) :=
            if (d =? 0)%Z then (0%Z, 1, r) else digits s1 0%Z 0 in
          match parse_fraction int_part s2 with
          | None => None
          | Some (m, fn, s3) =>
              match parse_exponent s3 with
              | None => None
              | Some (e, s4) =>
                  Some (JNum (if negative then - m else m)%Z
                             (e - Z.of_nat fn)%Z, s4)
              end
          end
      end
  | [] => None
  end.

(** UTF-8 of a code point. *)
Definition utf8 (cp : N) : list ascii :=
  let b (n : N) := ascii_of_N n in
  (if cp <? 128 then [b cp]
   else if cp <? 2048 then
     [b (192 + cp / 64); b (128 + cp mod 64)]
   else if cp <? 65536 then
     [b (224 + cp / 4096); b (128 + (cp / 64) mod 64);
      b (128 + cp mod 64)]
   else
     [b (240 + cp / 262144); b (128 + (cp / 4096) mod 64);
      b (128 + (cp / 64) mod 64); b (128 + cp mod 64)])%N.

Definition hex4 (s : list ascii) : option (N * list ascii) :=
  match s with
  | a :: b :: c :: d :: r =>
      match hex_of a, hex_of b, hex_of c, hex_of d with
      | Some x, Some y, Some z, Some t =>
          Some ((((N.of_nat x * 16 + N.of_nat y) * 16 + N.of_nat z) * 16
                 + N.of_nat t)%N, r)
      | _, _, _, _ => None
      end
  | _ => None
  end.

Definition simple_escape (c : ascii) : option ascii :=
  let n := nat_of_ascii c in
  if (n =? 34)%nat then Some (chr 34)
  else if (n =? 92)%nat then Some (chr 92)
  else if (n =? 47)%nat then Some (chr 47)
  else if (n =? 98)%nat then Some (chr 8)
  else if (n =? 102)%nat then Some (chr 12)
  else if (n =? 110)%nat then Some (chr 10)
  else if (n =? 114)%nat then Some (chr 13)
  else if (n =? 116)%nat then Some (chr 9)
  else None.

Definition is_high (cu : N) : bool := ((55296 <=? cu) && (cu <=? 56319))%N.
Definition is_low (cu : N) : bool := ((56320 <=? cu) && (cu <=? 57343))%N.

(** A low surrogate escape right at the head of [s]. *)
Definition low_escape (s : list ascii) : option (N * list ascii) :=
  match s with
  | b :: u :: r =>
      if is_char 92 b && is_char 117 u then
        match hex4 r with
        | Some (lo, r') => if is_low lo then Some (lo, r') else None
        | None => None
        end
      else None
  | _ => None
  end.

(** The characters of a string literal after its opening quote, up to the
    closing one; [acc] is what was read, reversed.  A lone surrogate
    becomes U+FFFD. *)
Fixpoint parse_string (fuel : nat) (s : list ascii) (acc : list ascii)
  : option (string * list ascii) :=
  match fuel with
  | O => None
  | S f =>
      match s with
      | [] => None
      | c :: r =>
          if is_char 34 c then Some (string_of_list_ascii (rev acc), r)
          else if is_char 92 c then
            match r with
            | [] => None
            | e :: r1 =>
                match simple_escape e with
                | Some x => parse_string f r1 (x :: acc)
                | None =>
                    if is_char 117 e then
                      match hex4 r1 with
                      | None => None
                      | Some (cu, r2) =>
                          if is_high cu then
                            match low_escape r2 with
                            | Some (lo, r3) =>
                                parse_string f r3
                                  (rev (utf8 (65536 + (cu - 55296) * 1024
                                              + (lo - 56320))%N) ++ acc)
                            | None =>
                                parse_string f r2 (rev (utf8 65533%N) ++ acc)
                            end
                          else if is_low cu then
                            parse_string f r2 (rev (utf8 65533%N) ++ acc)
                          else parse_string f r2 (rev (utf8 cu) ++ acc)
                      end
                    else None
                end
            end
          else if (nat_of_ascii c <? 32)%nat then None
          else parse_string f r (c :: acc)
      end
  end.

(** [obj[k] = v] while an object literal is read. *)
Fixpoint set_member (k : string) (v : json) (members : list (string * json))
  : list (string * json) :=
  match members with
  | [] => [(k, v)]
  | (k', v') :: rest =>
      if k' =? k then (k', v) :: rest else (k', v') :: set_member k v rest
  end.

Fixpoint starts (p : list nat) (s : list ascii) : option (list ascii) :=
  match p, s with
  | [], _ => Some s
  | n :: p', c :: r => if is_char n c then starts p' r else None
  | _ :: _, [] => None
  end.

Fixpoint parse_value (fuel : nat) (s : list ascii)
  : option (json * list ascii) :=
  match fuel with
  | O => None
  | S f =>
      match skip_ws s with
      | [] => None
      | c :: r =>
          if is_char 123 c then
            match skip_ws r with
            | [] => None
            | c2 :: r2 =>
                if is_char 125 c2 then Some (JObj [], r2)
                else parse_members f (c2 :: r2) []
            end
          else if is_char 91 c then
            match skip_ws r with
            | [] => None
            | c2 :: r2 =>
                if is_char 93 c2 then Some (JArr [], r2)
                else parse_elements f (c2 :: r2) []
            end
          else if is_char 34 c then
            match parse_string (S (List.length r)) r [] with
            | Some (str, r') => Some (JStr str, r')
            | None => None
            end
          else
            match starts [116; 114; 117; 101] (c :: r) with
            | Some r' => Some (JBool true, r')
            | None =>
                match starts [102; 97; 108; 115; 101] (c :: r) with
                | Some r' => Some (JBool false, r')
                | None =>
                    match starts [110; 117; 108; 108] (c :: r) with
                    | Some r' => Some (JNull, r')
                    | None => parse_number (c :: r)
                    end
                end
            end
      end
  end
with parse_elements (fuel : nat) (s : list ascii) (acc : list json)
  : option (json * list ascii) :=
  match fuel with
  | O => None
  | S f =>
      match parse_value f s with
      | None => None
      | Some (v, r) =>
          match skip_ws r with
          | [] => None
          | c :: r' =>
              if is_char 44 c then parse_elements f r' (v :: acc)
              else if is_char 93 c then Some (JArr (rev (v :: acc)), r')
              else None
          end
      end
  end
with parse_members (fuel : nat) (s : list ascii)
  (acc : list (string * json)) : option (json * list ascii) :=
  match fuel with
  | O => None
  | S f =>
      match skip_ws s with
      | [] => None
      | q :: r =>
          if is_char 34 q then
            match parse_string (S (List.length r)) r [] with
            | None => None
            | Some (k, r1) =>
                match skip_ws r1 with
                | [] => None
                | colon :: r2 =>
                    if is_char 58 colon then
                      match parse_value f r2 with
                      | None => None
                      | Some (v, r3) =>
                          match skip_ws r3 with
                          | [] => None
                          | c :: r4 =>
                              if is_char 44 c
                              then parse_members f r4 (set_member k v acc)
                              else if is_char 125 c
                              then Some (JObj (set_member k v acc), r4)
                              else None
                          end
                      end
                    else None
                end
            end
          else None
      end
  end.

(** [JSON.parse]: one value, white space around it, nothing else. *)
Definition parse (s : string) : option json :=
  let cs := list_ascii_of_string s in
  match parse_value (2 * List.length cs + 4) cs with
  | Some (v, r) =>
      match skip_ws r with
      | [] => Some v
      | _ :: _ => None
      end
  | None => None
  end.

Definition hex_digit (n : N) : ascii :=
  (if n <? 10 then ascii_of_N (48 + n) else ascii_of_N (87 + n))%N.

(** The quoted form of a string in [JSON.stringify]. *)
Fixpoint quote_chars (s : string) : string :=
  match s with
  | EmptyString => EmptyString
  | String c r =>
      let n := N_of_ascii c in
      let rest := quote_chars r in
      (if (n =? 34)%N then String (chr 92) (String (chr 34) rest)
       else if (n =? 92)%N then String (chr 92) (String (chr 92) rest)
       else if (n =? 8)%N then String (chr 92) (String (chr 98) rest)
       else if (n =? 12)%N then String (chr 92) (String (chr 102) rest)
       else if (n =? 10)%N then String (chr 92) (String (chr 110) rest)
       else if (n =? 13)%N then String (chr 92) (String (chr 114) rest)
       else if (n =? 9)%N then String (chr 92) (String (chr 116) rest)
       else if (n <? 32)%N then
         String (chr 92) (String (chr 117) (String (chr 48) (String (chr 48)
           (String (hex_digit (n / 16)) (String (hex_digit (n mod 16))
              rest)))))
       else String c rest)
  end.

Definition quote (s : string) : string :=
  String (chr 34) (quote_chars s ++ String (chr 34) EmptyString)%string.

Definition decimal (z : Z) : string := NilZero.string_of_int (Z.to_int z).

(** Trailing zeros of the mantissa moved into a negative exponent. *)
Fixpoint normalise (fuel : nat) (m e : Z) : Z * Z :=
  match fuel with
  | O => (m, e)
  | S f =>
      if ((e <? 0) && (m mod 10 =? 0))%Z then normalise f (m / 10)%Z (e + 1)%Z
      else (m, e)
  end.

Fixpoint zeros (n : nat) : string :=
  match n with
  | O => EmptyString
  | S n' => String (chr 48) (zeros n')
  end.

(** The decimal text of [m * 10^e] (no exponent notation). *)
Definition number_text (m e : Z) : string :=
  if (m =? 0)%Z then "0"
  else if (0 <=? e)%Z then decimal (m * 10 ^ e)%Z
  else
    let '(m', e') := normalise (Z.to_nat (- e)) m e in
    if (e' =? 0)%Z then decimal m'
    else
      let sign := if (m' <? 0)%Z then "-" else "" in
      let ds := decimal (Z.abs m') in
      let k := Z.to_nat (- e') in
      let n := String.length ds in
      (if (k <? n)%nat
       then sign ++ substring 0 (n - k) ds ++ "." ++ substring (n - k) k ds
       else sign ++ "0." ++ zeros (k - n) ++ ds)%string.

Definition join (sep : string) (parts : list string) : string :=
  match parts with
  | [] => EmptyString
  | x :: r => fold_left (fun acc y => (acc ++ sep ++ y)%string) r x
  end.

(** [JSON.stringify] without indentation. *)
Fixpoint stringify (j : json) : string :=
  match j with
  | JNull => "null"
  | JBool true => "true"
  | JBool false => "false"
  | JNum m e => number_text m e
  | JStr s => quote s
  | JArr items => ("[" ++ join "," (map stringify items) ++ "]")%string
  | JObj members =>
      ("{" ++ join ","
                (map (fun kv : string * json => let (k, v) := kv in
                                (quote k ++ ":" ++ stringify v)%string)
                     members) ++ "}")%string
  end.

(** The [ToString] coercion. *)
Fixpoint to_text (j : json) : string :=
  match j with
  | JNull => "null"
  | JBool true => "true"
  | JBool false => "false"
  | JNum m e => number_text m e
  | JStr s => s
  | JArr items =>
      join "," (map (fun x => match x with
                              | JNull => EmptyString
                              | y => to_text y
                              end) items)
  | JObj _ => "[object Object]"
  end.

(** Draws [0.id0], [0.id1], ... so that the identifiers are [id0],
    [id1], ... *)
Definition random (n : nat) : string :=
  ("0.id" ++ decimal (Z.of_nat n))%string.

Definition platform : Platform :=
  {| JSON_parse := parse;
     JSON_stringify := stringify;
     ToString := to_text;
     random36 := random |}.

(** One token for every four characters, rounded up. *)
Definition count (text : string) : Z :=
  Z.of_nat ((String.length text + 3) / 4).

Definition estimator : TokenEstimator :=
  {| estimate := fun v => count (to_text v);
     estimateMessages := fun v => match v with
                                  | Some j => count (stringify j)
                                  | None => 0%Z
                                  end |}.

(** Streams are written on one line: every ['] stands for a double quote
    and every [|] for a line feed. *)
Fixpoint text (s : string) : string :=
  match s with
  | EmptyString => EmptyString
  | String c r =>
      String (if is_char 39 c then chr 34
              else if is_char 124 c then LF
              else c) (text r)
  end.

(** A body whose reads all succeed. *)
Definition body_of (values : list string) : option upstream :=
  Some {| reads := values; read_fails := false |}.

(** The transcoder on the sample platform. *)
Definition run (req : value) (values : list string) : outcome :=
  @convertStreamResponse platform estimator req (body_of values).

(** The characters of a text, one per read. *)
Definition one_by_one (s : string) : list string :=
  map (fun c => String c EmptyString) (list_ascii_of_string s).

Definition hi_line : string :=
  text "data: {'choices':[{'delta':{'content':'Hi'}}]}".

Definition a_line : string :=
  text "data: {'choices':[{'delta':{'content':'A'}}]}".

Definition b_line : string :=
  text "data: {'choices':[{'delta':{'content':'B'}}]}".


Definition bad_line : string := "data: not json".

Definition truncated_line : string := text "data: {'choices'".

Definition done_line : string := "data: [DONE]".

Definition unmarked_line : string :=
  text "event:{'choices':[{'delta':{'content':'A'}}]}".

Definition mixed_json : string :=
  text ("{'choices':[{'delta':{'content':'A','tool_calls':" ++
        "[{'function':{'name':'lookup','arguments':'{\'q\':\'x\'}'}}]}}]}").

Definition lookup_call (arguments : string) : json :=
  JObj [("function", JObj [("name", JStr "lookup");
                           ("arguments", JStr arguments)])].

Definition request : value :=
  Some (JObj [("model", JStr "m");
              ("messages", JArr [JObj [("role", JStr "user");
                                       ("content", JStr "hello")]])]).

(** A tool's input schema with a removed key at several depths, a tuple
    form of [items] and schemas listed under [anyOf]. *)
Definition inner_schema : json :=
  JObj [("title", JStr "inner"); ("additionalProperties", JBool false);
        ("type", JStr "string"); ("format", JStr "email")].

Definition schema : json :=
  JObj [("$schema", JStr "http://json-schema.org/draft-07/schema#");
        ("type", JStr "object");
        ("properties", JObj [("name", inner_schema)]);
        ("anyOf", JArr [inner_schema]);
        ("items", JArr [inner_schema; JStr "x"]);
        ("required", JArr [JStr "name"])].

(** Messages of a conversation. *)
Definition system_note : json :=
  JObj [("role", JStr "system"); ("content", JStr "be brief")].

Definition assistant_reply : json :=
  JObj [("role", JStr "assistant"); ("content", JStr "hello")].

(** A user message that answers a tool call and then goes on in words:
    the tool result comes first in the content. *)
Definition tool_round : json :=
  JObj [("role", JStr "user");
        ("content",
         JArr [JObj [("type", JStr "tool_result");
                     ("tool_use_id", JStr "t1");
                     ("content", JStr "42")];
               JObj [("type", JStr "text"); ("text", JStr "and now?")]])].

(** An estimate of the content built for a complete response. *)
Definition content_count (content : list ClaudeContent) : Z :=
  fold_right
    (fun b n =>
       match b with
       | text_content t => (count (to_text t) + n)%Z
       | tool_use_content _ _ input => (count (stringify input) + n)%Z
       end) 0%Z content.

(** [v > 0] for a value that is read as a number through its text. *)
Definition positive (v : json) : bool :=
  match parse (to_text v) with
  | Some (JNum m _) => (0 <? m)%Z
  | _ => false
  end.

(** An estimator that always answers a thousand. *)
Definition other_estimator : TokenEstimator :=
  {| estimate := fun _ => 1000%Z; estimateMessages := fun _ => 1000%Z |}.

Definition complete_body : string :=
  text ("{'choices':[{'message':{'content':'Hi','tool_calls':" ++
        "[{'id':'c1','function':{'name':'lookup','arguments':'{}'}}]}," ++
        "'finish_reason':'tool_calls'}]," ++
        "'usage':{'prompt_tokens':7,'completion_tokens':3}}").

Definition no_usage_body : string :=
  text "{'choices':[{'message':{'content':'Hi'},'finish_reason':'length'}]}".

Definition response_of (body_text : string) : Response :=
  {| ok := true; status := 200;
     content_type := Some "application/json";
     body := body_of [body_text] |}.

Definition fresh : world := {| draws := 0; accumulatedOutputTokens := 0 |}.

(** A record with one tool call whose argument text is not JSON, and one
    whose argument text is empty. *)
Definition unparsable_json : string :=
  text ("{'choices':[{'delta':{'tool_calls':" ++
        "[{'function':{'name':'lookup','arguments':'not json'}}]}}]}").

Definition empty_arguments_json : string :=
  text ("{'choices':[{'delta':{'tool_calls':" ++
        "[{'function':{'name':'lookup','arguments':''}}]}}]}").

End Sample.

(* ================================================================= *)
(** ** Vocabulary of the properties *)

(** The text has no line feed. *)
Fixpoint no_LF (s : string) : bool :=
  match s with
  | EmptyString => true
  | String c r => negb (Ascii.eqb c LF) && no_LF r
  end.

(** The text of a body read in the given pieces. *)
Definition joined (values : list string) : string :=
  fold_right append EmptyString values.

(** A sequence of block events made of whole start/delta/stop triples, each
    with one index. *)
Inductive triples : list event -> Prop :=
| triples_nil : triples []
| triples_text (i : nat) (text : json) (rest : list event) :
    triples rest ->
    triples (text_block_start i :: text_delta i text ::
             content_block_stop i :: rest)
| triples_tool (i : nat) (id : string) (name : json) (partial_json : string)
    (rest : list event) :
    triples rest ->
    triples (tool_use_block_start i id name ::
             input_json_delta i partial_json ::
             content_block_stop i :: rest).

(** An event that may come right after a complete triple: the start of the
    next block, or the end of the message. *)
Definition opens_or_ends (ev : event) : bool :=
  match ev with
  | text_block_start _ | tool_use_block_start _ _ _ | message_stop _ => true
  | _ => false
  end.

(** The function name and the function arguments of a tool-call fragment
    ([toolCall.function?.name], [toolCall.function?.arguments]). *)
Definition name_of (toolCall : json) : value :=
  member_opt (get toolCall "function") "name".

Definition arguments_of (toolCall : json) : value :=
  member_opt (get toolCall "function") "arguments".

(** The block events of a stream. *)
Definition block_events (evs : list event) : list event :=
  filter is_block_event evs.

(** What the handler's state may do over a call: the accumulated count does
    not go down. *)
Definition tokens_grow (w w' : world) : Prop :=
  (accumulatedOutputTokens w <= accumulatedOutputTokens w')%Z.

(** The running total of the stream once the given reads are handled. *)
Definition running_total {P : Platform} (estimator : TokenEstimator)
  (values : list string) : Z :=
  totalOutputTokens
    (fst (read_loop (processLine estimator) values
            (sendMessageStart initial_state))).


(** The running total of the stream is not above the handler's count. *)
Definition below (s : stream_state) : Prop :=
  (totalOutputTokens s <= accumulatedOutputTokens (env s))%Z.

(** The running total of the stream is the handler's count. *)
Definition level (s : stream_state) : Prop :=
  totalOutputTokens s = accumulatedOutputTokens (env s) /\
  (0 <= accumulatedOutputTokens (env s))%Z.

(** An estimator that never returns a negative count. *)
Definition nonnegative (estimator : TokenEstimator) : Prop :=
  forall v, (0 <= estimate estimator v)%Z.

(** The indexes of the text blocks and of the tool-use blocks that a queue
    opens, in order. *)
Definition text_start_indexes (evs : list event) : list nat :=
  flat_map (fun ev => match ev with
                      | text_block_start i => [i]
                      | _ => []
                      end) evs.

Definition tool_start_indexes (evs : list event) : list nat :=
  flat_map (fun ev => match ev with
                      | tool_use_block_start i _ _ => [i]
                      | _ => []
                      end) evs.

(** The estimate the handler adds for what an event carries: the text of a
    text delta, the name of a tool-use start, the serialised arguments of
    an input delta. *)
Definition event_tokens (estimator : TokenEstimator) (ev : event) : Z :=
  match ev with
  | text_delta _ text => estimate estimator text
  | tool_use_block_start _ _ name => estimate estimator name
  | input_json_delta _ partial_json => estimate estimator (JStr partial_json)
  | _ => 0%Z
  end.

Definition queue_tokens (estimator : TokenEstimator) (evs : list event) : Z :=
  fold_right (fun ev n => (event_tokens estimator ev + n)%Z) 0%Z evs.

(** What a run of the handler's fragments does to its local variables and
    to the accumulated count: events are added at the end, the text blocks
    among them are numbered from the text index on, the tool-use blocks
    from the tool index on, and the count grows by their estimates. *)
Definition advances (estimator : TokenEstimator)
  (l : locals) (w : world) (l' : locals) (w' : world) : Prop :=
  exists t,
    events l' = events l ++ t /\
    text_start_indexes t
      = seq (currentTextIndex l) (currentTextIndex l' - currentTextIndex l) /\
    currentTextIndex l <= currentTextIndex l' /\
    tool_start_indexes t
      = seq (currentToolIndex l) (currentToolIndex l' - currentToolIndex l) /\
    currentToolIndex l <= currentToolIndex l' /\
    accumulatedOutputTokens w'
      = (accumulatedOutputTokens w + queue_tokens estimator t)%Z.

(** The blocks in the queue are numbered by the two counters. *)
Definition numbered (s : stream_state) : Prop :=
  text_start_indexes (enqueued s) = seq 0 (textBlockIndex s) /\
  tool_start_indexes (enqueued s) = seq 0 (toolUseBlockIndex s).

(** The handler's count is the estimate of what is in the queue. *)
Definition accounted (estimator : TokenEstimator) (s : stream_state) : Prop :=
  accumulatedOutputTokens (env s) = queue_tokens estimator (enqueued s).

(** The non-empty segments of a path. *)
Definition segments (path : string) : list string :=
  filter (fun part => negb (part =? "")%string) (split_on "/" path).

(** The path segment that selects a provider. *)
Definition type_segment (p : provider_type) : string :=
  match p with
  | gemini => "gemini"
  | openai => "openai"
  end.

(** The text has no occurrence of the character. *)
Fixpoint free_of (c : ascii) (s : string) : bool :=
  match s with
  | EmptyString => true
  | String x r => negb (Ascii.eqb x c) && free_of c r
  end.

(** A proper path segment: not empty, no slash. *)
Definition proper_segment (s : string) : bool :=
  nonempty s && free_of "/" s.

(** No object met by going down through object members (arrays are not
    entered) has one of the removed keys. *)
Fixpoint unwanted_free (j : json) : bool :=
  match j with
  | JObj members =>
      forallb (fun kv : string * json =>
                 negb (removed_key (fst kv)) && unwanted_free (snd kv))
              members
  | _ => true
  end.

(** What the loop of [cleanJsonSchema] leaves under a key that it
    keeps. *)
Definition cleaned_member (key : string) (v : json) : json :=
  if (key =? "enum")%string && isArray v then v
  else if (key =? "properties")%string && typeof_object v
  then cleanJsonSchema v
  else if (key =? "items")%string && typeof_object v
  then cleanJsonSchema v
  else if typeof_object v && negb (isArray v) then cleanJsonSchema v
  else v.

(** The text of a message whose content is a string. *)
Definition plain_text (message : json) : option string :=
  match get message "content" with
  | Some (JStr text) => Some text
  | _ => None
  end.

(** The content blocks of a given type. *)
Definition count_blocks (type : string) (blocks : list json) : nat :=
  List.length
    (filter (fun content => is_the_string type (get content "type")) blocks).

Definition is_tool_message (m : OpenAIMessage) : bool :=
  match m with
  | tool_message _ _ => true
  | chat_message _ _ _ => false
  end.

(** Two conversions, one after the other. *)
Definition both_converted (a b : option (list OpenAIMessage))
  : option (list OpenAIMessage) :=
  match a, b with
  | Some x, Some y => Some (x ++ y)
  | _, _ => None
  end.

Definition is_text_content (b : ClaudeContent) : bool :=
  match b with
  | text_content _ => true
  | tool_use_content _ _ _ => false
  end.

Definition is_tool_use_content (b : ClaudeContent) : bool :=
  match b with
  | tool_use_content _ _ _ => true
  | text_content _ => false
  end.

(** The content that [convertNormalResponse] can build and the stop reason
    that goes with it: at most one text block, first, then tool-use blocks
    only; a stop reason among the three, [tool_use] whenever there is a
    tool-use block; no stop reason only with no content. *)
Definition well_shaped (content : list ClaudeContent)
  (reason : option string) : Prop :=
  exists texts tools,
    content = texts ++ tools /\
    List.length texts <= 1 /\
    Forall (fun b => is_text_content b = true) texts /\
    Forall (fun b => is_tool_use_content b = true) tools /\
    (reason = None \/ reason = Some "tool_use"%string \/
     reason = Some "max_tokens"%string \/ reason = Some "end_turn"%string) /\
    (tools <> [] -> reason = Some "tool_use"%string) /\
    (reason = None -> content = []).

(* ================================================================= *)
(** * Properties *)

(** ** Line framing *)

Lemma split_nl_nonempty (s : string) : split_nl s <> [].
Proof.
  destruct s as [|c r]; simpl; [discriminate|].
  destruct (Ascii.eqb c LF); [discriminate|].
  destruct (split_nl r); discriminate.
Qed.

Lemma split_nl_cons (c : ascii) (r : string) :
  Ascii.eqb c LF = false ->
  exists h t, split_nl r = h :: t /\ split_nl (String c r) = String c h :: t.
Proof.
  intros Hc. simpl. rewrite Hc.
  destruct (split_nl r) as [|h t] eqn:E.
  - exfalso. exact (split_nl_nonempty r E).
  - exists h, t. split; reflexivity.
Qed.

(** Splitting a text read in two parts: the complete lines of the first
    part, then the lines of what the first part left, continued by the
    second. *)
Lemma split_nl_app (a b : string) :
  split_nl (a ++ b)%string =
  removelast (split_nl a) ++ split_nl (last (split_nl a) "" ++ b)%string.
Proof.
  induction a as [|c r IH]; [reflexivity|].
  destruct (Ascii.eqb c LF) eqn:Hc.
  - simpl. rewrite Hc. rewrite IH.
    destruct (split_nl r) as [|h t] eqn:E.
    + exfalso. exact (split_nl_nonempty r E).
    + reflexivity.
  - destruct (split_nl_cons c r Hc) as (h & t & Er & Ea).
    rewrite Ea.
    change (String c r ++ b)%string with (String c (r ++ b)%string).
    destruct (split_nl_cons c (r ++ b)%string Hc) as (h' & t' & Er' & Ea').
    rewrite Ea'. rewrite IH, Er in Er'.
    destruct t as [|x t].
    + change (removelast [h] ++ split_nl (last [h] "" ++ b)%string)
        with (split_nl (h ++ b)%string) in Er'.
      change (removelast [String c h] ++
              split_nl (last [String c h] "" ++ b)%string)
        with (split_nl (String c (h ++ b)%string)).
      destruct (split_nl_cons c (h ++ b)%string Hc) as (h2 & t2 & E2 & E2').
      rewrite E2'. rewrite Er' in E2. inversion E2; subst. reflexivity.
    + change (removelast (h :: x :: t)) with (h :: removelast (x :: t)) in Er'.
      change (last (h :: x :: t) "") with (last (x :: t) "") in Er'.
      change (removelast (String c h :: x :: t))
        with (String c h :: removelast (x :: t)).
      change (last (String c h :: x :: t) "") with (last (x :: t) "").
      simpl app in Er'. inversion Er'; subst. reflexivity.
Qed.

Lemma removelast_app_nonempty {A : Type} (l l' : list A) :
  l' <> [] -> removelast (l ++ l') = l ++ removelast l'.
Proof.
  intros H. apply removelast_app. exact H.
Qed.

Lemma last_app_nonempty {A : Type} (l l' : list A) (d : A) :
  l' <> [] -> last (l ++ l') d = last l' d.
Proof.
  intros H. induction l as [|x l IH]; [reflexivity|].
  simpl. destruct (l ++ l') eqn:E.
  - destruct l; simpl in E; [contradiction | discriminate].
  - exact IH.
Qed.

Lemma split_nl_line (line rest : string) :
  no_LF line = true ->
  split_nl (line ++ NL ++ rest)%string = line :: split_nl rest.
Proof.
  induction line as [|c r IH]; intros H.
  - reflexivity.
  - simpl in H. apply andb_true_iff in H. destruct H as [Hc Hr].
    apply negb_true_iff in Hc.
    change (String c r ++ NL ++ rest)%string
      with (String c (r ++ NL ++ rest)%string).
    destruct (split_nl_cons c (r ++ NL ++ rest)%string Hc)
      as (h & t & E1 & E2).
    rewrite E2. rewrite (IH Hr) in E1. inversion E1; subst. reflexivity.
Qed.

(** ** The read loop, for any line handler *)

Section ReadLoop.

Context {P : Platform}.
Variable handler : string -> nat -> nat -> M (option LineResult.t).


Lemma set_buffer_same (s : stream_state) : set_buffer (buffer s) s = s.
Proof. destruct s; reflexivity. Qed.

Lemma on_line_set_buffer (b line : string) (s : stream_state) :
  on_line handler line (set_buffer b s) =
  (set_buffer b (fst (on_line handler line s)), snd (on_line handler line s)).
Proof.
  unfold on_line.
  destruct (negb (nonempty (trim line)) || negb (startsWith line "data: "));
    [reflexivity|].
  destruct (slice 6 line =? "[DONE]")%string; [reflexivity|].
  change (textBlockIndex (set_buffer b s)) with (textBlockIndex s).
  change (toolUseBlockIndex (set_buffer b s)) with (toolUseBlockIndex s).
  change (env (set_buffer b s)) with (env s).
  destruct (handler (slice 6 line) (textBlockIndex s)
              (toolUseBlockIndex s) (env s)) as [[[r|]|] w];
    reflexivity.
Qed.

Lemma for_lines_set_buffer (b : string) (lines : list string) :
  forall s,
    for_lines handler lines (set_buffer b s) =
    (set_buffer b (fst (for_lines handler lines s)),
     snd (for_lines handler lines s)).
Proof.
  induction lines as [|line rest IH]; intros s; [reflexivity|].
  simpl. rewrite on_line_set_buffer.
  destruct (on_line handler line s) as [s' [|]]; simpl; [reflexivity|].
  apply IH.
Qed.

Lemma on_line_buffer (line : string) (s : stream_state) :
  buffer (fst (on_line handler line s)) = buffer s.
Proof.
  unfold on_line.
  destruct (negb (nonempty (trim line)) || negb (startsWith line "data: "));
    [reflexivity|].
  destruct (slice 6 line =? "[DONE]")%string; [reflexivity|].
  destruct (handler (slice 6 line) (textBlockIndex s)
              (toolUseBlockIndex s) (env s)) as [[[r|]|] w];
    reflexivity.
Qed.

Lemma for_lines_buffer (lines : list string) :
  forall s, buffer (fst (for_lines handler lines s)) = buffer s.
Proof.
  induction lines as [|line rest IH]; intros s; [reflexivity|].
  simpl. pose proof (on_line_buffer line s) as Hb.
  destruct (on_line handler line s) as [s' [|]]; simpl in *; [exact Hb|].
  rewrite IH. exact Hb.
Qed.

(** The loop over the lines of two arrays, one after the other. *)
Lemma for_lines_app (l1 l2 : list string) :
  forall s,
    for_lines handler (l1 ++ l2) s =
    match for_lines handler l1 s with
    | (s', true) => (s', true)
    | (s', false) => for_lines handler l2 s'
    end.
Proof.
  induction l1 as [|line rest IH]; intros s; [reflexivity|].
  simpl. destruct (on_line handler line s) as [s' [|]]; [reflexivity|].
  apply IH.
Qed.

Lemma last_default_irrelevant {A : Type} (l : list A) (x d : A) :
  l <> [] -> last l x = last l d.
Proof.
  induction l as [|a l IH]; intros H; [contradiction|].
  destruct l as [|b l]; [reflexivity|].
  change (last (a :: b :: l) x) with (last (b :: l) x).
  change (last (a :: b :: l) d) with (last (b :: l) d).
  apply IH. discriminate.
Qed.

Lemma last_cons_default {A : Type} (x d : A) (r : list A) :
  last r x = last (x :: r) d.
Proof.
  destruct r as [|y r]; [reflexivity|].
  change (last (x :: y :: r) d) with (last (y :: r) d).
  apply last_default_irrelevant. discriminate.
Qed.

(** One iteration of the loop, with the array operations spelled out. *)
Lemma on_read_eq (value : string) (s : stream_state) :
  on_read handler value s =
  for_lines handler (removelast (split_nl (buffer s ++ value)%string))
    (set_buffer (last (split_nl (buffer s ++ value)%string) "") s).
Proof.
  unfold on_read, pop.
  destruct (split_nl (buffer s ++ value)%string) as [|x r] eqn:E.
  - exfalso. exact (split_nl_nonempty _ E).
  - unfold or_empty. rewrite (last_cons_default x "" r). reflexivity.
Qed.

Lemma append_assoc (a b c : string) :
  ((a ++ b) ++ c = a ++ b ++ c)%string.
Proof.
  induction a as [|x a IH]; [reflexivity|].
  simpl. rewrite IH. reflexivity.
Qed.

Lemma append_nil_r (a : string) : (a ++ "")%string = a.
Proof.
  induction a as [|x a IH]; [reflexivity|].
  simpl. rewrite IH. reflexivity.
Qed.

(** Reading [v1 ++ v2] at once, against reading [v1] and then [v2]: the
    same lines are handled in the same order; when a line of [v1] makes the
    handler throw, only the held-back remainder differs. *)
Lemma on_read_app (v1 v2 : string) (s : stream_state) :
  on_read handler (v1 ++ v2)%string s =
  match on_read handler v1 s with
  | (s1, true) =>
      (set_buffer (last (split_nl (buffer s ++ v1 ++ v2)%string) "") s1, true)
  | (s1, false) => on_read handler v2 s1
  end.
Proof.
  rewrite (on_read_eq (v1 ++ v2)%string s), (on_read_eq v1 s).
  rewrite <- append_assoc, split_nl_app.
  set (L1 := removelast (split_nl (buffer s ++ v1)%string)).
  set (r1 := last (split_nl (buffer s ++ v1)%string) "").
  rewrite (removelast_app_nonempty L1 _ (split_nl_nonempty _)).
  rewrite (last_app_nonempty L1 _ "" (split_nl_nonempty _)).
  rewrite for_lines_app.
  rewrite (for_lines_set_buffer _ L1 s), (for_lines_set_buffer r1 L1 s).
  destruct (for_lines handler L1 s) as [x [|]]; cbn [fst snd].
  - reflexivity.
  - rewrite on_read_eq. reflexivity.
Qed.

(** The loop over several reads is one iteration over their joined text,
    as long as that iteration's handler calls all return. *)
Lemma read_loop_joined (values : list string) :
  forall s,
    values <> [] ->
    snd (on_read handler (joined values) s) = false ->
    read_loop handler values s = on_read handler (joined values) s.
Proof.
  induction values as [|v rest IH]; intros s Hne Hok; [contradiction|].
  destruct rest as [|v' rest].
  - cbn [joined fold_right] in *. rewrite append_nil_r in *.
    cbn [read_loop]. destruct (on_read handler v s) as [s' [|]]; reflexivity.
  - change (joined (v :: v' :: rest))
      with (v ++ joined (v' :: rest))%string in *.
    rewrite on_read_app in Hok |- *.
    cbn [read_loop]. fold (read_loop handler (v' :: rest)).
    destruct (on_read handler v s) as [s1 [|]].
    + discriminate Hok.
    + apply IH; [discriminate | exact Hok].
Qed.

Variable originalClaudeRequest : value.
Variable tokenEstimator : option TokenEstimator.

Lemma try_exit_finally (t : try_end) (s : stream_state) :
  try_exit (finally handler originalClaudeRequest tokenEstimator t s) = t.
Proof.
  unfold finally. destruct (flush handler s) as [s' [|]]; reflexivity.
Qed.

Lemma buffer_sendMessageStart :
  buffer (sendMessageStart initial_state) = "".
Proof. reflexivity. Qed.

(** Chunk-boundary invariance of the whole [start] callback, when no
    complete line makes the handler throw. *)
Lemma start_joined (values : list string) (fails : bool) :
  try_exit (start handler originalClaudeRequest tokenEstimator
              (Some {| reads := [joined values]; read_fails := fails |}))
    <> HandlerThrew ->
  start handler originalClaudeRequest tokenEstimator
    (Some {| reads := values; read_fails := fails |}) =
  start handler originalClaudeRequest tokenEstimator
    (Some {| reads := [joined values]; read_fails := fails |}).
Proof.
  unfold start. cbn [reads read_fails read_loop].
  set (s0 := sendMessageStart initial_state).
  destruct values as [|v rest].
  - intros _. cbn [joined fold_right read_loop].
    rewrite on_read_eq.
    change (buffer s0) with ""%string. cbn [append split_nl removelast last].
    cbn [for_lines]. rewrite <- buffer_sendMessageStart.
    fold s0. rewrite set_buffer_same. reflexivity.
  - intros H.
    assert (Hok : snd (on_read handler (joined (v :: rest)) s0) = false).
    { destruct (on_read handler (joined (v :: rest)) s0) as [s' [|]];
        [|reflexivity].
      exfalso. apply H. apply try_exit_finally. }
    rewrite (read_loop_joined (v :: rest) s0); [|discriminate|exact Hok].
    destruct (on_read handler (joined (v :: rest)) s0) as [s' [|]];
      reflexivity.
Qed.

End ReadLoop.

(** ** The shape of the outbound queue *)

Lemma triples_app (a b : list event) :
  triples a -> triples b -> triples (a ++ b).
Proof.
  intros Ha Hb. induction Ha as [|i text rest _ IH|i id name pj rest _ IH].
  - exact Hb.
  - cbn [app]. apply triples_text. exact IH.
  - cbn [app]. apply triples_tool. exact IH.
Qed.

Lemma triples_block_events (t : list event) :
  triples t -> Forall (fun ev => is_block_event ev = true) t.
Proof.
  intros H. induction H; repeat constructor; assumption.
Qed.

(** What may come first in a run of triples followed by [tail]. *)
Lemma triples_head (t tail : list event) (ev : event) :
  triples t ->
  (forall e, nth_error tail 0 = Some e -> opens_or_ends e = true) ->
  nth_error (t ++ tail) 0 = Some ev -> opens_or_ends ev = true.
Proof.
  intros Ht Htail H. destruct Ht.
  - apply Htail. exact H.
  - inversion H; subst. reflexivity.
  - inversion H; subst. reflexivity.
Qed.

(** In a run of triples followed by [tail], a block start is followed by
    its delta and its stop, and then by the start of another block or by
    the head of [tail]. *)
Lemma triples_nth (t tail : list event) :
  triples t ->
  (forall e, In e tail -> opens_or_ends e = true /\
                          forall i, is_block_start i e = false) ->
  forall k i ev,
    nth_error (t ++ tail) k = Some ev ->
    is_block_start i ev = true ->
    exists d st,
      nth_error (t ++ tail) (S k) = Some d /\ is_block_delta i d = true /\
      nth_error (t ++ tail) (S (S k)) = Some st /\
      is_block_stop i st = true /\
      forall e, nth_error (t ++ tail) (S (S (S k))) = Some e ->
                opens_or_ends e = true.
Proof.
  intros Ht Htail.
  assert (Hhead : forall rest e, triples rest ->
            nth_error (rest ++ tail) 0 = Some e -> opens_or_ends e = true).
  { intros rest e Hr He. apply (triples_head rest tail e Hr); [|exact He].
    intros e0 H0. destruct tail as [|x tail']; [discriminate|].
    inversion H0; subst. apply Htail. left. reflexivity. }
  induction Ht as [|j text rest Hrest IH|j id name pj rest Hrest IH];
    intros k i ev Hk Hs.
  - cbn [app] in Hk. apply nth_error_In in Hk.
    destruct (Htail ev Hk) as [_ Hno]. rewrite Hno in Hs. discriminate.
  - destruct k as [|[|[|k]]]; cbn [app nth_error] in Hk.
    + inversion Hk; subst. cbn [is_block_start] in Hs.
      exists (text_delta j text), (content_block_stop j).
      cbn [app nth_error is_block_delta is_block_stop].
      repeat split; try assumption. intros e He.
      exact (Hhead rest e Hrest He).
    + inversion Hk; subst. discriminate.
    + inversion Hk; subst. discriminate.
    + destruct (IH k i ev Hk Hs) as (d & st & H1 & H2 & H3 & H4 & H5).
      exists d, st. cbn [app nth_error]. repeat split; assumption.
  - destruct k as [|[|[|k]]]; cbn [app nth_error] in Hk.
    + inversion Hk; subst. cbn [is_block_start] in Hs.
      exists (input_json_delta j pj), (content_block_stop j).
      cbn [app nth_error is_block_delta is_block_stop].
      repeat split; try assumption. intros e He.
      exact (Hhead rest e Hrest He).
    + inversion Hk; subst. discriminate.
    + inversion Hk; subst. discriminate.
    + destruct (IH k i ev Hk Hs) as (d & st & H1 & H2 & H3 & H4 & H5).
      exists d, st. cbn [app nth_error]. repeat split; assumption.
Qed.

Section Queue.

Context {P : Platform}.
Variable handler : string -> nat -> nat -> M (option LineResult.t).
Variable originalClaudeRequest : value.
Variable tokenEstimator : option TokenEstimator.

(** The handler returns whole triples. *)
Hypothesis handler_triples :
  forall jsonStr ti ci w r w',
    handler jsonStr ti ci w = (Normal (Some r), w') ->
    triples (LineResult.events r).

Lemma on_line_queue (line : string) (s : stream_state) :
  exists t, triples t /\
            enqueued (fst (on_line handler line s)) = enqueued s ++ t.
Proof.
  unfold on_line.
  destruct (negb (nonempty (trim line)) || negb (startsWith line "data: ")).
  { exists []. split; [constructor | symmetry; apply app_nil_r]. }
  destruct (slice 6 line =? "[DONE]")%string.
  { exists []. split; [constructor | symmetry; apply app_nil_r]. }
  destruct (handler (slice 6 line) (textBlockIndex s)
              (toolUseBlockIndex s) (env s)) as [[[r|]|] w] eqn:E.
  - exists (LineResult.events r). split; [|reflexivity].
    exact (handler_triples _ _ _ _ _ _ E).
  - exists []. split; [constructor | symmetry; apply app_nil_r].
  - exists []. split; [constructor | symmetry; apply app_nil_r].
Qed.

Lemma for_lines_queue (lines : list string) :
  forall s, exists t, triples t /\
    enqueued (fst (for_lines handler lines s)) = enqueued s ++ t.
Proof.
  induction lines as [|line rest IH]; intros s.
  { exists []. split; [constructor | symmetry; apply app_nil_r]. }
  cbn [for_lines].
  destruct (on_line_queue line s) as (t1 & Ht1 & E1).
  destruct (on_line handler line s) as [s' [|]]; cbn [fst] in *.
  - exists t1. split; assumption.
  - destruct (IH s') as (t2 & Ht2 & E2).
    exists (t1 ++ t2). split; [apply triples_app; assumption|].
    rewrite E2, E1. symmetry. apply app_assoc.
Qed.

Lemma read_loop_queue (values : list string) :
  forall s, exists t, triples t /\
    enqueued (fst (read_loop handler values s)) = enqueued s ++ t.
Proof.
  induction values as [|v rest IH]; intros s.
  { exists []. split; [constructor | symmetry; apply app_nil_r]. }
  cbn [read_loop]. rewrite on_read_eq.
  destruct (for_lines_queue
              (removelast (split_nl (buffer s ++ v)%string))
              (set_buffer (last (split_nl (buffer s ++ v)%string) "") s))
    as (t1 & Ht1 & E1).
  destruct (for_lines handler _ _) as [s' [|]]; cbn [fst] in *.
  - exists t1. split; assumption.
  - destruct (IH s') as (t2 & Ht2 & E2).
    exists (t1 ++ t2). split; [apply triples_app; assumption|].
    rewrite E2, E1. symmetry. apply app_assoc.
Qed.

Lemma flush_queue (s : stream_state) :
  exists t, triples t /\
            enqueued (fst (flush handler s)) = enqueued s ++ t.
Proof.
  unfold flush. destruct (nonempty (trim (buffer s))).
  2:{ exists []. split; [constructor | symmetry; apply app_nil_r]. }
  destruct (handler (slice 6 (buffer s)) (textBlockIndex s)
              (toolUseBlockIndex s) (env s)) as [[[r|]|] w] eqn:E.
  - exists (LineResult.events r). split; [|reflexivity].
    exact (handler_triples _ _ _ _ _ _ E).
  - exists []. split; [constructor | symmetry; apply app_nil_r].
  - exists []. split; [constructor | symmetry; apply app_nil_r].
Qed.

(** The queue after [finally]: what was there, more triples, and
    [message_stop] unless the handler threw on the remainder. *)
Lemma finally_queue (t0 : try_end) (s : stream_state) :
  let o := finally handler originalClaudeRequest tokenEstimator t0 s in
  exists t, triples t /\
    emitted o =
      enqueued s ++ t ++
      (if flush_threw o then []
       else [message_stop
               (final_usage originalClaudeRequest tokenEstimator
                  (totalOutputTokens (final o)))]) /\
    closed o = negb (flush_threw o) /\
    released o = negb (flush_threw o).
Proof.
  unfold finally, emitted.
  destruct (flush_queue s) as (t & Ht & E).
  destruct (flush handler s) as [s' [|]]; cbn [fst] in E; exists t;
    cbn [final flush_threw closed released negb];
    (split; [exact Ht|]); (split; [|split; reflexivity]).
  - rewrite E, app_nil_r. reflexivity.
  - cbn [sendMessageStop enqueue enqueued totalOutputTokens].
    rewrite E. symmetry. apply app_assoc.
Qed.

(** The queue of a response that has a body. *)
Lemma start_queue (up : upstream) :
  let o := start handler originalClaudeRequest tokenEstimator (Some up) in
  exists t, triples t /\
    emitted o =
      message_start (slice 2 (random36 0)) :: t ++
      (if flush_threw o then []
       else [message_stop
               (final_usage originalClaudeRequest tokenEstimator
                  (totalOutputTokens (final o)))]) /\
    closed o = negb (flush_threw o) /\
    released o = negb (flush_threw o).
Proof.
  unfold start.
  destruct (read_loop_queue (reads up) (sendMessageStart initial_state))
    as (t1 & Ht1 & E1).
  change (enqueued (sendMessageStart initial_state))
    with [message_start (slice 2 (random36 0))] in E1.
  destruct (read_loop handler (reads up) (sendMessageStart initial_state))
    as [s [|]]; cbn [fst] in E1.
  - destruct (finally_queue HandlerThrew s) as (t2 & Ht2 & E2 & Hc & Hr).
    exists (t1 ++ t2). split; [apply triples_app; assumption|].
    split; [|split; assumption].
    rewrite E2, E1. cbn [app]. rewrite <- app_assoc. reflexivity.
  - destruct (finally_queue (if read_fails up then ReadRejected else LoopDone)
                s) as (t2 & Ht2 & E2 & Hc & Hr).
    exists (t1 ++ t2). split; [apply triples_app; assumption|].
    split; [|split; assumption].
    rewrite E2, E1. cbn [app]. rewrite <- app_assoc. reflexivity.
Qed.

End Queue.

(** ** The line handler *)

Section Handler.

Context {P : Platform}.
Variable estimator : TokenEstimator.

Lemma member_cases (v : value) (name : string) (w : world) :
  member v name w = (Abrupt, w) \/
  exists j, v = Some j /\ j <> JNull /\ member v name w = (Normal (get j name), w).
Proof.
  destruct v as [j|]; [|left; reflexivity].
  destruct j; try (right; eexists; repeat split; discriminate).
  left. reflexivity.
Qed.

Lemma tool_fragment_null (l : locals) (w : world) :
  tool_fragment estimator JNull l w = (Abrupt, w).
Proof. reflexivity. Qed.

(** The loop body on a tool call that is not [null], in one step. *)
Lemma tool_fragment_run (toolCall : json) (l : locals) (w : world) :
  toolCall <> JNull ->
  tool_fragment estimator toolCall l w =
  match name_of toolCall, arguments_of toolCall with
  | Some name, Some arguments =>
      if truthy (Some name) && truthy (Some arguments) then
        (Normal
           {| events :=
                events l ++
                [tool_use_block_start (currentToolIndex l)
                   (slice 2 (random36 (draws w))) name;
                 input_json_delta (currentToolIndex l)
                   (JSON_stringify (safeJsonParse arguments));
                 content_block_stop (currentToolIndex l)];
              currentTextIndex := currentTextIndex l;
              currentToolIndex := S (currentToolIndex l) |},
         {| draws := S (draws w);
            accumulatedOutputTokens :=
              accumulatedOutputTokens w + estimate estimator name +
              estimate estimator
                (JStr (JSON_stringify (safeJsonParse arguments))) |})
      else (Normal l, w)
  | _, _ => (Normal l, w)
  end.
Proof.
  intros Hn. unfold tool_fragment, name_of, arguments_of.
  unfold bind at 1.
  destruct (member_cases (Some toolCall) "function" w)
    as [E | (j & Hj & _ & E)].
  - destruct toolCall; try discriminate E. contradiction.
  - inversion Hj; subst j. rewrite E.
    destruct (member_opt (get toolCall "function") "name") as [name|];
      [|reflexivity].
    destruct (member_opt (get toolCall "function") "arguments")
      as [arguments|]; [|reflexivity].
    destruct (truthy (Some name) && truthy (Some arguments));
      reflexivity.
Qed.

(** The effect of one loop body, whatever the tool call. *)
Lemma tool_fragment_post (toolCall : json) (l : locals) (w : world) :
  (nonnegative estimator ->
   tokens_grow w (snd (tool_fragment estimator toolCall l w))) /\
  match fst (tool_fragment estimator toolCall l w) with
  | Normal l' => exists t, triples t /\ events l' = events l ++ t
  | Abrupt => True
  end.
Proof.
  assert (Hsame : (nonnegative estimator -> tokens_grow w w) /\
                  exists t, triples t /\ events l = events l ++ t).
  { split; [intros _; unfold tokens_grow; lia|].
    exists []. split; [constructor | symmetry; apply app_nil_r]. }
  destruct toolCall eqn:Ecall.
  1:{ rewrite tool_fragment_null. split; [apply Hsame | exact I]. }
  all: rewrite tool_fragment_run by discriminate.
  all: destruct (name_of _) as [name|]; [|exact Hsame].
  all: destruct (arguments_of _) as [arguments|]; [|exact Hsame].
  all: destruct (truthy (Some name) && truthy (Some arguments));
    [|exact Hsame].
  all: cbn [fst snd events]; split;
    [ intros Hnn; unfold tokens_grow; cbn [accumulatedOutputTokens];
      pose proof (Hnn name);
      pose proof (Hnn (JStr (JSON_stringify (safeJsonParse arguments))));
      lia
    | eexists; split; [|reflexivity]; apply triples_tool; constructor ].
Qed.

Lemma tool_calls_post (toolCalls : list json) :
  forall l w,
    (nonnegative estimator ->
     tokens_grow w
       (snd (for_of toolCalls (tool_fragment estimator) l w))) /\
    match fst (for_of toolCalls (tool_fragment estimator) l w) with
    | Normal l' => exists t, triples t /\ events l' = events l ++ t
    | Abrupt => True
    end.
Proof.
  induction toolCalls as [|call rest IH]; intros l w.
  - cbn [for_of ret fst snd]. split; [intros _; unfold tokens_grow; lia|].
    exists []. split; [constructor | symmetry; apply app_nil_r].
  - cbn [for_of]. unfold bind.
    destruct (tool_fragment_post call l w) as [Hg Hq].
    destruct (tool_fragment estimator call l w) as [[l1|] w1];
      cbn [fst snd] in *.
    + destruct (IH l1 w1) as [Hg' Hq'].
      split.
      * intros Hnn. specialize (Hg Hnn). specialize (Hg' Hnn).
        unfold tokens_grow in *. lia.
      * destruct (fst (for_of rest (tool_fragment estimator) l1 w1));
          [|exact I].
        destruct Hq as (t1 & Ht1 & E1). destruct Hq' as (t2 & Ht2 & E2).
        exists (t1 ++ t2). split; [apply triples_app; assumption|].
        rewrite E2, E1. symmetry. apply app_assoc.
    + split; [exact Hg | exact I].
Qed.

Lemma on_content_post (content : value) (l : locals) (w : world) :
  exists l1 w1,
    on_content estimator content l w = (Normal l1, w1) /\
    (nonnegative estimator -> tokens_grow w w1) /\
    (truthy content = false -> w1 = w /\ l1 = l) /\
    exists t, triples t /\ events l1 = events l ++ t.
Proof.
  assert (Hsame : exists l1 w1,
             (Normal l, w) = (Normal l1, w1) /\
             (nonnegative estimator -> tokens_grow w w1) /\
             (truthy content = false -> w1 = w /\ l1 = l) /\
             exists t, triples t /\ events l1 = events l ++ t).
  { exists l, w. split; [reflexivity|].
    split; [intros _; unfold tokens_grow; lia|].
    split; [intros _; split; reflexivity|].
    exists []. split; [constructor | symmetry; apply app_nil_r]. }
  unfold on_content. destruct content as [text|]; [|exact Hsame].
  destruct (truthy (Some text)) eqn:Ht; [|exact Hsame].
  eexists. eexists. split; [reflexivity|].
  split; [|split].
  - intros Hnn. unfold tokens_grow. cbn [accumulatedOutputTokens].
    pose proof (Hnn text). lia.
  - intros H. discriminate H.
  - cbn [events]. eexists. split; [|reflexivity].
    apply triples_text. constructor.
Qed.

Lemma on_tool_calls_post (tool_calls : value) (l : locals) (w : world) :
  (nonnegative estimator ->
   tokens_grow w (snd (on_tool_calls estimator tool_calls l w))) /\
  match fst (on_tool_calls estimator tool_calls l w) with
  | Normal l' => exists t, triples t /\ events l' = events l ++ t
  | Abrupt => True
  end.
Proof.
  assert (Hsame : (nonnegative estimator -> tokens_grow w w) /\
                  exists t, triples t /\ events l = events l ++ t).
  { split; [intros _; unfold tokens_grow; lia|].
    exists []. split; [constructor | symmetry; apply app_nil_r]. }
  unfold on_tool_calls. destruct tool_calls as [calls|]; [|exact Hsame].
  destruct (truthy (Some calls)); [|exact Hsame].
  unfold bind.
  destruct calls; cbn [iterate throw ret fst snd];
    try (split; [apply Hsame | exact I]);
    apply tool_calls_post.
Qed.

(** What a call of the handler does: the accumulated count does not go down
    (for an estimator without negative counts); a result carries whole
    triples and the accumulated count; [null] is returned before the state
    is touched. *)
Lemma processLine_post (jsonStr : string) (ti ci : nat) (w : world) :
  (nonnegative estimator ->
   tokens_grow w (snd (processLine estimator jsonStr ti ci w))) /\
  match fst (processLine estimator jsonStr ti ci w) with
  | Normal (Some r) =>
      triples (LineResult.events r) /\
      LineResult.outputTokens r =
        Some (accumulatedOutputTokens
                (snd (processLine estimator jsonStr ti ci w)))
  | Normal None => snd (processLine estimator jsonStr ti ci w) = w
  | Abrupt => True
  end.
Proof.
  assert (Hrefl : nonnegative estimator -> tokens_grow w w)
    by (intros _; unfold tokens_grow; lia).
  remember (processLine estimator jsonStr ti ci w) as R eqn:ER.
  unfold processLine in ER.
  destruct (JSON_parse jsonStr) as [data|];
    [|subst R; split; [exact Hrefl | exact I]].
  unfold bind at 1 in ER.
  destruct (member_cases (Some data) "choices" w) as [E | (x & Hx & _ & E)];
    rewrite E in ER; [subst R; split; [exact Hrefl | exact I]|].
  inversion Hx; subst x. clear E Hx.
  destruct (get data "choices") as [c|];
    [|subst R; split; [exact Hrefl | reflexivity]].
  destruct (negb (truthy (Some c)) || is_zero (get_length c));
    [subst R; split; [exact Hrefl | reflexivity]|].
  unfold bind at 1 in ER.
  destruct (member_cases (get_first c) "delta" w) as [E | (ch & _ & _ & E)];
    rewrite E in ER; [subst R; split; [exact Hrefl | exact I]|]. clear E.
  unfold bind at 1 in ER.
  destruct (member_cases (get ch "delta") "content" w)
    as [E | (d & Hd & Hdn & E)];
    rewrite E in ER; [subst R; split; [exact Hrefl | exact I]|]. clear E.
  unfold bind at 1 in ER.
  destruct (on_content_post (get d "content")
              {| events := []; currentTextIndex := ti;
                 currentToolIndex := ci |} w)
    as (l1 & w1 & E1 & Hg1 & _ & (t1 & Ht1 & Ev1)).
  rewrite E1 in ER. cbn [events app] in Ev1.
  unfold bind at 1 in ER.
  destruct (member_cases (get ch "delta") "tool_calls" w1)
    as [E | (d' & Hd' & _ & E)]; rewrite E in ER.
  { subst R. split; [exact Hg1 | exact I]. }
  clear E. unfold bind at 1 in ER.
  destruct (on_tool_calls_post (get d' "tool_calls") l1 w1) as [Hg2 Hq2].
  destruct (on_tool_calls estimator (get d' "tool_calls") l1 w1)
    as [[l2|] w2]; cbn [fst snd] in *; subst R;
    unfold bind, read_tokens, ret; cbn [fst snd].
  - split.
    + intros Hnn. specialize (Hg1 Hnn). specialize (Hg2 Hnn).
      unfold tokens_grow in *. lia.
    + split; [|reflexivity].
      destruct Hq2 as (t2 & Ht2 & Ev2). cbn [LineResult.events].
      rewrite Ev2, Ev1. apply triples_app; assumption.
  - split; [|exact I].
    intros Hnn. specialize (Hg1 Hnn). specialize (Hg2 Hnn).
    unfold tokens_grow in *. lia.
Qed.

Lemma processLine_triples (jsonStr : string) (ti ci : nat) (w : world)
  (r : LineResult.t) (w' : world) :
  processLine estimator jsonStr ti ci w = (Normal (Some r), w') ->
  triples (LineResult.events r).
Proof.
  intros E. pose proof (processLine_post jsonStr ti ci w) as [_ H].
  rewrite E in H. apply H.
Qed.

End Handler.

(** ** The running total of output tokens *)

Section Totals.

Context {P : Platform}.
Variable estimator : TokenEstimator.
Hypothesis estimator_nonnegative : nonnegative estimator.

Let handler := processLine estimator.

Lemma take_tokens_below (n total : Z) :
  (total <= n)%Z ->
  (total <= take_tokens (Some n) total <= n)%Z.
Proof.
  intros H. unfold take_tokens. destruct (n =? 0)%Z; lia.
Qed.

Lemma on_line_total (line : string) (s : stream_state) :
  below s ->
  below (fst (on_line handler line s)) /\
  (totalOutputTokens s <= totalOutputTokens (fst (on_line handler line s)))%Z.
Proof.
  intros Hb. unfold on_line.
  destruct (negb (nonempty (trim line)) || negb (startsWith line "data: "));
    [split; [exact Hb | cbn [fst]; lia]|].
  destruct (slice 6 line =? "[DONE]")%string;
    [split; [exact Hb | cbn [fst]; lia]|].
  pose proof (processLine_post estimator (slice 6 line) (textBlockIndex s)
                (toolUseBlockIndex s) (env s)) as [Hg Hq].
  specialize (Hg estimator_nonnegative). fold handler in Hg, Hq.
  unfold below, tokens_grow in *.
  destruct (handler (slice 6 line) (textBlockIndex s) (toolUseBlockIndex s)
              (env s)) as [[[r|]|] w]; cbn [fst snd] in *;
    cbn [totalOutputTokens env set_env].
  - destruct Hq as [_ Ho]. rewrite Ho.
    pose proof (take_tokens_below (accumulatedOutputTokens w)
                  (totalOutputTokens s)). lia.
  - lia.
  - lia.
Qed.

Lemma for_lines_total (lines : list string) :
  forall s,
    below s ->
    below (fst (for_lines handler lines s)) /\
    (totalOutputTokens s
     <= totalOutputTokens (fst (for_lines handler lines s)))%Z.
Proof.
  induction lines as [|line rest IH]; intros s Hb.
  - split; [exact Hb | cbn [for_lines fst]; lia].
  - cbn [for_lines]. destruct (on_line_total line s Hb) as [Hb1 Hm1].
    destruct (on_line handler line s) as [s' [|]]; cbn [fst] in *.
    + split; assumption.
    + destruct (IH s' Hb1) as [Hb2 Hm2]. split; [exact Hb2 | lia].
Qed.

Lemma read_loop_total (values : list string) :
  forall s,
    below s ->
    below (fst (read_loop handler values s)) /\
    (totalOutputTokens s
     <= totalOutputTokens (fst (read_loop handler values s)))%Z.
Proof.
  induction values as [|v rest IH]; intros s Hb.
  - split; [exact Hb | cbn [read_loop fst]; lia].
  - cbn [read_loop]. rewrite on_read_eq.
    destruct (for_lines_total
                (removelast (split_nl (buffer s ++ v)%string))
                (set_buffer (last (split_nl (buffer s ++ v)%string) "") s) Hb)
      as [Hb1 Hm1].
    cbn [totalOutputTokens set_buffer] in Hm1.
    destruct (for_lines handler _ _) as [s' [|]]; cbn [fst] in *.
    + split; assumption.
    + destruct (IH s' Hb1) as [Hb2 Hm2]. split; [exact Hb2 | lia].
Qed.

Lemma flush_total (s : stream_state) :
  below s ->
  (totalOutputTokens s <= totalOutputTokens (fst (flush handler s)))%Z.
Proof.
  intros Hb. unfold flush.
  destruct (nonempty (trim (buffer s))); [|cbn [fst]; lia].
  pose proof (processLine_post estimator (slice 6 (buffer s))
                (textBlockIndex s) (toolUseBlockIndex s) (env s))
    as [Hg Hq].
  specialize (Hg estimator_nonnegative). fold handler in Hg, Hq.
  unfold below, tokens_grow in *.
  destruct (handler (slice 6 (buffer s)) (textBlockIndex s)
              (toolUseBlockIndex s) (env s)) as [[[r|]|] w];
    cbn [fst snd] in *; cbn [totalOutputTokens env set_env].
  - destruct Hq as [_ Ho]. rewrite Ho.
    pose proof (take_tokens_below (accumulatedOutputTokens w)
                  (totalOutputTokens s)). lia.
  - lia.
  - lia.
Qed.

Lemma read_loop_app (v1 v2 : list string) :
  forall s,
    read_loop handler (v1 ++ v2) s =
    match read_loop handler v1 s with
    | (s', true) => (s', true)
    | (s', false) => read_loop handler v2 s'
    end.
Proof.
  induction v1 as [|v rest IH]; intros s; [reflexivity|].
  cbn [app read_loop].
  destruct (on_read handler v s) as [s' [|]]; [reflexivity | apply IH].
Qed.

Lemma below_start : below (sendMessageStart initial_state).
Proof. unfold below. cbn. lia. Qed.

(** The running total after a prefix of the reads is not above the total
    after all of them, which is not above the total when [start] ends. *)
Lemma totals_grow (req : value) (te : option TokenEstimator)
  (v1 v2 : list string) (fails : bool) :
  let s0 := sendMessageStart initial_state in
  let o := start handler req te
             (Some {| reads := v1 ++ v2; read_fails := fails |}) in
  (0 <= totalOutputTokens (fst (read_loop handler v1 s0))
     <= totalOutputTokens (fst (read_loop handler (v1 ++ v2) s0)))%Z /\
  (totalOutputTokens (fst (read_loop handler (v1 ++ v2) s0))
     <= totalOutputTokens (final o))%Z.
Proof.
  cbn zeta.
  destruct (read_loop_total v1 _ below_start) as [Hb1 Hm1].
  change (totalOutputTokens (sendMessageStart initial_state)) with 0%Z in Hm1.
  split.
  - split; [exact Hm1|].
    rewrite read_loop_app.
    destruct (read_loop handler v1 (sendMessageStart initial_state))
      as [s1 [|]]; cbn [fst] in *; [lia|].
    apply read_loop_total. exact Hb1.
  - unfold start. cbn [reads read_fails].
    destruct (read_loop_total (v1 ++ v2) _ below_start) as [Hb2 _].
    destruct (read_loop handler (v1 ++ v2) (sendMessageStart initial_state))
      as [s2 [|]]; cbn [fst] in *.
    all: unfold finally; pose proof (flush_total s2 Hb2) as Hf.
    all: destruct (flush handler s2) as [s3 [|]]; cbn [fst] in Hf;
      cbn [final sendMessageStop enqueue totalOutputTokens]; exact Hf.
Qed.

(** Without an exception from the handler, the running total is the
    handler's count. *)
Lemma on_line_level (line : string) (s : stream_state) :
  level s ->
  snd (on_line handler line s) = false ->
  level (fst (on_line handler line s)).
Proof.
  intros Hl. unfold on_line.
  destruct (negb (nonempty (trim line)) || negb (startsWith line "data: "));
    [intros _; exact Hl|].
  destruct (slice 6 line =? "[DONE]")%string; [intros _; exact Hl|].
  pose proof (processLine_post estimator (slice 6 line) (textBlockIndex s)
                (toolUseBlockIndex s) (env s)) as [Hg Hq].
  specialize (Hg estimator_nonnegative). fold handler in Hg, Hq.
  unfold level, tokens_grow in *.
  destruct (handler (slice 6 line) (textBlockIndex s) (toolUseBlockIndex s)
              (env s)) as [[[r|]|] w]; cbn [fst snd] in *;
    cbn [totalOutputTokens env set_env]; intros Hs.
  - destruct Hq as [_ Ho]. rewrite Ho. unfold take_tokens.
    destruct (accumulatedOutputTokens w =? 0)%Z eqn:Ez; [|lia].
    apply Z.eqb_eq in Ez. lia.
  - subst w. exact Hl.
  - discriminate Hs.
Qed.

Lemma for_lines_level (lines : list string) :
  forall s,
    level s ->
    snd (for_lines handler lines s) = false ->
    level (fst (for_lines handler lines s)).
Proof.
  induction lines as [|line rest IH]; intros s Hl Hs; [exact Hl|].
  cbn [for_lines] in *. pose proof (on_line_level line s Hl) as H1.
  destruct (on_line handler line s) as [s' [|]]; cbn [fst snd] in *;
    [discriminate Hs|].
  apply IH; [apply H1; reflexivity | exact Hs].
Qed.

Lemma read_loop_level (values : list string) :
  forall s,
    level s ->
    snd (read_loop handler values s) = false ->
    level (fst (read_loop handler values s)).
Proof.
  induction values as [|v rest IH]; intros s Hl Hs; [exact Hl|].
  cbn [read_loop] in *. rewrite on_read_eq in *.
  pose proof (for_lines_level
                (removelast (split_nl (buffer s ++ v)%string))
                (set_buffer (last (split_nl (buffer s ++ v)%string) "") s) Hl)
    as H1.
  destruct (for_lines handler _ _) as [s' [|]]; cbn [fst snd] in *;
    [discriminate Hs|].
  apply IH; [apply H1; reflexivity | exact Hs].
Qed.

Lemma flush_level (s : stream_state) :
  level s ->
  snd (flush handler s) = false ->
  level (fst (flush handler s)).
Proof.
  intros Hl. unfold flush.
  destruct (nonempty (trim (buffer s))); [|intros _; exact Hl].
  pose proof (processLine_post estimator (slice 6 (buffer s))
                (textBlockIndex s) (toolUseBlockIndex s) (env s))
    as [Hg Hq].
  specialize (Hg estimator_nonnegative). fold handler in Hg, Hq.
  unfold level, tokens_grow in *.
  destruct (handler (slice 6 (buffer s)) (textBlockIndex s)
              (toolUseBlockIndex s) (env s)) as [[[r|]|] w];
    cbn [fst snd] in *; cbn [totalOutputTokens env set_env]; intros Hs.
  - destruct Hq as [_ Ho]. rewrite Ho. unfold take_tokens.
    destruct (accumulatedOutputTokens w =? 0)%Z eqn:Ez; [|lia].
    apply Z.eqb_eq in Ez. lia.
  - subst w. exact Hl.
  - discriminate Hs.
Qed.

Lemma level_start : level (sendMessageStart initial_state).
Proof. unfold level. cbn. split; [reflexivity | lia]. Qed.

Lemma start_level (req : value) (te : option TokenEstimator)
  (up : upstream) :
  let o := start handler req te (Some up) in
  try_exit o <> HandlerThrew ->
  flush_threw o = false ->
  level (final o).
Proof.
  cbn zeta. unfold start.
  pose proof (read_loop_level (reads up) _ level_start) as H1.
  destruct (read_loop handler (reads up) (sendMessageStart initial_state))
    as [s [|]]; cbn [fst snd] in H1.
  - intros H. exfalso. apply H. apply try_exit_finally.
  - intros _. specialize (H1 eq_refl). unfold finally.
    pose proof (flush_level s H1) as H2.
    destruct (flush handler s) as [s' [|]]; cbn [fst snd] in H2;
      cbn [flush_threw final]; intros Hf; [discriminate Hf|].
    exact (H2 eq_refl).
Qed.

End Totals.

(** ** The request does not steer the stream *)

Lemma start_request_irrelevant {P : Platform}
  (handler : string -> nat -> nat -> M (option LineResult.t))
  (te : option TokenEstimator) (req1 req2 : value) (up : upstream) :
  let o1 := start handler req1 te (Some up) in
  let o2 := start handler req2 te (Some up) in
  flush_threw o1 = flush_threw o2 /\
  closed o1 = closed o2 /\
  try_exit o1 = try_exit o2 /\
  totalOutputTokens (final o1) = totalOutputTokens (final o2) /\
  exists before,
    emitted o1 =
      before ++
      (if flush_threw o1 then []
       else [message_stop
               (final_usage req1 te (totalOutputTokens (final o1)))]) /\
    emitted o2 =
      before ++
      (if flush_threw o1 then []
       else [message_stop
               (final_usage req2 te (totalOutputTokens (final o1)))]).
Proof.
  cbn zeta. unfold start.
  destruct (read_loop handler (reads up) (sendMessageStart initial_state))
    as [s [|]]; unfold finally, emitted;
    destruct (flush handler s) as [s' [|]];
    cbn [final flush_threw closed try_exit sendMessageStop enqueue enqueued
         totalOutputTokens];
    repeat (split; [reflexivity|]);
    exists (enqueued s'); split; try reflexivity;
    symmetry; apply app_nil_r.
Qed.

(* ================================================================= *)
(** * The claims *)

(** C10.  A response that advertises an event stream and has no body: the
    conversion takes the streaming path, and the outbound stream is closed
    with nothing enqueued, neither [message_start] nor [message_stop] nor
    any block event; no exception leaves [start]. *)
Theorem missing_body_emits_nothing {P : Platform}
  (estimator : TokenEstimator) (r : Response) (req : value) (ct : string) :
  ok r = true ->
  content_type r = Some ct ->
  includes ct "text/event-stream" = true ->
  body r = None ->
  exists o,
    convertToClaudeResponse estimator r req = Streamed (status r) o /\
    emitted o = [] /\
    closed o = true /\
    rejected o = false.
Proof.
  intros Hok Hct Hinc Hbody.
  unfold convertToClaudeResponse. rewrite Hok, Hct, Hbody.
  cbn [negb or_empty]. rewrite Hinc.
  eexists. split; [reflexivity|]. repeat split.
Qed.

Lemma missing_body_emits_nothing_witness :
  let r := {| ok := true; status := 200;
              content_type := Some "text/event-stream; charset=utf-8";
              body := None |} in
  ok r = true /\
  content_type r = Some "text/event-stream; charset=utf-8" /\
  includes "text/event-stream; charset=utf-8" "text/event-stream" = true /\
  body r = None /\
  exists o,
    @convertToClaudeResponse Sample.platform Sample.estimator r None
      = Streamed (status r) o /\
    emitted o = [] /\ closed o = true /\ rejected o = false.
Proof.
  cbn zeta. repeat (split; [reflexivity|]).
  apply (@missing_body_emits_nothing Sample.platform Sample.estimator
           _ None "text/event-stream; charset=utf-8"); reflexivity.
Defined.

(** C4.  In the queue of any stream, a [content_block_start] with index
    [i] at position [k] has a [content_block_delta] with index [i] at
    [k+1] and a [content_block_stop] with index [i] at [k+2]; what comes
    at [k+3], if anything, starts another block or ends the message, so
    the block has exactly one delta and one stop and nothing of another
    block in between. *)
Theorem block_start_then_delta_then_stop {P : Platform}
  (estimator : TokenEstimator) (req : value) (body : option upstream)
  (k i : nat) (ev : event) :
  let q := emitted (convertStreamResponse estimator req body) in
  nth_error q k = Some ev ->
  is_block_start i ev = true ->
  exists d st,
    nth_error q (S k) = Some d /\ is_block_delta i d = true /\
    nth_error q (S (S k)) = Some st /\ is_block_stop i st = true /\
    forall e, nth_error q (S (S (S k))) = Some e -> opens_or_ends e = true.
Proof.
  cbn zeta. unfold convertStreamResponse.
  destruct body as [up|].
  2:{ cbn. destruct k; discriminate. }
  destruct (start_queue (processLine estimator) req (Some estimator)
              (processLine_triples estimator) up)
    as (t & Ht & E & _ & _).
  rewrite E. intros Hk Hs.
  destruct k as [|k]; [inversion Hk; subst; discriminate Hs|].
  cbn [nth_error] in *.
  apply (triples_nth t _ Ht) with (ev := ev); try assumption.
  intros e He.
  destruct (flush_threw _); [contradiction|].
  destruct He as [<-|[]]. split; [reflexivity | intros j; reflexivity].
Qed.

(** C3, amended.  When the response has a body, the queue starts with
    [message_start] and holds no other [message_start]; when the
    end-of-stream remainder is handled without an exception, the rest of
    the queue is block events only and then one [message_stop], whose
    usage, if any, carries the running total; and with an estimator that
    returns no negative count, the running total after a prefix of the
    reads is at least [0], not above the total after more reads, which is
    not above the final total. *)
Theorem message_start_first_message_stop_last {P : Platform}
  (estimator : TokenEstimator) (req : value) (up : upstream) :
  let o := convertStreamResponse estimator req (Some up) in
  exists id rest,
    emitted o = message_start id :: rest /\
    Forall (fun ev => is_message_start ev = false) rest /\
    (flush_threw o = false ->
     exists blocks usage,
       rest = blocks ++ [message_stop usage] /\
       Forall (fun ev => is_block_event ev = true) blocks /\
       forall input output,
         usage = Some (input, output) ->
         output = totalOutputTokens (final o)) /\
    (nonnegative estimator ->
     forall v1 v2,
       reads up = v1 ++ v2 ->
       (0 <= running_total estimator v1
          <= running_total estimator (v1 ++ v2))%Z /\
       (running_total estimator (v1 ++ v2)
          <= totalOutputTokens (final o))%Z).
Proof.
  cbn zeta. unfold convertStreamResponse.
  destruct (start_queue (processLine estimator) req (Some estimator)
              (processLine_triples estimator) up)
    as (t & Ht & E & _ & _).
  pose proof (triples_block_events t Ht) as Hblocks.
  eexists. eexists. split; [exact E|].
  split; [|split].
  - apply Forall_app. split.
    + apply Forall_impl with (2 := Hblocks).
      intros ev Hev. unfold is_block_event in Hev.
      apply andb_true_iff in Hev. destruct Hev as [Hev _].
      apply negb_true_iff in Hev. exact Hev.
    + destruct (flush_threw _); repeat constructor.
  - intros Hf. rewrite Hf. exists t. eexists.
    split; [reflexivity|]. split; [exact Hblocks|].
    unfold final_usage. intros input output H.
    destruct (truthy req); [|discriminate H].
    inversion H. reflexivity.
  - intros Hnn v1 v2 Hv. destruct up as [values fails]. cbn [reads] in Hv.
    subst values.
    exact (totals_grow estimator Hnn req (Some estimator) v1 v2 fails).
Qed.

Lemma block_start_then_delta_then_stop_witness :
  let q := emitted (Sample.run None
                      [("data: " ++ Sample.mixed_json ++ NL)%string]) in
  nth_error q 4 = Some (tool_use_block_start 0 "id1" (JStr "lookup")) /\
  is_block_start 0 (tool_use_block_start 0 "id1" (JStr "lookup")) = true /\
  exists d st,
    nth_error q 5 = Some d /\ is_block_delta 0 d = true /\
    nth_error q 6 = Some st /\ is_block_stop 0 st = true /\
    forall e, nth_error q 7 = Some e -> opens_or_ends e = true.
Proof.
  cbn zeta. split; [vm_compute; reflexivity|]. split; [reflexivity|].
  apply (@block_start_then_delta_then_stop Sample.platform Sample.estimator
           None
           (Sample.body_of [("data: " ++ Sample.mixed_json ++ NL)%string])
           4 0 (tool_use_block_start 0 "id1" (JStr "lookup")));
    vm_compute; reflexivity.
Defined.

Lemma sample_estimator_nonnegative : nonnegative Sample.estimator.
Proof.
  intros v. unfold Sample.estimator, Sample.count. cbn [estimate].
  apply Nat2Z.is_nonneg.
Defined.

Lemma message_start_first_message_stop_last_witness :
  let v1 := [(Sample.hi_line ++ NL)%string] in
  let v2 := [(Sample.a_line ++ NL)%string] in
  let up := {| reads := v1 ++ v2; read_fails := false |} in
  let o := @convertStreamResponse Sample.platform Sample.estimator
             Sample.request (Some up) in
  nonnegative Sample.estimator /\
  reads up = v1 ++ v2 /\
  flush_threw o = false /\
  emitted o =
    [message_start "id0";
     text_block_start 0; text_delta 0 (JStr "Hi"); content_block_stop 0;
     text_block_start 1; text_delta 1 (JStr "A"); content_block_stop 1;
     message_stop (Some (9, 2)%Z)] /\
  (0 <= @running_total Sample.platform Sample.estimator v1
     <= @running_total Sample.platform Sample.estimator (v1 ++ v2))%Z /\
  (@running_total Sample.platform Sample.estimator (v1 ++ v2)
     <= totalOutputTokens (final o))%Z.
Proof.
  cbn zeta. split; [exact sample_estimator_nonnegative|].
  split; [reflexivity|]. split; [vm_compute; reflexivity|].
  split; [vm_compute; reflexivity|].
  destruct (@message_start_first_message_stop_last Sample.platform
              Sample.estimator Sample.request
              {| reads := [(Sample.hi_line ++ NL)%string] ++
                          [(Sample.a_line ++ NL)%string];
                 read_fails := false |})
    as (id & rest & _ & _ & _ & H).
  exact (H sample_estimator_nonnegative _ _ eq_refl).
Defined.

(** C3 as stated fails: a response without a body gets no [message_start]
    (and no [message_stop]), and a stream cut in the middle of a record
    gets no [message_stop]. *)
Lemma message_start_or_message_stop_missing :
  emitted (@convertStreamResponse Sample.platform Sample.estimator
             None None) = [] /\
  emitted (Sample.run None [Sample.truncated_line])
    = [message_start "id0"] /\
  closed (Sample.run None [Sample.truncated_line]) = false.
Proof. vm_compute. repeat split. Qed.

(** C6.  When the response has a body, the queue ends with [message_stop]
    unless the handler threw on the end-of-stream remainder; that
    [message_stop] is the only one, and its usage is: with a (truthy)
    original request, [input_tokens] the estimator's [estimateMessages] of
    the request's messages and [output_tokens] the running total; without
    one, none.  Whether the stream is closed does not depend on the
    request.  With an estimator that returns no negative count and no
    exception from the handler, the running total is the handler's
    accumulated count. *)
Theorem message_stop_carries_usage {P : Platform}
  (estimator : TokenEstimator) (req : value) (up : upstream) :
  let o := convertStreamResponse estimator req (Some up) in
  let o_none := convertStreamResponse estimator None (Some up) in
  let usage :=
    if truthy req
    then Some (estimateMessages estimator (member_opt req "messages"),
               totalOutputTokens (final o))
    else None in
  exists before,
    Forall (fun ev => is_message_stop ev = false) before /\
    emitted o =
      before ++ (if flush_threw o then [] else [message_stop usage]) /\
    emitted o_none =
      before ++ (if flush_threw o then [] else [message_stop None]) /\
    closed o = negb (flush_threw o) /\
    closed o_none = closed o /\
    (nonnegative estimator ->
     try_exit o <> HandlerThrew ->
     flush_threw o = false ->
     totalOutputTokens (final o)
       = accumulatedOutputTokens (env (final o))).
Proof.
  cbn zeta. unfold convertStreamResponse.
  destruct (start_queue (processLine estimator) req (Some estimator)
              (processLine_triples estimator) up)
    as (t & Ht & E & Hc & _).
  destruct (start_request_irrelevant (processLine estimator)
              (Some estimator) req None up)
    as (Hf & Hcl & _ & _ & before & E1 & E2).
  cbn zeta in Hf, Hcl.
  assert (Hb : before = message_start (slice 2 (random36 0)) :: t).
  { rewrite E1 in E. rewrite app_comm_cons in E.
    apply app_inv_tail in E. exact E. }
  exists before.
  split.
  { rewrite Hb. constructor; [reflexivity|].
    apply Forall_impl with (2 := triples_block_events t Ht).
    intros ev Hev. unfold is_block_event in Hev.
    apply andb_true_iff in Hev. destruct Hev as [_ Hev].
    apply negb_true_iff in Hev. exact Hev. }
  split; [exact E1|].
  split; [exact E2|].
  split; [exact Hc|].
  split; [symmetry; exact Hcl|].
  intros Hnn Ht0 Hfl.
  exact (proj1 (start_level estimator Hnn req (Some estimator) up Ht0 Hfl)).
Qed.

Lemma message_stop_carries_usage_witness :
  let up := {| reads := [("data: " ++ Sample.mixed_json ++ NL)%string];
               read_fails := false |} in
  let o := @convertStreamResponse Sample.platform Sample.estimator
             Sample.request (Some up) in
  nonnegative Sample.estimator /\
  try_exit o <> HandlerThrew /\
  flush_threw o = false /\
  totalOutputTokens (final o) = accumulatedOutputTokens (env (final o)) /\
  last (emitted o) (message_start "") = message_stop (Some (9, 6)%Z).
Proof.
  cbn zeta. split; [exact sample_estimator_nonnegative|].
  split; [vm_compute; discriminate|]. split; [vm_compute; reflexivity|].
  destruct (@message_stop_carries_usage Sample.platform Sample.estimator
              Sample.request
              {| reads := [("data: " ++ Sample.mixed_json ++ NL)%string];
                 read_fails := false |})
    as (before & _ & E & _ & _ & _ & H).
  split.
  - apply H; [exact sample_estimator_nonnegative | vm_compute; discriminate
              | vm_compute; reflexivity].
  - vm_compute. reflexivity.
Defined.




(** C2, amended.  For any reads of a body, if handling the joined text as
    one read does not end with an exception from the handler inside the
    loop, the outcome of the stream, and so the sequence of its block
    events, is that of the joined text read at once. *)
Theorem chunking_keeps_the_events {P : Platform}
  (estimator : TokenEstimator) (req : value) (values : list string)
  (fails : bool) :
  let whole :=
    convertStreamResponse estimator req
      (Some {| reads := [joined values]; read_fails := fails |}) in
  let chunked :=
    convertStreamResponse estimator req
      (Some {| reads := values; read_fails := fails |}) in
  try_exit whole <> HandlerThrew ->
  chunked = whole /\
  block_events (emitted chunked) = block_events (emitted whole).
Proof.
  cbn zeta. intros H.
  assert (E : convertStreamResponse estimator req
                (Some {| reads := values; read_fails := fails |}) =
              convertStreamResponse estimator req
                (Some {| reads := [joined values]; read_fails := fails |})).
  { unfold convertStreamResponse. apply start_joined. exact H. }
  split; [exact E | rewrite E; reflexivity].
Qed.

Lemma chunking_keeps_the_events_witness :
  let values := Sample.one_by_one (Sample.hi_line ++ NL)%string in
  let whole := Sample.run None [joined values] in
  try_exit whole <> HandlerThrew /\
  List.length values = 47 /\
  Sample.run None values = whole /\
  block_events (emitted (Sample.run None values))
    = [text_block_start 0; text_delta 0 (JStr "Hi"); content_block_stop 0].
Proof.
  cbn zeta.
  assert (H : try_exit
                (Sample.run None
                   [joined (Sample.one_by_one (Sample.hi_line ++ NL)%string)])
              <> HandlerThrew) by (vm_compute; discriminate).
  split; [exact H|]. split; [vm_compute; reflexivity|].
  destruct (@chunking_keeps_the_events Sample.platform Sample.estimator None
              (Sample.one_by_one (Sample.hi_line ++ NL)%string) false H)
    as [E B].
  split; [exact E|].
  unfold Sample.run, Sample.body_of. rewrite B. vm_compute. reflexivity.
Defined.

(** C2 as stated fails: with a record that is not valid JSON, the same
    text read in two pieces and read at once gives different block
    events. *)
Lemma chunking_changes_the_events :
  let first := (Sample.bad_line ++ NL)%string in
  let second := (Sample.a_line ++ NL ++ Sample.b_line)%string in
  block_events (emitted (Sample.run None [first; second])) = [] /\
  block_events (emitted (Sample.run None [joined [first; second]]))
    = [text_block_start 0; text_delta 0 (JStr "B"); content_block_stop 0].
Proof. vm_compute. split; reflexivity. Qed.

(** C5, on the code: the remainder left at the end of the stream is not
    handled by the rule of the lines inside the loop.  The sentinel as a
    complete line is discarded; left as remainder it is handed to the
    handler, which throws, so that [message_stop] is not enqueued and the
    stream is not closed.  A line without the data marker is skipped
    inside the loop; left as remainder it loses its first six characters
    and the rest is handled as a record. *)
Theorem remainder_is_not_checked_like_a_line :
  emitted (Sample.run None [(Sample.done_line ++ NL)%string])
    = [message_start "id0"; message_stop None] /\
  emitted (Sample.run None [Sample.done_line]) = [message_start "id0"] /\
  closed (Sample.run None [Sample.done_line]) = false /\
  emitted (Sample.run None [(Sample.unmarked_line ++ NL)%string])
    = [message_start "id0"; message_stop None] /\
  emitted (Sample.run None [Sample.unmarked_line])
    = [message_start "id0"; text_block_start 0; text_delta 0 (JStr "A");
       content_block_stop 0; message_stop None].
Proof. vm_compute. repeat split. Qed.

Lemma get_not_null (j : json) (name : string) (v : json) :
  get j name = Some v -> j <> JNull.
Proof. intros H E. subst j. discriminate H. Qed.

Lemma member_get (j : json) (name : string) (v : json) (w : world) :
  get j name = Some v -> member (Some j) name w = (Normal (Some v), w).
Proof.
  intros H. destruct j; try discriminate H. cbn [member ret].
  rewrite H. reflexivity.
Qed.

Lemma member_opt_get (j : json) (name : string) (v : json) :
  get j name = Some v -> member_opt (Some j) name = Some v.
Proof.
  intros H. destruct j; try discriminate H. exact H.
Qed.

(** C8.  A tool-call fragment whose function name or function arguments
    are missing (or otherwise falsy) is skipped: the loop body returns
    with the events, the indexes, the accumulated count and the
    identifier draws as they were, and the loop goes on.  Conversely, a
    loop body that returns with more events or another count had both the
    name and the arguments present, and added exactly one tool-use triple
    and the two estimates. *)
Theorem tool_fragment_needs_name_and_arguments {P : Platform}
  (estimator : TokenEstimator) (toolCall : json) (rest : list json)
  (l : locals) (w : world) :
  (toolCall <> JNull ->
   name_of toolCall = None \/ arguments_of toolCall = None \/
   truthy (name_of toolCall) = false \/
   truthy (arguments_of toolCall) = false ->
   tool_fragment estimator toolCall l w = (Normal l, w) /\
   for_of (toolCall :: rest) (tool_fragment estimator) l w =
   for_of rest (tool_fragment estimator) l w) /\
  (forall l' w',
      tool_fragment estimator toolCall l w = (Normal l', w') ->
      events l' <> events l \/
      accumulatedOutputTokens w' <> accumulatedOutputTokens w ->
      exists name arguments,
        name_of toolCall = Some name /\
        arguments_of toolCall = Some arguments /\
        events l' =
          events l ++
          [tool_use_block_start (currentToolIndex l)
             (slice 2 (random36 (draws w))) name;
           input_json_delta (currentToolIndex l)
             (JSON_stringify (safeJsonParse arguments));
           content_block_stop (currentToolIndex l)] /\
        accumulatedOutputTokens w' =
          (accumulatedOutputTokens w + estimate estimator name +
           estimate estimator
             (JStr (JSON_stringify (safeJsonParse arguments))))%Z).
Proof.
  split.
  - intros Hn Hmiss.
    assert (E : tool_fragment estimator toolCall l w = (Normal l, w)).
    { rewrite (tool_fragment_run estimator toolCall l w Hn).
      destruct (name_of toolCall) as [name|]; [|reflexivity].
      destruct (arguments_of toolCall) as [arguments|]; [|reflexivity].
      destruct Hmiss as [H|[H|[H|H]]]; try discriminate H.
      - rewrite H. reflexivity.
      - rewrite H, andb_false_r. reflexivity. }
    split; [exact E|]. cbn [for_of]. unfold bind. rewrite E. reflexivity.
  - intros l' w' E Hchanged.
    assert (Hn : toolCall <> JNull).
    { intros ->. rewrite tool_fragment_null in E. discriminate E. }
    rewrite (tool_fragment_run estimator toolCall l w Hn) in E.
    destruct (name_of toolCall) as [name|];
      [|inversion E; subst; destruct Hchanged; contradiction].
    destruct (arguments_of toolCall) as [arguments|];
      [|inversion E; subst; destruct Hchanged; contradiction].
    destruct (truthy (Some name) && truthy (Some arguments));
      [|inversion E; subst; destruct Hchanged; contradiction].
    inversion E; subst. exists name, arguments.
    repeat split.
Qed.

Lemma tool_fragment_needs_name_and_arguments_witness :
  let nameless := JObj [("function",
                          JObj [("arguments", JStr "{}")])] in
  let l := {| events := []; currentTextIndex := 0; currentToolIndex := 0 |} in
  let w := {| draws := 1; accumulatedOutputTokens := 0 |} in
  nameless <> JNull /\
  name_of nameless = None /\
  @tool_fragment Sample.platform Sample.estimator nameless l w
    = (Normal l, w) /\
  events (match fst (@tool_fragment Sample.platform Sample.estimator
                       (Sample.lookup_call "{}") l w) with
          | Normal l' => l'
          | Abrupt => l
          end)
    = [tool_use_block_start 0 "id1" (JStr "lookup");
       input_json_delta 0 "{}"; content_block_stop 0].
Proof.
  cbn zeta. split; [discriminate|]. split; [reflexivity|].
  split.
  - apply (@tool_fragment_needs_name_and_arguments Sample.platform
             Sample.estimator
             (JObj [("function", JObj [("arguments", JStr "{}")])]) []).
    + discriminate.
    + left. reflexivity.
  - vm_compute. reflexivity.
Defined.

Lemma trim_nonblank (c : ascii) (r : string) :
  is_ws c = false -> nonempty (trim (String c r)) = true.
Proof.
  intros H. unfold trim. cbn [trimStart]. rewrite H. cbn [trimEnd].
  destruct (trimEnd r); [rewrite H|]; reflexivity.
Qed.

(** The handler on a record that carries a text fragment and one
    actionable tool call. *)
Lemma processLine_mixed {P : Platform} (estimator : TokenEstimator)
  (jsonStr : string) (data choice : json) (others : list json)
  (delta text call fn name arguments : json) (ti ci : nat) (w : world) :
  JSON_parse jsonStr = Some data ->
  get data "choices" = Some (JArr (choice :: others)) ->
  get choice "delta" = Some delta ->
  get delta "content" = Some text ->
  truthy (Some text) = true ->
  get delta "tool_calls" = Some (JArr [call]) ->
  get call "function" = Some fn ->
  get fn "name" = Some name ->
  truthy (Some name) = true ->
  get fn "arguments" = Some arguments ->
  truthy (Some arguments) = true ->
  exists tokens w',
    processLine estimator jsonStr ti ci w =
    (Normal
       (Some {| LineResult.events :=
                  [text_block_start ti; text_delta ti text;
                   content_block_stop ti;
                   tool_use_block_start ci (slice 2 (random36 (draws w)))
                     name;
                   input_json_delta ci
                     (JSON_stringify (safeJsonParse arguments));
                   content_block_stop ci];
                LineResult.textBlockIndex := S ti;
                LineResult.toolUseBlockIndex := S ci;
                LineResult.outputTokens := Some tokens |}), w').
Proof.
  intros Hparse Hchoices Hdelta Hcontent Htext Hcalls Hfn Hname Htn Hargs
         Hta.
  unfold processLine. rewrite Hparse.
  unfold bind at 1. rewrite (member_get _ _ _ w Hchoices).
  cbn [truthy negb orb get_length is_zero JNat List.length].
  replace (Z.of_nat (S (List.length others)) =? 0)%Z with false
    by (symmetry; apply Z.eqb_neq; lia).
  cbn [get_first nth_error].
  unfold bind at 1. rewrite (member_get _ _ _ w Hdelta).
  unfold bind at 1. rewrite (member_get _ _ _ w Hcontent).
  unfold bind at 1. unfold on_content. rewrite Htext.
  unfold text_fragment at 1. unfold bind at 1. cbn [add_tokens ret].
  unfold bind at 1. rewrite (member_get _ _ _ _ Hcalls).
  unfold bind at 1. unfold on_tool_calls. cbn [truthy iterate].
  unfold bind at 1. cbn [ret for_of]. unfold bind at 1.
  rewrite (tool_fragment_run estimator call _ _ (get_not_null _ _ _ Hfn)).
  unfold name_of, arguments_of. rewrite Hfn.
  rewrite (member_opt_get _ _ _ Hname), (member_opt_get _ _ _ Hargs).
  rewrite Htn, Hta. cbn [andb ret].
  unfold bind, read_tokens, ret.
  cbn [events app currentTextIndex currentToolIndex draws
       accumulatedOutputTokens].
  eexists. eexists. reflexivity.
Qed.

(** C7.  A record that carries a text fragment and one tool-call fragment
    with name and arguments: handling its line enqueues the text triple
    with the current text index, then the tool-use triple with the current
    tool index, and moves each of the two indexes by one; as the first
    record of a stream, both triples carry index [0]. *)
Theorem text_triple_then_tool_triple {P : Platform}
  (estimator : TokenEstimator) (req : value) (jsonStr : string)
  (data choice : json) (others : list json)
  (delta text call fn name arguments : json) :
  JSON_parse jsonStr = Some data ->
  jsonStr <> "[DONE]" ->
  get data "choices" = Some (JArr (choice :: others)) ->
  get choice "delta" = Some delta ->
  get delta "content" = Some text ->
  truthy (Some text) = true ->
  get delta "tool_calls" = Some (JArr [call]) ->
  get call "function" = Some fn ->
  get fn "name" = Some name ->
  truthy (Some name) = true ->
  get fn "arguments" = Some arguments ->
  truthy (Some arguments) = true ->
  let partial_json := JSON_stringify (safeJsonParse arguments) in
  (forall s,
      let r := on_line (processLine estimator) ("data: " ++ jsonStr) s in
      let ti := textBlockIndex s in
      let ci := toolUseBlockIndex s in
      snd r = false /\
      enqueued (fst r) =
        enqueued s ++
        [text_block_start ti; text_delta ti text; content_block_stop ti;
         tool_use_block_start ci (slice 2 (random36 (draws (env s)))) name;
         input_json_delta ci partial_json; content_block_stop ci] /\
      textBlockIndex (fst r) = S ti /\
      toolUseBlockIndex (fst r) = S ci) /\
  (no_LF jsonStr = true ->
   exists usage,
     emitted (convertStreamResponse estimator req
                (Some {| reads := [("data: " ++ jsonStr ++ NL)%string];
                         read_fails := false |})) =
     [message_start (slice 2 (random36 0));
      text_block_start 0; text_delta 0 text; content_block_stop 0;
      tool_use_block_start 0 (slice 2 (random36 1)) name;
      input_json_delta 0 partial_json; content_block_stop 0;
      message_stop usage]).
Proof.
  intros Hparse Hdone Hchoices Hdelta Hcontent Htext Hcalls Hfn Hname Htn
         Hargs Hta. cbn zeta.
  assert (Hline : forall s,
    exists s',
      on_line (processLine estimator) ("data: " ++ jsonStr) s = (s', false) /\
      buffer s' = buffer s /\
      enqueued s' =
        enqueued s ++
        [text_block_start (textBlockIndex s);
         text_delta (textBlockIndex s) text;
         content_block_stop (textBlockIndex s);
         tool_use_block_start (toolUseBlockIndex s)
           (slice 2 (random36 (draws (env s)))) name;
         input_json_delta (toolUseBlockIndex s)
           (JSON_stringify (safeJsonParse arguments));
         content_block_stop (toolUseBlockIndex s)] /\
      textBlockIndex s' = S (textBlockIndex s) /\
      toolUseBlockIndex s' = S (toolUseBlockIndex s)).
  { intros s. unfold on_line.
    change ("data: " ++ jsonStr)%string
      with (String "d" ("ata: " ++ jsonStr)%string) at 1.
    rewrite trim_nonblank by reflexivity.
    change (startsWith ("data: " ++ jsonStr) "data: ")
      with (String.prefix "" jsonStr).
    change (slice 6 ("data: " ++ jsonStr)) with jsonStr.
    replace (String.prefix "" jsonStr) with true
      by (destruct jsonStr; reflexivity).
    cbn [negb orb]. apply String.eqb_neq in Hdone. rewrite Hdone.
    destruct (processLine_mixed estimator jsonStr data choice others delta
                text call fn name arguments (textBlockIndex s)
                (toolUseBlockIndex s) (env s)
                Hparse Hchoices Hdelta Hcontent Htext Hcalls Hfn Hname Htn
                Hargs Hta) as (tokens & w' & E).
    rewrite E. eexists. split; [reflexivity|]. repeat split. }
  split.
  - intros s. destruct (Hline s) as (s' & E & _ & Hq & Hti & Hci).
    rewrite E. cbn [fst snd]. repeat split; assumption.
  - intros Hlf. unfold convertStreamResponse, start. cbn [reads read_loop].
    rewrite on_read_eq.
    change (buffer (sendMessageStart initial_state)) with ""%string.
    change ("" ++ ("data: " ++ jsonStr ++ NL))%string
      with (("data: " ++ jsonStr) ++ NL ++ "")%string.
    rewrite split_nl_line by exact Hlf.
    cbn [split_nl removelast last for_lines].
    destruct (Hline (set_buffer "" (sendMessageStart initial_state)))
      as (s' & E & Hb & Hq & _ & _).
    rewrite E. unfold finally, flush, emitted. rewrite Hb.
    cbn [set_buffer buffer trim trimStart trimEnd nonempty String.eqb negb].
    cbn [final sendMessageStop enqueue enqueued]. rewrite Hq.
    eexists. reflexivity.
Qed.

Lemma text_triple_then_tool_triple_witness :
  no_LF Sample.mixed_json = true /\
  Sample.mixed_json <> "[DONE]" /\
  emitted (Sample.run None
             [("data: " ++ Sample.mixed_json ++ NL)%string]) =
  [message_start "id0";
   text_block_start 0; text_delta 0 (JStr "A"); content_block_stop 0;
   tool_use_block_start 0 "id1" (JStr "lookup");
   input_json_delta 0 (Sample.text "{'q':'x'}"); content_block_stop 0;
   message_stop None].
Proof.
  assert (Hlf : no_LF Sample.mixed_json = true) by (vm_compute; reflexivity).
  assert (Hd : Sample.mixed_json <> "[DONE]") by (vm_compute; discriminate).
  split; [exact Hlf|]. split; [exact Hd|].
  set (fn := JObj [("name", JStr "lookup");
                   ("arguments", JStr (Sample.text "{'q':'x'}"))]).
  set (call := JObj [("function", fn)]).
  set (delta := JObj [("content", JStr "A"); ("tool_calls", JArr [call])]).
  set (choice := JObj [("delta", delta)]).
  set (data := JObj [("choices", JArr [choice])]).
  assert (Hp : @JSON_parse Sample.platform Sample.mixed_json = Some data)
    by (vm_compute; reflexivity).
  destruct (@text_triple_then_tool_triple Sample.platform Sample.estimator
              None Sample.mixed_json data choice [] delta (JStr "A") call fn
              (JStr "lookup") (JStr (Sample.text "{'q':'x'}"))
              Hp Hd eq_refl eq_refl eq_refl eq_refl eq_refl eq_refl eq_refl
              eq_refl eq_refl eq_refl)
    as [_ H].
  destruct (H Hlf) as (usage & E).
  assert (Hu : last (emitted (Sample.run None
                 [("data: " ++ Sample.mixed_json ++ NL)%string]))
                 (message_start "") = message_stop None)
    by (vm_compute; reflexivity).
  unfold Sample.run, Sample.body_of in *. rewrite E in Hu |- *.
  cbn [last] in Hu. inversion Hu. vm_compute. reflexivity.
Defined.

(** The loop over two lists of values, one after the other. *)
Lemma for_of_app {A S : Type} (a b : list A) (body : A -> S -> M S) :
  forall s w,
    for_of (a ++ b) body s w =
    match for_of a body s w with
    | (Normal s', w') => for_of b body s' w'
    | (Abrupt, w') => (Abrupt, w')
    end.
Proof.
  induction a as [|x a IH]; intros s w; [reflexivity|].
  cbn [app for_of]. unfold bind.
  destruct (body x s w) as [[s1|] w1]; [apply IH | reflexivity].
Qed.

Lemma member_not_null (j : json) (name : string) (w : world) :
  j <> JNull -> member (Some j) name w = (Normal (get j name), w).
Proof.
  intros H. destruct j; try reflexivity. contradiction.
Qed.

(** The loop over tool calls none of which is [null] returns, with whole
    triples added. *)
Lemma tool_calls_return {P : Platform} (estimator : TokenEstimator)
  (calls : list json) :
  Forall (fun c => c <> JNull) calls ->
  forall l w,
    exists l' w' t,
      for_of calls (tool_fragment estimator) l w = (Normal l', w') /\
      triples t /\ events l' = events l ++ t.
Proof.
  induction 1 as [|call rest Hcall _ IH]; intros l w.
  - exists l, w, []. split; [reflexivity|].
    split; [constructor | symmetry; apply app_nil_r].
  - assert (E : exists l1 w1,
               tool_fragment estimator call l w = (Normal l1, w1)).
    { rewrite (tool_fragment_run estimator call l w Hcall).
      destruct (name_of call) as [name|];
        [|eexists; eexists; reflexivity].
      destruct (arguments_of call) as [arguments|];
        [|eexists; eexists; reflexivity].
      destruct (truthy (Some name) && truthy (Some arguments));
        eexists; eexists; reflexivity. }
    destruct E as (l1 & w1 & E).
    pose proof (tool_fragment_post estimator call l w) as [_ Hq].
    rewrite E in Hq. cbn [fst] in Hq. destruct Hq as (t1 & Ht1 & Ev1).
    destruct (IH l1 w1) as (l2 & w2 & t2 & E2 & Ht2 & Ev2).
    exists l2, w2, (t1 ++ t2). cbn [for_of]. unfold bind. rewrite E.
    split; [exact E2|]. split; [apply triples_app; assumption|].
    rewrite Ev2, Ev1. symmetry. apply app_assoc.
Qed.

(** The handler on a record one of whose tool calls has a name and
    argument text that is not empty and not JSON. *)
Lemma processLine_unparsable {P : Platform} (estimator : TokenEstimator)
  (jsonStr : string) (data choice : json) (others : list json)
  (delta : json) (before after : list json) (call fn name : json)
  (text : string) (ti ci : nat) (w : world) :
  JSON_parse jsonStr = Some data ->
  get data "choices" = Some (JArr (choice :: others)) ->
  get choice "delta" = Some delta ->
  get delta "tool_calls" = Some (JArr (before ++ call :: after)) ->
  Forall (fun c => c <> JNull) (before ++ after) ->
  get call "function" = Some fn ->
  get fn "name" = Some name ->
  truthy (Some name) = true ->
  get fn "arguments" = Some (JStr text) ->
  text <> ""%string ->
  JSON_parse text = None ->
  exists r w' pre post i id,
    processLine estimator jsonStr ti ci w = (Normal (Some r), w') /\
    LineResult.events r =
      pre ++
      [tool_use_block_start i id name;
       input_json_delta i (JSON_stringify (JObj []));
       content_block_stop i] ++ post /\
    triples pre /\ triples post.
Proof.
  intros Hparse Hchoices Hdelta Hcalls Hall Hfn Hname Htn Hargs Htext Hbad.
  apply Forall_app in Hall. destruct Hall as [Hbefore Hafter].
  remember (processLine estimator jsonStr ti ci w) as R eqn:ER.
  unfold processLine in ER. rewrite Hparse in ER.
  unfold bind at 1 in ER. rewrite (member_get _ _ _ w Hchoices) in ER.
  cbn [truthy negb orb get_length is_zero JNat List.length] in ER.
  replace (Z.of_nat (S (List.length others)) =? 0)%Z with false in ER
    by (symmetry; apply Z.eqb_neq; lia).
  cbn [get_first nth_error] in ER.
  unfold bind at 1 in ER. rewrite (member_get _ _ _ w Hdelta) in ER.
  unfold bind at 1 in ER.
  rewrite (member_not_null delta "content" w (get_not_null _ _ _ Hcalls))
    in ER.
  unfold bind at 1 in ER.
  destruct (on_content_post estimator (get delta "content")
              {| events := []; currentTextIndex := ti;
                 currentToolIndex := ci |} w)
    as (l1 & w1 & E1 & _ & _ & t1 & Ht1 & Ev1).
  rewrite E1 in ER. cbn [events app] in Ev1.
  unfold bind at 1 in ER. rewrite (member_get _ _ _ w1 Hcalls) in ER.
  unfold bind at 1 in ER. unfold on_tool_calls in ER.
  cbn [truthy iterate] in ER. unfold bind at 1 in ER. cbn [ret] in ER.
  rewrite for_of_app in ER.
  destruct (tool_calls_return estimator before Hbefore l1 w1)
    as (l2 & w2 & t2 & E2 & Ht2 & Ev2).
  rewrite E2 in ER. cbn [for_of] in ER. unfold bind at 1 in ER.
  rewrite (tool_fragment_run estimator call l2 w2 (get_not_null _ _ _ Hfn))
    in ER.
  unfold name_of, arguments_of in ER. rewrite Hfn in ER.
  rewrite (member_opt_get _ _ _ Hname), (member_opt_get _ _ _ Hargs) in ER.
  rewrite Htn in ER. cbn [truthy andb] in ER.
  apply String.eqb_neq in Htext. rewrite Htext in ER. cbn [negb] in ER.
  unfold safeJsonParse in ER. rewrite Hbad in ER.
  match type of ER with
  | context [for_of after (tool_fragment estimator) ?l3 ?w3] =>
      destruct (tool_calls_return estimator after Hafter l3 w3)
        as (l4 & w4 & t4 & E4 & Ht4 & Ev4)
  end.
  rewrite E4 in ER. unfold bind, read_tokens, ret in ER. subst R.
  cbn [events] in Ev4.
  eexists. eexists. exists (t1 ++ t2), t4. eexists. eexists.
  split; [reflexivity|]. cbn [LineResult.events].
  split; [|split; [apply triples_app; assumption | exact Ht4]].
  rewrite Ev4, Ev2, Ev1. rewrite <- !app_assoc. reflexivity.
Qed.

(** C9, amended.  A record whose [tool_calls] holds, among fragments none
    of which is [null], a fragment with a name and with argument text that
    is not empty and not valid JSON: the handler does not throw on its
    line; the line's events are enqueued, whole triples only, among them
    the tool-use triple of that fragment, whose [partial_json] is the
    serialisation of the empty object; the lines that follow it and the
    reads that follow it are handled from the state it leaves; and as the
    only line of a stream it is followed by [message_stop], the stream is
    closed and no exception leaves [start]. *)
Theorem unparsable_arguments_become_empty_object {P : Platform}
  (estimator : TokenEstimator) (req : value) (jsonStr : string)
  (data choice : json) (others : list json) (delta : json)
  (before after : list json) (call fn name : json) (text : string) :
  JSON_parse jsonStr = Some data ->
  jsonStr <> "[DONE]"%string ->
  get data "choices" = Some (JArr (choice :: others)) ->
  get choice "delta" = Some delta ->
  get delta "tool_calls" = Some (JArr (before ++ call :: after)) ->
  Forall (fun c => c <> JNull) (before ++ after) ->
  get call "function" = Some fn ->
  get fn "name" = Some name ->
  truthy (Some name) = true ->
  get fn "arguments" = Some (JStr text) ->
  text <> ""%string ->
  JSON_parse text = None ->
  let handler := processLine estimator in
  let line := ("data: " ++ jsonStr)%string in
  let triple := fun (i : nat) (id : string) =>
    [tool_use_block_start i id name;
     input_json_delta i (JSON_stringify (JObj []));
     content_block_stop i] in
  (forall s,
      exists s' pre post i id,
        on_line handler line s = (s', false) /\
        enqueued s' = enqueued s ++ pre ++ triple i id ++ post /\
        triples pre /\ triples post /\
        (forall rest,
            for_lines handler (line :: rest) s = for_lines handler rest s') /\
        (no_LF jsonStr = true ->
         buffer s = ""%string ->
         forall later,
           read_loop handler ((line ++ NL)%string :: later) s
           = read_loop handler later s')) /\
  (no_LF jsonStr = true ->
   let o := convertStreamResponse estimator req
              (Some {| reads := [(line ++ NL)%string];
                       read_fails := false |}) in
   rejected o = false /\
   closed o = true /\
   exists pre post i id usage,
     emitted o =
       message_start (slice 2 (random36 0)) ::
       pre ++ triple i id ++ post ++ [message_stop usage]).
Proof.
  intros Hparse Hdone Hchoices Hdelta Hcalls Hall Hfn Hname Htn Hargs Htext
         Hbad. cbn zeta.
  assert (Hline : forall s,
    exists s' pre post i id,
      on_line (processLine estimator) ("data: " ++ jsonStr) s = (s', false) /\
      enqueued s' =
        enqueued s ++ pre ++
        [tool_use_block_start i id name;
         input_json_delta i (JSON_stringify (JObj []));
         content_block_stop i] ++ post /\
      triples pre /\ triples post /\ buffer s' = buffer s).
  { intros s. pose proof (on_line_buffer (processLine estimator)
                            ("data: " ++ jsonStr) s) as Hb.
    unfold on_line in *.
    change ("data: " ++ jsonStr)%string
      with (String "d" ("ata: " ++ jsonStr)%string) in Hb at 1.
    change ("data: " ++ jsonStr)%string
      with (String "d" ("ata: " ++ jsonStr)%string) at 1.
    rewrite trim_nonblank in * by reflexivity.
    change (startsWith ("data: " ++ jsonStr) "data: ")
      with (String.prefix "" jsonStr) in *.
    change (slice 6 ("data: " ++ jsonStr)) with jsonStr in *.
    replace (String.prefix "" jsonStr) with true in *
      by (destruct jsonStr; reflexivity).
    cbn [negb orb] in *. apply String.eqb_neq in Hdone.
    rewrite Hdone in *.
    destruct (processLine_unparsable estimator jsonStr data choice others
                delta before after call fn name text (textBlockIndex s)
                (toolUseBlockIndex s) (env s)
                Hparse Hchoices Hdelta Hcalls Hall Hfn Hname Htn Hargs
                Htext Hbad)
      as (r & w' & pre & post & i & id & E & Hev & Hpre & Hpost).
    rewrite E in *. cbn [fst] in Hb.
    eexists. exists pre, post, i, id. split; [reflexivity|].
    cbn [enqueued]. rewrite Hev.
    repeat split; assumption. }
  assert (Hread : forall s s',
    on_line (processLine estimator) ("data: " ++ jsonStr) s = (s', false) ->
    no_LF jsonStr = true ->
    buffer s = ""%string ->
    forall later,
      read_loop (processLine estimator)
        ((("data: " ++ jsonStr) ++ NL)%string :: later) s
      = read_loop (processLine estimator) later s').
  { intros s s' E Hlf Hb later. cbn [read_loop]. rewrite on_read_eq, Hb.
    change ("" ++ (("data: " ++ jsonStr) ++ NL))%string
      with (("data: " ++ jsonStr) ++ NL ++ "")%string.
    rewrite split_nl_line by exact Hlf.
    cbn [split_nl removelast last for_lines].
    replace (set_buffer "" s) with s
      by (rewrite <- Hb; symmetry; apply set_buffer_same).
    rewrite E. reflexivity. }
  split.
  - intros s. destruct (Hline s) as (s' & pre & post & i & id & E & Hq &
                                     Hpre & Hpost & _).
    exists s', pre, post, i, id.
    repeat (split; [assumption|]). split.
    + intros rest. cbn [for_lines]. rewrite E. reflexivity.
    + intros Hlf Hb later. exact (Hread s s' E Hlf Hb later).
  - intros Hlf.
    destruct (Hline (sendMessageStart initial_state))
      as (s' & pre & post & i & id & E & Hq & _ & _ & Hb).
    unfold convertStreamResponse, start. cbn [reads read_fails].
    rewrite (Hread _ s' E Hlf eq_refl []). cbn [read_loop].
    unfold finally, flush, rejected, emitted. rewrite Hb.
    change (buffer (sendMessageStart initial_state)) with ""%string.
    cbn [trim trimStart trimEnd nonempty String.eqb negb].
    cbn [final sendMessageStop enqueue enqueued flush_threw try_exit closed
         orb].
    split; [reflexivity|]. split; [reflexivity|].
    exists pre, post, i, id. eexists. rewrite Hq.
    change (enqueued (sendMessageStart initial_state))
      with [message_start (slice 2 (random36 0))].
    cbn [app]. rewrite <- !app_assoc. reflexivity.
Qed.

Lemma unparsable_arguments_become_empty_object_witness :
  let fn := JObj [("name", JStr "lookup"); ("arguments", JStr "not json")] in
  let call := JObj [("function", fn)] in
  let delta := JObj [("tool_calls", JArr [call])] in
  let choice := JObj [("delta", delta)] in
  let data := JObj [("choices", JArr [choice])] in
  let o := Sample.run None
             [(("data: " ++ Sample.unparsable_json) ++ NL)%string] in
  @JSON_parse Sample.platform Sample.unparsable_json = Some data /\
  @JSON_parse Sample.platform "not json" = None /\
  no_LF Sample.unparsable_json = true /\
  rejected o = false /\
  closed o = true /\
  exists pre post i id usage,
    emitted o =
      message_start "id0" ::
      pre ++ [tool_use_block_start i id (JStr "lookup");
              input_json_delta i "{}";
              content_block_stop i] ++ post ++ [message_stop usage].
Proof.
  cbn zeta.
  assert (Hp : @JSON_parse Sample.platform Sample.unparsable_json
               = Some (JObj [("choices",
                    JArr [JObj [("delta",
                      JObj [("tool_calls",
                        JArr [JObj [("function",
                          JObj [("name", JStr "lookup");
                                ("arguments", JStr "not json")])]])])]])]))
    by (vm_compute; reflexivity).
  assert (Hbad : @JSON_parse Sample.platform "not json" = None)
    by (vm_compute; reflexivity).
  assert (Hlf : no_LF Sample.unparsable_json = true)
    by (vm_compute; reflexivity).
  assert (Hd : Sample.unparsable_json <> "[DONE]"%string)
    by (vm_compute; discriminate).
  repeat (split; [assumption|]).
  destruct (@unparsable_arguments_become_empty_object Sample.platform
              Sample.estimator None Sample.unparsable_json _ _ [] _ [] []
              _ _ (JStr "lookup") "not json"
              Hp Hd eq_refl eq_refl eq_refl (Forall_nil _) eq_refl eq_refl
              eq_refl eq_refl) as [_ H];
    [discriminate | exact Hbad |].
  exact (H Hlf).
Defined.

(** C9 as stated fails: the empty argument text is not valid JSON, and a
    fragment that carries it with a name is skipped, so the stream has no
    tool-use triple for it. *)
Lemma empty_arguments_emit_no_triple :
  @JSON_parse Sample.platform "" = None /\
  @JSON_parse Sample.platform Sample.empty_arguments_json
    = Some (JObj [("choices",
              JArr [JObj [("delta",
                JObj [("tool_calls",
                  JArr [JObj [("function",
                    JObj [("name", JStr "lookup");
                          ("arguments", JStr "")])]])])]])]) /\
  emitted (Sample.run None
             [(("data: " ++ Sample.empty_arguments_json) ++ NL)%string])
    = [message_start "id0"; message_stop None] /\
  emitted (Sample.run None
             [(("data: " ++ Sample.unparsable_json) ++ NL)%string])
    = [message_start "id0";
       tool_use_block_start 0 "id1" (JStr "lookup");
       input_json_delta 0 "{}"; content_block_stop 0;
       message_stop None].
Proof. vm_compute. repeat split. Qed.

(* ================================================================= *)
(** * Further properties of the transcoder *)

(** ** Block numbering and token accounting of the handler *)

Lemma text_start_indexes_app (a b : list event) :
  text_start_indexes (a ++ b) = text_start_indexes a ++ text_start_indexes b.
Proof. apply flat_map_app. Qed.

Lemma tool_start_indexes_app (a b : list event) :
  tool_start_indexes (a ++ b) = tool_start_indexes a ++ tool_start_indexes b.
Proof. apply flat_map_app. Qed.

Lemma queue_tokens_app (estimator : TokenEstimator) (a b : list event) :
  queue_tokens estimator (a ++ b)
  = (queue_tokens estimator a + queue_tokens estimator b)%Z.
Proof.
  induction a as [|ev a IH]; [reflexivity|].
  cbn [app queue_tokens fold_right]. fold (queue_tokens estimator (a ++ b)).
  fold (queue_tokens estimator a). rewrite IH. lia.
Qed.

Lemma seq_join (a b c : nat) :
  a <= b -> b <= c -> seq a (b - a) ++ seq b (c - b) = seq a (c - a).
Proof.
  intros H1 H2. replace (c - a) with ((b - a) + (c - b)) by lia.
  rewrite seq_app. replace (a + (b - a)) with b by lia. reflexivity.
Qed.

Lemma seq_extend (a b : nat) :
  a <= b -> seq 0 a ++ seq a (b - a) = seq 0 b.
Proof.
  intros H. pose proof (seq_join 0 a b (Nat.le_0_l a) H) as E.
  rewrite !Nat.sub_0_r in E. exact E.
Qed.

Lemma advances_refl (estimator : TokenEstimator) (l : locals) (w : world) :
  advances estimator l w l w.
Proof.
  exists []. rewrite app_nil_r, !Nat.sub_diag. cbn.
  repeat split; try lia.
Qed.

Lemma advances_trans (estimator : TokenEstimator)
  (l1 l2 l3 : locals) (w1 w2 w3 : world) :
  advances estimator l1 w1 l2 w2 ->
  advances estimator l2 w2 l3 w3 ->
  advances estimator l1 w1 l3 w3.
Proof.
  intros (t & E & Ht & Hlt & Hc & Hlc & Ha)
         (t' & E' & Ht' & Hlt' & Hc' & Hlc' & Ha').
  exists (t ++ t').
  rewrite text_start_indexes_app, tool_start_indexes_app, queue_tokens_app.
  rewrite Ht, Ht', Hc, Hc', E', E, Ha', Ha.
  rewrite !seq_join by assumption.
  repeat split; try lia. symmetry. apply app_assoc.
Qed.

Section Numbering.

Context {P : Platform}.
Variable estimator : TokenEstimator.

Lemma tool_fragment_advances (toolCall : json) (l l' : locals)
  (w w' : world) :
  tool_fragment estimator toolCall l w = (Normal l', w') ->
  advances estimator l w l' w'.
Proof.
  intros E.
  assert (Hn : toolCall <> JNull).
  { intros ->. rewrite tool_fragment_null in E. discriminate E. }
  rewrite (tool_fragment_run estimator toolCall l w Hn) in E.
  destruct (name_of toolCall) as [name|];
    [|inversion E; subst; apply advances_refl].
  destruct (arguments_of toolCall) as [arguments|];
    [|inversion E; subst; apply advances_refl].
  destruct (truthy (Some name) && truthy (Some arguments));
    [|inversion E; subst; apply advances_refl].
  inversion E; subst. eexists. split; [reflexivity|].
  cbn [currentTextIndex currentToolIndex accumulatedOutputTokens
       text_start_indexes tool_start_indexes flat_map app
       queue_tokens fold_right event_tokens].
  rewrite Nat.sub_diag.
  replace (S (currentToolIndex l) - currentToolIndex l) with 1 by lia.
  cbn [seq]. repeat split; try lia.
Qed.

Lemma tool_calls_advances (toolCalls : list json) :
  forall l w l' w',
    for_of toolCalls (tool_fragment estimator) l w = (Normal l', w') ->
    advances estimator l w l' w'.
Proof.
  induction toolCalls as [|call rest IH]; intros l w l' w' E.
  - inversion E; subst. apply advances_refl.
  - cbn [for_of] in E. unfold bind in E.
    destruct (tool_fragment estimator call l w) as [[l1|] w1] eqn:E1;
      [|discriminate E].
    apply advances_trans with (l2 := l1) (w2 := w1).
    + exact (tool_fragment_advances call l l1 w w1 E1).
    + exact (IH l1 w1 l' w' E).
Qed.

Lemma on_content_advances (content : value) (l l' : locals) (w w' : world) :
  on_content estimator content l w = (Normal l', w') ->
  advances estimator l w l' w'.
Proof.
  unfold on_content. intros E.
  destruct content as [text|]; [|inversion E; subst; apply advances_refl].
  destruct (truthy (Some text));
    [|inversion E; subst; apply advances_refl].
  inversion E; subst. eexists. split; [reflexivity|].
  cbn [currentTextIndex currentToolIndex accumulatedOutputTokens
       text_start_indexes tool_start_indexes flat_map app processTextPart
       queue_tokens fold_right event_tokens].
  rewrite Nat.sub_diag.
  replace (S (currentTextIndex l) - currentTextIndex l) with 1 by lia.
  cbn [seq]. repeat split; try lia.
Qed.

Lemma on_tool_calls_advances (tool_calls : value) (l l' : locals)
  (w w' : world) :
  on_tool_calls estimator tool_calls l w = (Normal l', w') ->
  advances estimator l w l' w'.
Proof.
  unfold on_tool_calls. intros E.
  destruct tool_calls as [calls|]; [|inversion E; subst; apply advances_refl].
  destruct (truthy (Some calls));
    [|inversion E; subst; apply advances_refl].
  unfold bind in E.
  destruct calls; cbn [iterate throw ret] in E; try discriminate E;
    exact (tool_calls_advances _ _ _ _ _ E).
Qed.

(** A result of the handler: its events are numbered from the indexes it
    was called with up to the indexes it returns, and the accumulated
    count grew by their estimates. *)
Lemma processLine_advances (jsonStr : string) (ti ci : nat) (w w' : world)
  (r : LineResult.t) :
  processLine estimator jsonStr ti ci w = (Normal (Some r), w') ->
  advances estimator
    {| events := []; currentTextIndex := ti; currentToolIndex := ci |} w
    {| events := LineResult.events r;
       currentTextIndex := LineResult.textBlockIndex r;
       currentToolIndex := LineResult.toolUseBlockIndex r |} w'.
Proof.
  intros ER. unfold processLine in ER.
  destruct (JSON_parse jsonStr) as [data|]; [|discriminate ER].
  unfold bind at 1 in ER.
  destruct (member_cases (Some data) "choices" w) as [E | (x & Hx & _ & E)];
    rewrite E in ER; [discriminate ER|].
  inversion Hx; subst x. clear E Hx.
  destruct (get data "choices") as [c|]; [|discriminate ER].
  destruct (negb (truthy (Some c)) || is_zero (get_length c));
    [discriminate ER|].
  unfold bind at 1 in ER.
  destruct (member_cases (get_first c) "delta" w) as [E | (ch & _ & _ & E)];
    rewrite E in ER; [discriminate ER|]. clear E.
  unfold bind at 1 in ER.
  destruct (member_cases (get ch "delta") "content" w)
    as [E | (d & Hd & Hdn & E)];
    rewrite E in ER; [discriminate ER|]. clear E.
  unfold bind at 1 in ER.
  destruct (on_content estimator (get d "content")
              {| events := []; currentTextIndex := ti;
                 currentToolIndex := ci |} w) as [[l1|] w1] eqn:E1;
    [|discriminate ER].
  apply on_content_advances in E1.
  unfold bind at 1 in ER.
  destruct (member_cases (get ch "delta") "tool_calls" w1)
    as [E | (d' & Hd' & _ & E)]; rewrite E in ER; [discriminate ER|].
  clear E. unfold bind at 1 in ER.
  destruct (on_tool_calls estimator (get d' "tool_calls") l1 w1)
    as [[l2|] w2] eqn:E2; [|discriminate ER].
  apply on_tool_calls_advances in E2.
  unfold bind, read_tokens, ret in ER. inversion ER; subst.
  cbn [LineResult.events LineResult.textBlockIndex
       LineResult.toolUseBlockIndex].
  replace {| events := events l2; currentTextIndex := currentTextIndex l2;
             currentToolIndex := currentToolIndex l2 |} with l2
    by (destruct l2; reflexivity).
  exact (advances_trans estimator _ _ _ _ _ _ E1 E2).
Qed.

End Numbering.

(** ** Block numbering and token accounting of the stream *)

Section StreamNumbering.

Context {P : Platform}.
Variable estimator : TokenEstimator.

Lemma processLine_result (jsonStr : string) (ti ci : nat) (w w' : world)
  (r : LineResult.t) :
  processLine estimator jsonStr ti ci w = (Normal (Some r), w') ->
  text_start_indexes (LineResult.events r)
    = seq ti (LineResult.textBlockIndex r - ti) /\
  ti <= LineResult.textBlockIndex r /\
  tool_start_indexes (LineResult.events r)
    = seq ci (LineResult.toolUseBlockIndex r - ci) /\
  ci <= LineResult.toolUseBlockIndex r /\
  accumulatedOutputTokens w'
    = (accumulatedOutputTokens w
       + queue_tokens estimator (LineResult.events r))%Z.
Proof.
  intros E. destruct (processLine_advances estimator _ _ _ _ _ _ E)
    as (t & Et & H).
  cbn [events app currentTextIndex currentToolIndex] in Et, H.
  rewrite Et. exact H.
Qed.

Lemma on_line_numbered (line : string) (s : stream_state) :
  numbered s -> numbered (fst (on_line (processLine estimator) line s)).
Proof.
  intros Hn. unfold on_line.
  destruct (negb (nonempty (trim line)) || negb (startsWith line "data: "));
    [exact Hn|].
  destruct (slice 6 line =? "[DONE]")%string; [exact Hn|].
  destruct (processLine estimator (slice 6 line) (textBlockIndex s)
              (toolUseBlockIndex s) (env s)) as [[[r|]|] w] eqn:E;
    cbn [fst]; try exact Hn.
  destruct (processLine_result _ _ _ _ _ _ E) as (Ht & Hlt & Hc & Hlc & _).
  destruct Hn as [Hnt Hnc]. unfold numbered.
  cbn [enqueued textBlockIndex toolUseBlockIndex].
  rewrite text_start_indexes_app, tool_start_indexes_app.
  rewrite Hnt, Hnc, Ht, Hc.
  rewrite !seq_extend by assumption. split; reflexivity.
Qed.

Lemma for_lines_numbered (lines : list string) :
  forall s,
    numbered s ->
    numbered (fst (for_lines (processLine estimator) lines s)).
Proof.
  induction lines as [|line rest IH]; intros s Hn; [exact Hn|].
  cbn [for_lines]. pose proof (on_line_numbered line s Hn) as H1.
  destruct (on_line (processLine estimator) line s) as [s' [|]];
    cbn [fst] in *; [exact H1 | apply IH; exact H1].
Qed.

Lemma read_loop_numbered (values : list string) :
  forall s,
    numbered s ->
    numbered (fst (read_loop (processLine estimator) values s)).
Proof.
  induction values as [|v rest IH]; intros s Hn; [exact Hn|].
  cbn [read_loop]. rewrite on_read_eq.
  pose proof (for_lines_numbered
                (removelast (split_nl (buffer s ++ v)%string))
                (set_buffer (last (split_nl (buffer s ++ v)%string) "") s) Hn)
    as H1.
  destruct (for_lines (processLine estimator) _ _) as [s' [|]];
    cbn [fst] in *; [exact H1 | apply IH; exact H1].
Qed.

Lemma seq_own_length (l : list nat) (n : nat) :
  l = seq 0 n -> l = seq 0 (List.length l).
Proof. intros ->. rewrite length_seq. reflexivity. Qed.

Lemma flush_numbered (s : stream_state) :
  numbered s ->
  let q := enqueued (fst (flush (processLine estimator) s)) in
  text_start_indexes q = seq 0 (List.length (text_start_indexes q)) /\
  tool_start_indexes q = seq 0 (List.length (tool_start_indexes q)).
Proof.
  intros [Hnt Hnc]. cbn zeta. unfold flush.
  assert (Hs : text_start_indexes (enqueued s)
               = seq 0 (List.length (text_start_indexes (enqueued s))) /\
               tool_start_indexes (enqueued s)
               = seq 0 (List.length (tool_start_indexes (enqueued s)))).
  { split; eapply seq_own_length; eassumption. }
  destruct (nonempty (trim (buffer s))); [|exact Hs].
  destruct (processLine estimator (slice 6 (buffer s)) (textBlockIndex s)
              (toolUseBlockIndex s) (env s)) as [[[r|]|] w] eqn:E;
    cbn [fst]; try exact Hs.
  destruct (processLine_result _ _ _ _ _ _ E) as (Ht & Hlt & Hc & Hlc & _).
  cbn [enqueued].
  rewrite text_start_indexes_app, tool_start_indexes_app.
  rewrite Hnt, Hnc, Ht, Hc.
  rewrite !seq_extend by assumption. rewrite !length_seq.
  split; reflexivity.
Qed.

Lemma on_line_accounted (line : string) (s : stream_state) :
  accounted estimator s ->
  snd (on_line (processLine estimator) line s) = false ->
  accounted estimator (fst (on_line (processLine estimator) line s)).
Proof.
  intros Ha. unfold on_line.
  destruct (negb (nonempty (trim line)) || negb (startsWith line "data: "));
    [intros _; exact Ha|].
  destruct (slice 6 line =? "[DONE]")%string; [intros _; exact Ha|].
  pose proof (processLine_post estimator (slice 6 line) (textBlockIndex s)
                (toolUseBlockIndex s) (env s)) as [_ Hq].
  destruct (processLine estimator (slice 6 line) (textBlockIndex s)
              (toolUseBlockIndex s) (env s)) as [[[r|]|] w] eqn:E;
    cbn [fst snd] in *; intros Hs.
  - destruct (processLine_result _ _ _ _ _ _ E) as (_ & _ & _ & _ & Hacc).
    unfold accounted in *. cbn [env enqueued].
    rewrite queue_tokens_app, Hacc, Ha. reflexivity.
  - subst w. unfold accounted in *. exact Ha.
  - discriminate Hs.
Qed.

Lemma for_lines_accounted (lines : list string) :
  forall s,
    accounted estimator s ->
    snd (for_lines (processLine estimator) lines s) = false ->
    accounted estimator (fst (for_lines (processLine estimator) lines s)).
Proof.
  induction lines as [|line rest IH]; intros s Ha Hs; [exact Ha|].
  cbn [for_lines] in *. pose proof (on_line_accounted line s Ha) as H1.
  destruct (on_line (processLine estimator) line s) as [s' [|]];
    cbn [fst snd] in *; [discriminate Hs|].
  apply IH; [apply H1; reflexivity | exact Hs].
Qed.

Lemma read_loop_accounted (values : list string) :
  forall s,
    accounted estimator s ->
    snd (read_loop (processLine estimator) values s) = false ->
    accounted estimator (fst (read_loop (processLine estimator) values s)).
Proof.
  induction values as [|v rest IH]; intros s Ha Hs; [exact Ha|].
  cbn [read_loop] in *. rewrite on_read_eq in *.
  pose proof (for_lines_accounted
                (removelast (split_nl (buffer s ++ v)%string))
                (set_buffer (last (split_nl (buffer s ++ v)%string) "") s) Ha)
    as H1.
  destruct (for_lines (processLine estimator) _ _) as [s' [|]];
    cbn [fst snd] in *; [discriminate Hs|].
  apply IH; [apply H1; reflexivity | exact Hs].
Qed.

Lemma flush_accounted (s : stream_state) :
  accounted estimator s ->
  snd (flush (processLine estimator) s) = false ->
  accounted estimator (fst (flush (processLine estimator) s)).
Proof.
  intros Ha. unfold flush.
  destruct (nonempty (trim (buffer s))); [|intros _; exact Ha].
  pose proof (processLine_post estimator (slice 6 (buffer s))
                (textBlockIndex s) (toolUseBlockIndex s) (env s))
    as [_ Hq].
  destruct (processLine estimator (slice 6 (buffer s)) (textBlockIndex s)
              (toolUseBlockIndex s) (env s)) as [[[r|]|] w] eqn:E;
    cbn [fst snd] in *; intros Hs.
  - destruct (processLine_result _ _ _ _ _ _ E) as (_ & _ & _ & _ & Hacc).
    unfold accounted in *. cbn [env enqueued].
    rewrite queue_tokens_app, Hacc, Ha. reflexivity.
  - subst w. unfold accounted in *. exact Ha.
  - discriminate Hs.
Qed.

End StreamNumbering.

(** X1.  In the queue of any stream the text blocks carry the indexes
    0, 1, 2, ... in the order they are opened, and so do, on their own
    count, the tool-use blocks. *)
Theorem blocks_numbered_from_zero {P : Platform}
  (estimator : TokenEstimator) (req : value) (body : option upstream) :
  let q := emitted (convertStreamResponse estimator req body) in
  text_start_indexes q = seq 0 (List.length (text_start_indexes q)) /\
  tool_start_indexes q = seq 0 (List.length (tool_start_indexes q)).
Proof.
  cbn zeta. unfold convertStreamResponse, start.
  destruct body as [up|]; [|split; reflexivity].
  assert (H0 : numbered (sendMessageStart initial_state))
    by (split; reflexivity).
  pose proof (read_loop_numbered estimator (reads up) _ H0) as H1.
  assert (Hfin : forall t s,
            numbered s ->
            let q := emitted (finally (processLine estimator) req
                                (Some estimator) t s) in
            text_start_indexes q
              = seq 0 (List.length (text_start_indexes q)) /\
            tool_start_indexes q
              = seq 0 (List.length (tool_start_indexes q))).
  { intros t s Hn. cbn zeta. unfold finally, emitted.
    pose proof (flush_numbered estimator s Hn) as Hf. cbn zeta in Hf.
    destruct (flush (processLine estimator) s) as [s' [|]];
      cbn [fst final] in *; [exact Hf|].
    cbn [sendMessageStop enqueue enqueued].
    rewrite text_start_indexes_app, tool_start_indexes_app.
    cbn [text_start_indexes tool_start_indexes flat_map].
    rewrite !app_nil_r. exact Hf. }
  destruct (read_loop (processLine estimator) (reads up)
              (sendMessageStart initial_state)) as [s [|]];
    cbn [fst] in H1; apply Hfin; exact H1.
Qed.

Lemma message_stop_usage_in {P : Platform} (estimator : TokenEstimator)
  (req : value) (up : upstream) (input output : Z) :
  In (message_stop (Some (input, output)))
     (emitted (convertStreamResponse estimator req (Some up))) ->
  output
  = totalOutputTokens (final (convertStreamResponse estimator req (Some up))).
Proof.
  unfold convertStreamResponse.
  destruct (start_queue (processLine estimator) req (Some estimator)
              (processLine_triples estimator) up)
    as (t & Ht & E & _ & _).
  rewrite E. intros [H|H]; [discriminate H|].
  apply in_app_or in H. destruct H as [H|H].
  - pose proof (triples_block_events t Ht) as Hb.
    rewrite Forall_forall in Hb. specialize (Hb _ H). discriminate Hb.
  - destruct (flush_threw _); [destruct H|].
    destruct H as [H|[]]. inversion H as [Hu]. unfold final_usage in Hu.
    destruct (truthy req); [|discriminate Hu]. inversion Hu. reflexivity.
Qed.

(** X2.  With an estimator that returns no negative count, and when the
    handler threw neither on a line nor on the remainder, the running
    total at the end of the stream is the sum of the estimates of what the
    enqueued block events carry (text of the text deltas, names of the
    tool-use starts, serialised arguments of the input deltas), and so is
    the [output_tokens] of a usage on [message_stop]. *)
Theorem output_tokens_sum_the_emitted_blocks {P : Platform}
  (estimator : TokenEstimator) (req : value) (body : option upstream) :
  let o := convertStreamResponse estimator req body in
  nonnegative estimator ->
  try_exit o <> HandlerThrew ->
  flush_threw o = false ->
  totalOutputTokens (final o) = queue_tokens estimator (emitted o) /\
  forall input output,
    In (message_stop (Some (input, output))) (emitted o) ->
    output = queue_tokens estimator (emitted o).
Proof.
  cbn zeta. intros Hnn Ht Hf.
  assert (Htotal : totalOutputTokens
                     (final (convertStreamResponse estimator req body))
                   = queue_tokens estimator
                       (emitted (convertStreamResponse estimator req body))).
  { destruct body as [up|]; [|reflexivity].
    pose proof (start_level estimator Hnn req (Some estimator) up Ht Hf)
      as [Hl _].
    unfold convertStreamResponse in *. rewrite Hl. clear Hl.
    revert Ht Hf. unfold start.
    assert (H0 : accounted estimator (sendMessageStart initial_state))
      by reflexivity.
    pose proof (read_loop_accounted estimator (reads up) _ H0) as H1.
    destruct (read_loop (processLine estimator) (reads up)
                (sendMessageStart initial_state)) as [s [|]];
      cbn [fst snd] in H1.
    { intros Ht. exfalso. apply Ht. apply try_exit_finally. }
    intros _. specialize (H1 eq_refl). unfold finally, emitted.
    pose proof (flush_accounted estimator s H1) as H2.
    destruct (flush (processLine estimator) s) as [s' [|]];
      cbn [fst snd flush_threw final] in *; intros Hf;
      [discriminate Hf|].
    specialize (H2 eq_refl). unfold accounted in H2.
    cbn [sendMessageStop enqueue enqueued env].
    rewrite queue_tokens_app, H2. cbn. lia. }
  split; [exact Htotal|].
  intros input output Hin. rewrite <- Htotal.
  destruct body as [up|]; [|destruct Hin].
  exact (message_stop_usage_in estimator req up input output Hin).
Qed.

(* ================================================================= *)
(** * Properties of [buildUrl] and [handle] *)

Lemma endsWith_cons (c : ascii) (s : string) :
  s <> ""%string -> endsWith (String c s) "/" = endsWith s "/".
Proof.
  intros H. destruct s as [|x r]; [contradiction|].
  unfold endsWith. cbn [String.length Nat.sub slice].
  rewrite !Nat.sub_0_r. reflexivity.
Qed.

Lemma append_nonempty_r (x y : string) :
  y <> ""%string -> (x ++ y)%string <> ""%string.
Proof.
  intros H. destruct x; [exact H | discriminate].
Qed.

Lemma endsWith_app (x y : string) :
  y <> ""%string -> endsWith (x ++ y) "/" = endsWith y "/".
Proof.
  intros H. induction x as [|c x IH]; [reflexivity|].
  cbn [append]. rewrite endsWith_cons by (apply append_nonempty_r; exact H).
  exact IH.
Qed.

Lemma nonempty_true (s : string) : nonempty s = true <-> s <> ""%string.
Proof.
  unfold nonempty. rewrite negb_true_iff. apply String.eqb_neq.
Qed.

Lemma proper_segment_no_final_slash (s : string) :
  proper_segment s = true -> endsWith s "/" = false.
Proof.
  unfold proper_segment. intros H. apply andb_true_iff in H.
  destruct H as [Hne Hfree]. apply nonempty_true in Hne.
  induction s as [|c r IH]; [contradiction|].
  cbn [free_of] in Hfree. apply andb_true_iff in Hfree.
  destruct Hfree as [Hc Hr]. apply negb_true_iff in Hc.
  destruct r as [|x r].
  - unfold endsWith. cbn [String.length Nat.sub slice].
    apply String.eqb_neq. intros E. inversion E; subst.
    rewrite Ascii.eqb_refl in Hc. discriminate Hc.
  - rewrite endsWith_cons by discriminate. apply IH; [discriminate|exact Hr].
Qed.

(** X3.  A base URL without a final slash gets exactly one slash before
    the endpoint, and it makes no difference whether the caller wrote that
    slash: [buildUrl] of the base with the slash added is the same URL. *)
Theorem buildUrl_adds_the_missing_slash (baseUrl endpoint : string) :
  endsWith baseUrl "/" = false ->
  buildUrl baseUrl endpoint = (baseUrl ++ "/" ++ endpoint)%string /\
  buildUrl (baseUrl ++ "/") endpoint = buildUrl baseUrl endpoint.
Proof.
  intros H. unfold buildUrl. rewrite H. cbn [negb].
  rewrite (endsWith_app baseUrl "/") by discriminate.
  change (endsWith "/" "/") with true. cbn [negb].
  rewrite append_assoc. split; reflexivity.
Qed.

Lemma buildUrl_adds_the_missing_slash_witness :
  endsWith "https://api.example.com/v1" "/" = false /\
  buildUrl "https://api.example.com/v1" "chat/completions"
    = "https://api.example.com/v1/chat/completions"%string /\
  buildUrl "https://api.example.com/v1/" "chat/completions"
    = buildUrl "https://api.example.com/v1" "chat/completions".
Proof.
  split; [reflexivity|].
  exact (buildUrl_adds_the_missing_slash "https://api.example.com/v1"
           "chat/completions" eq_refl).
Defined.

Lemma split_on_nonempty (sep : ascii) (s : string) : split_on sep s <> [].
Proof.
  destruct s as [|c r]; cbn [split_on]; [discriminate|].
  destruct (Ascii.eqb c sep); [discriminate|].
  destruct (split_on sep r); discriminate.
Qed.

(** Splitting at an occurrence of the separator. *)
Lemma split_on_sep (sep : ascii) (a b : string) :
  split_on sep (a ++ String sep b) = split_on sep a ++ split_on sep b.
Proof.
  induction a as [|x a IH].
  - cbn [append split_on app]. rewrite Ascii.eqb_refl. reflexivity.
  - cbn [append split_on]. rewrite IH.
    destruct (Ascii.eqb x sep); [reflexivity|].
    destruct (split_on sep a) as [|h t] eqn:E;
      [exfalso; exact (split_on_nonempty sep a E)|].
    reflexivity.
Qed.

Lemma split_on_free (sep : ascii) (s : string) :
  free_of sep s = true -> split_on sep s = [s].
Proof.
  induction s as [|c r IH]; intros H; [reflexivity|].
  cbn [free_of] in H. apply andb_true_iff in H. destruct H as [Hc Hr].
  apply negb_true_iff in Hc. cbn [split_on]. rewrite Hc, (IH Hr).
  reflexivity.
Qed.

Lemma split_on_parts_free (sep : ascii) (s : string) :
  Forall (fun part => free_of sep part = true) (split_on sep s).
Proof.
  induction s as [|c r IH]; [repeat constructor|].
  cbn [split_on]. destruct (Ascii.eqb c sep) eqn:Hc.
  - constructor; [reflexivity | exact IH].
  - destruct (split_on sep r) as [|h t]; [repeat constructor;
      cbn [free_of]; rewrite Hc; reflexivity|].
    inversion IH; subst. constructor; [|assumption].
    cbn [free_of]. rewrite Hc. cbn [negb andb]. assumption.
Qed.

Lemma segments_sep (a b : string) :
  segments (a ++ String "/" b) = segments a ++ segments b.
Proof.
  unfold segments. rewrite split_on_sep. apply filter_app.
Qed.

Lemma segments_proper (path : string) :
  Forall (fun part => proper_segment part = true) (segments path).
Proof.
  unfold segments, proper_segment.
  pose proof (split_on_parts_free "/" path) as H.
  induction H as [|x l Hx _ IH]; [constructor|].
  cbn [filter]. unfold nonempty.
  destruct (negb (x =? "")%string) eqn:E; [|exact IH].
  constructor; [|exact IH]. rewrite E, Hx. reflexivity.
Qed.

Lemma Array_join_nonempty (parts : list string) :
  parts <> [] ->
  Forall (fun part => proper_segment part = true) parts ->
  Array_join "/" parts <> ""%string.
Proof.
  intros Hne H. destruct parts as [|x rest]; [contradiction|].
  inversion H as [|? ? Hx _]; subst.
  unfold proper_segment in Hx. apply andb_true_iff in Hx.
  destruct Hx as [Hx _]. apply nonempty_true in Hx.
  destruct rest as [|y rest]; [exact Hx|].
  cbn [Array_join]. destruct x; [contradiction | discriminate].
Qed.

(** Joining proper segments and splitting again gives the segments back. *)
Lemma segments_Array_join (parts : list string) :
  Forall (fun part => proper_segment part = true) parts ->
  segments (Array_join "/" parts) = parts.
Proof.
  induction parts as [|x rest IH]; intros H; [reflexivity|].
  inversion H as [|? ? Hx Hrest]; subst.
  assert (Hsingle : segments x = [x]).
  { unfold proper_segment in Hx. apply andb_true_iff in Hx.
    destruct Hx as [Hne Hfree]. unfold segments.
    rewrite (split_on_free _ _ Hfree). cbn [filter].
    unfold nonempty in Hne. rewrite Hne. reflexivity. }
  destruct rest as [|y rest]; [exact Hsingle|].
  change (Array_join "/" (x :: y :: rest))
    with (x ++ String "/" (Array_join "/" (y :: rest)))%string.
  rewrite segments_sep, Hsingle, (IH Hrest). reflexivity.
Qed.

Lemma Array_join_no_final_slash (parts : list string) :
  parts <> [] ->
  Forall (fun part => proper_segment part = true) parts ->
  endsWith (Array_join "/" parts) "/" = false.
Proof.
  induction parts as [|x rest IH]; intros Hne H; [contradiction|].
  inversion H as [|? ? Hx Hrest]; subst.
  destruct rest as [|y rest];
    [exact (proper_segment_no_final_slash x Hx)|].
  change (Array_join "/" (x :: y :: rest))
    with (x ++ String "/" (Array_join "/" (y :: rest)))%string.
  assert (Hj : Array_join "/" (y :: rest) <> ""%string)
    by (apply Array_join_nonempty; [discriminate | exact Hrest]).
  rewrite endsWith_app by discriminate.
  rewrite endsWith_cons by exact Hj.
  apply IH; [discriminate | exact Hrest].
Qed.

(** A list of at least three elements: its first, its middle, its last
    two. *)
Lemma first_middle_last_two {A : Type} (l : list A) (d : A) :
  3 <= List.length l ->
  l = nth 0 l d :: firstn (List.length l - 2 - 1) (skipn 1 l)
        ++ skipn (List.length l - 2) l /\
  List.length (skipn (List.length l - 2) l) = 2.
Proof.
  intros H. destruct l as [|x l']; [cbn in H; lia|].
  cbn [List.length nth skipn] in *.
  replace (S (List.length l') - 2 - 1) with (List.length l' - 2) by lia.
  replace (S (List.length l') - 2) with (S (List.length l' - 2)) by lia.
  cbn [skipn]. rewrite firstn_skipn. split; [reflexivity|].
  rewrite length_skipn. lia.
Qed.

(** What [handle] reads off a path depends on its non-empty segments
    only. *)
Lemma handle_by_segments (r1 r2 : IncomingRequest) :
  method r1 = method r2 ->
  x_api_key r1 = x_api_key r2 ->
  segments (pathname r1) = segments (pathname r2) ->
  handle r1 = handle r2.
Proof.
  intros Hm Hk Hs. unfold handle. fold (segments (pathname r1)).
  fold (segments (pathname r2)). rewrite Hm, Hk, Hs. reflexivity.
Qed.

(** X4.  Empty path segments do not count: a path with a slash doubled
    anywhere, with a slash put in front, or with a slash put at the end is
    handled exactly like the path without it. *)
Theorem handle_ignores_empty_segments (m : string) (key : option string)
  (a b : string) :
  handle {| method := m; pathname := (a ++ "//" ++ b)%string;
            x_api_key := key |}
  = handle {| method := m; pathname := (a ++ "/" ++ b)%string;
              x_api_key := key |} /\
  handle {| method := m; pathname := ("/" ++ a)%string; x_api_key := key |}
  = handle {| method := m; pathname := a; x_api_key := key |} /\
  handle {| method := m; pathname := (a ++ "/")%string; x_api_key := key |}
  = handle {| method := m; pathname := a; x_api_key := key |}.
Proof.
  repeat split; apply handle_by_segments; try reflexivity; cbn [pathname].
  - change (a ++ "//" ++ b)%string
      with (a ++ String "/" (String "/" b))%string.
    change (a ++ "/" ++ b)%string with (a ++ String "/" b)%string.
    rewrite !segments_sep.
    change (String "/" b) with ("" ++ String "/" b)%string.
    rewrite segments_sep. reflexivity.
  - change (a ++ "/")%string with (a ++ String "/" "")%string.
    rewrite segments_sep. change (segments "") with (@nil string).
    apply app_nil_r.
Qed.

(** How a dispatching path is made. *)
Lemma handle_dispatched (r : IncomingRequest) (t : provider_type)
  (b k : string) :
  handle r = Dispatched t b k ->
  method r = "POST"%string /\
  x_api_key r = Some k /\
  k <> ""%string /\
  exists parts,
    parts <> [] /\
    Forall (fun part => proper_segment part = true) parts /\
    b = Array_join "/" parts /\
    segments (pathname r) = type_segment t :: parts ++ ["v1"; "messages"]%string.
Proof.
  unfold handle. fold (segments (pathname r)).
  destruct (method r =? "POST")%string eqn:Hm; cbn [negb];
    [|discriminate].
  apply String.eqb_eq in Hm.
  set (pp := segments (pathname r)).
  destruct (List.length pp <? 3)%nat eqn:Hlen; [discriminate|].
  apply Nat.ltb_ge in Hlen.
  destruct (first_middle_last_two pp ""%string Hlen) as [Hpp Hl2].
  set (mid := firstn (List.length pp - 2 - 1) (skipn 1 pp)) in *.
  set (l2 := skipn (List.length pp - 2) pp) in *.
  destruct l2 as [|y [|z [|? ?]]]; try discriminate Hl2.
  cbn [nth].
  destruct (y =? "v1")%string eqn:Hy; cbn [negb orb]; [|discriminate].
  destruct (z =? "messages")%string eqn:Hz; cbn [negb]; [|discriminate].
  apply String.eqb_eq in Hy, Hz. subst y z.
  destruct (nonempty (nth 0 pp "")); cbn [negb orb]; [|discriminate].
  destruct (nonempty (Array_join "/" mid)) eqn:Hb; cbn [negb];
    [|discriminate].
  destruct (x_api_key r) as [key|]; [|discriminate].
  destruct (nonempty key) eqn:Hk; cbn [negb]; [|discriminate].
  assert (Hmid : Forall (fun part => proper_segment part = true) mid).
  { pose proof (segments_proper (pathname r)) as Hall. fold pp in Hall.
    rewrite Hpp in Hall. inversion Hall as [|? ? _ Hrest]; subst.
    apply Forall_app in Hrest. apply Hrest. }
  assert (Hne : mid <> []).
  { intros E. rewrite E in Hb. discriminate Hb. }
  apply nonempty_true in Hk.
  destruct (nth 0 pp "" =? "gemini")%string eqn:Hg.
  - intros E. inversion E; subst. apply String.eqb_eq in Hg.
    repeat split; try assumption. exists mid.
    repeat split; try assumption. rewrite Hpp at 1. rewrite Hg. reflexivity.
  - destruct (nth 0 pp "" =? "openai")%string eqn:Ho; [|discriminate].
    intros E. inversion E; subst. apply String.eqb_eq in Ho.
    repeat split; try assumption. exists mid.
    repeat split; try assumption. rewrite Hpp at 1. rewrite Ho. reflexivity.
Qed.

(** X5.  A request is dispatched only if it is a POST with a non-empty key;
    the key is the header's; the base URL is not empty and has no empty
    segment (no slash in front, at the end, or doubled: it is the join of
    its own segments); and the path is made of the provider's name, the
    segments of the base URL, [v1] and [messages]. *)
Theorem dispatch_rebuilds_the_path (r : IncomingRequest)
  (t : provider_type) (baseUrl apiKey : string) :
  handle r = Dispatched t baseUrl apiKey ->
  method r = "POST"%string /\
  x_api_key r = Some apiKey /\
  apiKey <> ""%string /\
  baseUrl <> ""%string /\
  baseUrl = Array_join "/" (segments baseUrl) /\
  segments (pathname r)
    = type_segment t :: segments baseUrl ++ ["v1"; "messages"]%string.
Proof.
  intros H. destruct (handle_dispatched r t baseUrl apiKey H)
    as (Hm & Hk & Hkn & parts & Hne & Hall & Hb & Hs).
  repeat (split; [assumption|]).
  assert (Hseg : segments baseUrl = parts)
    by (rewrite Hb; apply segments_Array_join; exact Hall).
  rewrite Hseg. split; [|split; assumption].
  rewrite Hb. apply Array_join_nonempty; assumption.
Qed.

Lemma dispatch_rebuilds_the_path_witness :
  let r := {| method := "POST";
              pathname := "/openai/https://api.openai.com/v1/v1/messages";
              x_api_key := Some "sk-1" |} in
  handle r = Dispatched openai "https:/api.openai.com/v1" "sk-1" /\
  segments (pathname r)
    = ["openai"; "https:"; "api.openai.com"; "v1"; "v1"; "messages"]%string /\
  segments "https:/api.openai.com/v1"
    = ["https:"; "api.openai.com"; "v1"]%string.
Proof.
  cbn zeta.
  assert (H : handle {| method := "POST";
                        pathname :=
                          "/openai/https://api.openai.com/v1/v1/messages";
                        x_api_key := Some "sk-1" |}
              = Dispatched openai "https:/api.openai.com/v1" "sk-1")
    by reflexivity.
  split; [exact H|].
  destruct (dispatch_rebuilds_the_path _ _ _ _ H)
    as (_ & _ & _ & _ & _ & Hs).
  split; [rewrite Hs|]; reflexivity.
Defined.

(** X6.  The base URL of a dispatched request never ends with a slash, so
    the provider's URL is always the base URL, one slash, and the
    endpoint. *)
Theorem dispatched_base_gets_one_slash (r : IncomingRequest)
  (t : provider_type) (baseUrl apiKey endpoint : string) :
  handle r = Dispatched t baseUrl apiKey ->
  endsWith baseUrl "/" = false /\
  buildUrl baseUrl endpoint = (baseUrl ++ "/" ++ endpoint)%string.
Proof.
  intros H. destruct (handle_dispatched r t baseUrl apiKey H)
    as (_ & _ & _ & parts & Hne & Hall & Hb & _).
  assert (He : endsWith baseUrl "/" = false)
    by (rewrite Hb; apply Array_join_no_final_slash; assumption).
  split; [exact He|]. unfold buildUrl. rewrite He. cbn [negb].
  apply append_assoc.
Qed.

Lemma dispatched_base_gets_one_slash_witness :
  let r := {| method := "POST";
              pathname := "/openai/api.example.com/v1/messages/";
              x_api_key := Some "sk-1" |} in
  handle r = Dispatched openai "api.example.com" "sk-1" /\
  buildUrl "api.example.com" "chat/completions"
    = "api.example.com/chat/completions"%string.
Proof.
  cbn zeta.
  assert (H : handle {| method := "POST";
                        pathname := "/openai/api.example.com/v1/messages/";
                        x_api_key := Some "sk-1" |}
              = Dispatched openai "api.example.com" "sk-1")
    by reflexivity.
  split; [exact H|].
  destruct (dispatched_base_gets_one_slash _ _ _ _ "chat/completions" H)
    as [_ E].
  rewrite E. reflexivity.
Defined.

(* ================================================================= *)
(** * Properties of [cleanJsonSchema] *)

(** Induction on JSON values, through arrays and objects. *)
Lemma json_induction (Q : json -> Prop) :
  Q JNull ->
  (forall b, Q (JBool b)) ->
  (forall m e, Q (JNum m e)) ->
  (forall s, Q (JStr s)) ->
  (forall items, Forall Q items -> Q (JArr items)) ->
  (forall members,
      Forall (fun kv : string * json => Q (snd kv)) members ->
      Q (JObj members)) ->
  forall j, Q j.
Proof.
  intros Hnull Hbool Hnum Hstr Harr Hobj.
  fix IH 1. intros [|b|m e|s|items|members].
  - exact Hnull.
  - apply Hbool.
  - apply Hnum.
  - apply Hstr.
  - apply Harr. induction items as [|x xs IHxs]; constructor;
      [apply IH | exact IHxs].
  - apply Hobj. induction members as [|[k v] ms IHms]; constructor;
      [apply IH | exact IHms].
Qed.

(** An index is none of the keys the loop looks for. *)
Lemma index_key_plain (n : nat) :
  removed_key (index_key n) = false /\
  (index_key n =? "enum")%string = false /\
  (index_key n =? "format")%string = false /\
  (index_key n =? "properties")%string = false /\
  (index_key n =? "items")%string = false /\
  (index_key n =? "type")%string = false.
Proof.
  unfold index_key, removed_key.
  destruct (Nat.to_uint n); repeat split; reflexivity.
Qed.

(** The loop on the copy of an array is the loop on its indexed
    members. *)
Lemma clean_indexed_spread (recur : json -> json) (t : bool)
  (items : list json) :
  forall i,
    clean_indexed recur i items
    = clean_members recur t (spread_array i items).
Proof.
  induction items as [|v rest IH]; intros i; [reflexivity|].
  cbn [clean_indexed spread_array clean_members].
  destruct (index_key_plain i) as (H1 & H2 & H3 & H4 & H5 & _).
  rewrite H1, H2, H3, H4, H5. cbn [andb]. rewrite <- IH.
  destruct (typeof_object v && negb (isArray v)); reflexivity.
Qed.

Lemma lookup_clean_removed (recur : json -> json) (t : bool)
  (key : string) (members : list (string * json)) :
  removed_key key = true ->
  lookup key (clean_members recur t members) = None.
Proof.
  intros Hk. induction members as [|[k v] rest IH]; [reflexivity|].
  cbn [clean_members].
  assert (Hcons : forall w,
             removed_key k = false ->
             lookup key ((k, w) :: clean_members recur t rest) = None).
  { intros w Hr. cbn [lookup]. rewrite IH.
    destruct (k =? key)%string eqn:E; [|reflexivity].
    apply String.eqb_eq in E. subst k. rewrite Hk in Hr. discriminate Hr. }
  destruct (removed_key k) eqn:Hr; [exact IH|].
  destruct ((k =? "enum")%string && isArray v); [apply Hcons; reflexivity|].
  destruct ((k =? "format")%string && t); [exact IH|].
  destruct ((k =? "properties")%string && typeof_object v);
    [apply Hcons; reflexivity|].
  destruct ((k =? "items")%string && typeof_object v);
    [apply Hcons; reflexivity|].
  destruct (typeof_object v && negb (isArray v)); apply Hcons; reflexivity.
Qed.

Lemma lookup_clean_indexed_removed (recur : json -> json) (key : string)
  (items : list json) (i : nat) :
  removed_key key = true ->
  lookup key (clean_indexed recur i items) = None.
Proof.
  intros Hk. rewrite (clean_indexed_spread recur false).
  apply lookup_clean_removed. exact Hk.
Qed.

(** A key that the loop keeps: its member after the loop. *)
Lemma lookup_clean_members (t : bool) (key : string)
  (members : list (string * json)) :
  removed_key key = false ->
  (key =? "format")%string && t = false ->
  lookup key (clean_members cleanJsonSchema t members)
  = option_map (cleaned_member key) (lookup key members).
Proof.
  intros Hk Hf. induction members as [|[k v] rest IH]; [reflexivity|].
  cbn [clean_members lookup].
  assert (Hdrop : (k =? key)%string = false ->
            lookup key (clean_members cleanJsonSchema t rest)
            = option_map (cleaned_member key)
                (match lookup key rest with
                 | Some w => Some w
                 | None => if (k =? key)%string then Some v else None
                 end)).
  { intros E. rewrite IH, E. destruct (lookup key rest); reflexivity. }
  assert (Hkeep : forall w,
            ((k =? key)%string = true -> w = cleaned_member key v) ->
            lookup key ((k, w) :: clean_members cleanJsonSchema t rest)
            = option_map (cleaned_member key)
                (match lookup key rest with
                 | Some w => Some w
                 | None => if (k =? key)%string then Some v else None
                 end)).
  { intros w Hw. cbn [lookup]. rewrite IH.
    destruct (lookup key rest); [reflexivity|]. cbn [option_map].
    destruct (k =? key)%string; [rewrite Hw; reflexivity | reflexivity]. }
  destruct (removed_key k) eqn:Hr.
  { apply Hdrop. apply String.eqb_neq. intros ->. congruence. }
  destruct ((k =? "enum")%string && isArray v) eqn:He.
  { apply Hkeep. intros E. apply String.eqb_eq in E. subst k.
    unfold cleaned_member. rewrite He. reflexivity. }
  destruct ((k =? "format")%string && t) eqn:Hfm.
  { apply Hdrop. apply String.eqb_neq. intros ->. congruence. }
  destruct ((k =? "properties")%string && typeof_object v) eqn:Hp.
  { apply Hkeep. intros E. apply String.eqb_eq in E. subst k.
    unfold cleaned_member. rewrite He, Hp. reflexivity. }
  destruct ((k =? "items")%string && typeof_object v) eqn:Hi.
  { apply Hkeep. intros E. apply String.eqb_eq in E. subst k.
    unfold cleaned_member. rewrite He, Hp, Hi. reflexivity. }
  destruct (typeof_object v && negb (isArray v)) eqn:Ho.
  { apply Hkeep. intros E. apply String.eqb_eq in E. subst k.
    unfold cleaned_member. rewrite He, Hp, Hi, Ho. reflexivity. }
  apply Hkeep. intros E. apply String.eqb_eq in E. subst k.
  unfold cleaned_member. rewrite He, Hp, Hi, Ho. reflexivity.
Qed.

Lemma typeof_object_clean (v : json) :
  typeof_object (cleanJsonSchema v) = typeof_object v.
Proof. destruct v; reflexivity. Qed.

Lemma isArray_clean (v : json) : isArray (cleanJsonSchema v) = false.
Proof. destruct v; reflexivity. Qed.

Lemma not_plain_object_free (v : json) :
  typeof_object v && negb (isArray v) = false -> unwanted_free v = true.
Proof. destruct v; try reflexivity. discriminate. Qed.

Lemma array_free (v : json) : isArray v = true -> unwanted_free v = true.
Proof. destruct v; try discriminate. reflexivity. Qed.

Lemma clean_members_free (t : bool) (members : list (string * json)) :
  Forall (fun kv : string * json =>
            unwanted_free (cleanJsonSchema (snd kv)) = true) members ->
  forallb (fun kv : string * json =>
             negb (removed_key (fst kv)) && unwanted_free (snd kv))
          (clean_members cleanJsonSchema t members) = true.
Proof.
  intros H. induction H as [|[k v] rest Hv _ IH]; [reflexivity|].
  cbn [snd] in Hv. cbn [clean_members].
  destruct (removed_key k) eqn:Hr; [exact IH|].
  destruct ((k =? "enum")%string && isArray v) eqn:He.
  { cbn [forallb fst snd]. rewrite Hr, IH.
    apply andb_true_iff in He. destruct He as [_ He].
    rewrite (array_free v He). reflexivity. }
  destruct ((k =? "format")%string && t); [exact IH|].
  destruct ((k =? "properties")%string && typeof_object v);
    [cbn [forallb fst snd]; rewrite Hr, IH, Hv; reflexivity|].
  destruct ((k =? "items")%string && typeof_object v);
    [cbn [forallb fst snd]; rewrite Hr, IH, Hv; reflexivity|].
  destruct (typeof_object v && negb (isArray v)) eqn:Ho;
    cbn [forallb fst snd]; rewrite Hr, IH.
  - rewrite Hv. reflexivity.
  - rewrite (not_plain_object_free v Ho). reflexivity.
Qed.

Lemma clean_indexed_free (items : list json) :
  Forall (fun v => unwanted_free (cleanJsonSchema v) = true) items ->
  forall i,
    forallb (fun kv : string * json =>
               negb (removed_key (fst kv)) && unwanted_free (snd kv))
            (clean_indexed cleanJsonSchema i items) = true.
Proof.
  intros H. induction H as [|v rest Hv _ IH]; intros i; [reflexivity|].
  cbn [clean_indexed forallb fst snd].
  destruct (index_key_plain i) as (H1 & _). rewrite H1, IH.
  destruct (typeof_object v && negb (isArray v)) eqn:Ho.
  - rewrite Hv. reflexivity.
  - rewrite (not_plain_object_free v Ho). reflexivity.
Qed.

(** X7.  Whatever the schema, the cleaned schema has none of the keys
    [$schema], [additionalProperties], [title] and [examples], neither at
    its top nor in any object met by going down through object members
    (arrays, other than those under [properties] and [items], are not
    entered). *)
Theorem cleaned_schema_has_no_removed_key (schema : json) :
  unwanted_free (cleanJsonSchema schema) = true /\
  forall key,
    removed_key key = true -> get (cleanJsonSchema schema) key = None.
Proof.
  split.
  - induction schema as [|b|m e|s|items IH|members IH] using json_induction;
      try reflexivity.
    + cbn [cleanJsonSchema unwanted_free]. apply clean_indexed_free.
      exact IH.
    + cbn [cleanJsonSchema unwanted_free]. apply clean_members_free.
      exact IH.
  - intros key Hk. destruct schema as [|b|m e|s|items|members];
      try reflexivity; cbn [cleanJsonSchema get].
    + apply lookup_clean_indexed_removed. exact Hk.
    + apply lookup_clean_removed. exact Hk.
Qed.

Lemma type_is_string_kept (t : bool) (members : list (string * json)) :
  is_the_string "string"
    (lookup "type" (clean_members cleanJsonSchema t members))
  = is_the_string "string" (lookup "type" members).
Proof.
  rewrite lookup_clean_members by reflexivity.
  destruct (lookup "type" members) as [v|]; [|reflexivity].
  destruct v; reflexivity.
Qed.

Lemma lookup_clean_indexed_none (recur : json -> json) (key : string)
  (items : list json) :
  (forall n, (index_key n =? key)%string = false) ->
  forall i, lookup key (clean_indexed recur i items) = None.
Proof.
  intros Hk. induction items as [|v rest IH]; intros i; [reflexivity|].
  cbn [clean_indexed lookup]. rewrite IH, Hk. reflexivity.
Qed.

Lemma clean_members_idem (t : bool) (members : list (string * json)) :
  Forall (fun kv : string * json =>
            cleanJsonSchema (cleanJsonSchema (snd kv))
            = cleanJsonSchema (snd kv)) members ->
  clean_members cleanJsonSchema t (clean_members cleanJsonSchema t members)
  = clean_members cleanJsonSchema t members.
Proof.
  intros H. induction H as [|[k v] rest Hv _ IH]; [reflexivity|].
  cbn [snd] in Hv. cbn [clean_members].
  destruct (removed_key k) eqn:Hr; [exact IH|].
  destruct ((k =? "enum")%string && isArray v) eqn:He.
  { cbn [clean_members]. rewrite Hr, He, IH. reflexivity. }
  destruct ((k =? "format")%string && t) eqn:Hf; [exact IH|].
  assert (Hen : forall w, isArray w = false ->
                          (k =? "enum")%string && isArray w = false)
    by (intros w ->; apply andb_false_r).
  destruct ((k =? "properties")%string && typeof_object v) eqn:Hp.
  { cbn [clean_members].
    rewrite Hr, (Hen _ (isArray_clean v)), Hf, typeof_object_clean, Hp.
    rewrite Hv, IH. reflexivity. }
  destruct ((k =? "items")%string && typeof_object v) eqn:Hi.
  { cbn [clean_members].
    rewrite Hr, (Hen _ (isArray_clean v)), Hf, typeof_object_clean, Hp, Hi.
    rewrite Hv, IH. reflexivity. }
  destruct (typeof_object v && negb (isArray v)) eqn:Ho.
  { cbn [clean_members].
    rewrite Hr, (Hen _ (isArray_clean v)), Hf, typeof_object_clean, Hp, Hi.
    rewrite isArray_clean. apply andb_true_iff in Ho. destruct Ho as [Ho _].
    rewrite Ho. cbn [negb andb]. rewrite Hv, IH. reflexivity. }
  cbn [clean_members]. rewrite Hr, He, Hf, Hp, Hi, Ho, IH. reflexivity.
Qed.

Lemma clean_indexed_idem (t : bool) (items : list json) :
  Forall (fun v => cleanJsonSchema (cleanJsonSchema v) = cleanJsonSchema v)
         items ->
  forall i,
    clean_members cleanJsonSchema t (clean_indexed cleanJsonSchema i items)
    = clean_indexed cleanJsonSchema i items.
Proof.
  intros H. induction H as [|v rest Hv _ IH]; intros i; [reflexivity|].
  cbn [clean_indexed clean_members].
  destruct (index_key_plain i) as (H1 & H2 & H3 & H4 & H5 & _).
  rewrite H1, H2, H3, H4, H5. cbn [andb]. rewrite IH.
  destruct (typeof_object v && negb (isArray v)) eqn:Ho.
  - rewrite typeof_object_clean, isArray_clean.
    apply andb_true_iff in Ho. destruct Ho as [Ho _]. rewrite Ho.
    cbn [negb andb]. rewrite Hv. reflexivity.
  - rewrite Ho. reflexivity.
Qed.

(** X8.  Cleaning a cleaned schema changes nothing. *)
Theorem cleanJsonSchema_idempotent (schema : json) :
  cleanJsonSchema (cleanJsonSchema schema) = cleanJsonSchema schema.
Proof.
  induction schema as [|b|m e|s|items IH|members IH] using json_induction;
    try reflexivity.
  - cbn [cleanJsonSchema]. f_equal. apply clean_indexed_idem. exact IH.
  - cbn [cleanJsonSchema]. f_equal. rewrite type_is_string_kept.
    apply clean_members_idem. exact IH.
Qed.

(** X9.  Arrays are not entered: under any key other than the removed
    ones, [format], [properties] and [items], a member that is an array
    comes out as it went in, with whatever its elements hold (the schemas
    listed under [anyOf] keep their [additionalProperties] and [title]). *)
Theorem arrays_are_kept_as_they_are (schema : json) (key : string)
  (elements : list json) :
  removed_key key = false ->
  key <> "format"%string ->
  key <> "properties"%string ->
  key <> "items"%string ->
  get schema key = Some (JArr elements) ->
  get (cleanJsonSchema schema) key = Some (JArr elements).
Proof.
  intros Hr Hf Hp Hi Hget.
  destruct schema as [|b|m e|s|items|members]; try discriminate Hget.
  cbn [cleanJsonSchema get] in *.
  apply String.eqb_neq in Hf, Hp, Hi.
  rewrite lookup_clean_members by (try assumption; rewrite Hf; reflexivity).
  rewrite Hget. cbn [option_map]. unfold cleaned_member.
  rewrite Hp, Hi. cbn [andb typeof_object isArray negb].
  rewrite andb_true_r. destruct (key =? "enum")%string; reflexivity.
Qed.

(** X10.  An array under [items] or [properties] (the tuple form of
    [items]) does not stay an array: it comes out as an object whose keys
    are the positions, with the elements that are objects cleaned. *)
Theorem items_array_becomes_an_object (schema : json) (key : string)
  (elements : list json) :
  key = "items"%string \/ key = "properties"%string ->
  get schema key = Some (JArr elements) ->
  get (cleanJsonSchema schema) key
  = Some (JObj (clean_indexed cleanJsonSchema 0 elements)).
Proof.
  intros Hk Hget.
  destruct schema as [|b|m e|s|items|members]; try discriminate Hget.
  cbn [cleanJsonSchema get] in *.
  rewrite lookup_clean_members by (destruct Hk; subst key; reflexivity).
  rewrite Hget. destruct Hk; subst key; reflexivity.
Qed.

Lemma arrays_are_kept_as_they_are_witness :
  removed_key "anyOf" = false /\
  get Sample.schema "anyOf" = Some (JArr [Sample.inner_schema]) /\
  get (cleanJsonSchema Sample.schema) "anyOf"
    = Some (JArr [Sample.inner_schema]) /\
  get (cleanJsonSchema Sample.schema) "properties"
    = Some (JObj [("name", JObj [("type", JStr "string")])]).
Proof.
  split; [reflexivity|]. split; [reflexivity|].
  split; [|reflexivity].
  apply (arrays_are_kept_as_they_are Sample.schema "anyOf"
           [Sample.inner_schema]);
    try reflexivity; discriminate.
Defined.

Lemma items_array_becomes_an_object_witness :
  get Sample.schema "items"
    = Some (JArr [Sample.inner_schema; JStr "x"]) /\
  get (cleanJsonSchema Sample.schema) "items"
    = Some (JObj [("0", JObj [("type", JStr "string")]); ("1", JStr "x")]).
Proof.
  split; [reflexivity|].
  rewrite (items_array_becomes_an_object Sample.schema "items"
             [Sample.inner_schema; JStr "x"] (or_introl eq_refl) eq_refl).
  reflexivity.
Defined.

(* ================================================================= *)
(** * Properties of [convertMessages] *)

Section MessageProperties.

Context {P : Platform}.

(** [toolCallMap] is written and never read: what it holds at the start
    changes nothing but what it holds at the end. *)
Lemma on_block_map (content : json) (g : gathered)
  (m0 : list (value * value)) :
  on_block content (g, m0)
  = option_map (fun r : gathered * list (value * value) =>
                  (fst r, m0 ++ snd r))
      (on_block content (g, [])).
Proof.
  unfold on_block.
  destruct content; try reflexivity;
    repeat match goal with
           | |- context [if ?c then _ else _] => destruct c
           end;
    cbn [option_map fst snd app]; rewrite ?app_nil_r; reflexivity.
Qed.

Lemma on_blocks_map (blocks : list json) :
  forall g m0,
    on_blocks blocks (g, m0)
    = option_map (fun r : gathered * list (value * value) =>
                    (fst r, m0 ++ snd r))
        (on_blocks blocks (g, [])).
Proof.
  induction blocks as [|content rest IH]; intros g m0.
  - cbn [on_blocks option_map fst snd]. rewrite app_nil_r. reflexivity.
  - cbn [on_blocks]. rewrite (on_block_map content g m0).
    destruct (on_block content (g, [])) as [[g1 m1]|]; [|reflexivity].
    cbn [option_map fst snd]. rewrite (IH g1 (m0 ++ m1)), (IH g1 m1).
    destruct (on_blocks rest (g1, [])) as [[g2 m2]|]; [|reflexivity].
    cbn [option_map fst snd]. rewrite app_assoc. reflexivity.
Qed.

(** One message is converted on its own: what was already pushed stays in
    front, and the map plays no part. *)
Lemma on_message_shift (message : json) (out0 : list OpenAIMessage)
  (m0 : list (value * value)) :
  on_message message (out0, m0)
  = option_map (fun r : list OpenAIMessage * list (value * value) =>
                  (out0 ++ fst r, m0 ++ snd r))
      (on_message message ([], [])).
Proof.
  unfold on_message.
  assert (Hstr : forall role text,
    Some (out0 ++ [chat_message role (Some text) None], m0)
    = option_map (fun r : list OpenAIMessage * list (value * value) =>
                    (out0 ++ fst r, m0 ++ snd r))
        (Some ([] ++ [chat_message role (Some text) None], []))).
  { intros. cbn [option_map fst snd app]. rewrite app_nil_r. reflexivity. }
  assert (Harr : forall blocks,
    match on_blocks blocks
            ({| textContents := []; toolCalls := []; toolResults := [] |},
             m0) with
    | Some (g, m') => Some (out0 ++ pushed message g, m')
    | None => None
    end
    = option_map (fun r : list OpenAIMessage * list (value * value) =>
                    (out0 ++ fst r, m0 ++ snd r))
        match on_blocks blocks
                ({| textContents := []; toolCalls := [];
                    toolResults := [] |}, []) with
        | Some (g, m') => Some ([] ++ pushed message g, m')
        | None => None
        end).
  { intros blocks. rewrite (on_blocks_map blocks _ m0).
    destruct (on_blocks blocks _) as [[g m1]|]; reflexivity. }
  destruct message; try reflexivity;
    (destruct (get _ "content") as [[| | | text | blocks | ]|];
     try reflexivity; [apply Hstr | apply Harr]).
Qed.

Lemma on_messages_shift (messages : list json) :
  forall out0 m0,
    on_messages messages (out0, m0)
    = option_map (fun r : list OpenAIMessage * list (value * value) =>
                    (out0 ++ fst r, m0 ++ snd r))
        (on_messages messages ([], [])).
Proof.
  induction messages as [|message rest IH]; intros out0 m0.
  - cbn [on_messages option_map fst snd]. rewrite !app_nil_r. reflexivity.
  - cbn [on_messages]. rewrite (on_message_shift message out0 m0).
    destruct (on_message message ([], [])) as [[o1 m1]|]; [|reflexivity].
    cbn [option_map fst snd]. rewrite (IH (out0 ++ o1) (m0 ++ m1)), (IH o1 m1).
    destruct (on_messages rest ([], [])) as [[o2 m2]|]; [|reflexivity].
    cbn [option_map fst snd]. rewrite !app_assoc. reflexivity.
Qed.

Lemma on_messages_app (a b : list json) :
  forall state,
    on_messages (a ++ b) state
    = match on_messages a state with
      | Some state' => on_messages b state'
      | None => None
      end.
Proof.
  induction a as [|message rest IH]; intros state; [reflexivity|].
  cbn [app on_messages].
  destruct (on_message message state); [apply IH | reflexivity].
Qed.

End MessageProperties.

Lemma convertMessages_two {P : Platform} (a b : list json) :
  convertMessages (Some (JArr (a ++ b)))
  = both_converted (convertMessages (Some (JArr a)))
                   (convertMessages (Some (JArr b))).
Proof.
  unfold convertMessages, both_converted. cbn [iterated].
  rewrite on_messages_app.
  destruct (on_messages a ([], [])) as [[o1 m1]|]; [|reflexivity].
  rewrite (on_messages_shift b o1 m1).
  destruct (on_messages b ([], [])) as [[o2 m2]|]; reflexivity.
Qed.

(** X11.  The messages of a conversation are converted one by one and
    independently: the conversion of two lists of messages put together is
    the conversion of the first followed by the conversion of the second,
    and it throws exactly when one of the two does (the tool-call map
    filled on the way never changes a result). *)
Theorem convertMessages_of_two_lists {P : Platform} (a b : list json) :
  convertMessages (Some (JArr (a ++ b)))
  = both_converted (convertMessages (Some (JArr a)))
                   (convertMessages (Some (JArr b))).
Proof. exact (convertMessages_two a b). Qed.

(** X12.  A conversation in which every message has a string as content
    is converted message for message, in order: each text is kept as it
    is, and the role is [assistant] for an assistant message and [user] for
    any other. *)
Theorem plain_messages_are_kept_one_to_one {P : Platform}
  (messages : list json) :
  Forall (fun message => plain_text message <> None) messages ->
  convertMessages (Some (JArr messages))
  = Some (map (fun message =>
                 chat_message (role_of message) (plain_text message) None)
              messages).
Proof.
  intros H. induction H as [|message rest Hm _ IH]; [reflexivity|].
  change (message :: rest) with ([message] ++ rest).
  rewrite convertMessages_two. rewrite IH. cbn [map app].
  assert (E : convertMessages (Some (JArr [message]))
              = Some [chat_message (role_of message) (plain_text message)
                        None]).
  { unfold plain_text in *. unfold convertMessages.
    cbn [iterated on_messages]. unfold on_message.
    destruct (get message "content") as [[| | | text | |]|] eqn:Ec;
      try contradiction.
    destruct message; try discriminate Ec; reflexivity. }
  rewrite E. reflexivity.
Qed.

Lemma is_the_string_exclusive (a b : string) (v : value) :
  a <> b -> is_the_string a v = true -> is_the_string b v = false.
Proof.
  intros Hab H. destruct v as [[| | | s | |]|]; try discriminate H.
  cbn [is_the_string] in *. apply String.eqb_eq in H. subst s.
  apply String.eqb_neq. exact Hab.
Qed.

(** How many elements the blocks of each type add to the three arrays. *)
Lemma on_blocks_counts {P : Platform} (blocks : list json) :
  forall g m g' m',
    on_blocks blocks (g, m) = Some (g', m') ->
    List.length (textContents g')
      = List.length (textContents g) + count_blocks "text" blocks /\
    List.length (toolCalls g')
      = List.length (toolCalls g) + count_blocks "tool_use" blocks /\
    List.length (toolResults g')
      = List.length (toolResults g) + count_blocks "tool_result" blocks.
Proof.
  induction blocks as [|content rest IH]; intros g m g' m' H.
  - inversion H; subst. unfold count_blocks. cbn. repeat split; lia.
  - cbn [on_blocks] in H.
    destruct (on_block content (g, m)) as [[g1 m1]|] eqn:E;
      [|discriminate H].
    destruct (IH _ _ _ _ H) as (H1 & H2 & H3).
    unfold count_blocks in *. cbn [filter].
    unfold on_block in E.
    assert (Hc : content <> JNull) by (intros ->; discriminate E).
    assert (E' :
      (if is_the_string "text" (get content "type")
       then Some ({| textContents := textContents g ++ [get content "text"];
                     toolCalls := toolCalls g;
                     toolResults := toolResults g |}, m)
       else if is_the_string "tool_use" (get content "type")
       then Some ({| textContents := textContents g;
                     toolCalls :=
                       toolCalls g ++
                       [{| call_id := get content "id";
                           call_name := get content "name";
                           call_arguments :=
                             stringify_value (get content "input") |}];
                     toolResults := toolResults g |},
                  m ++ [(get content "id", get content "id")])
       else if is_the_string "tool_result" (get content "type")
       then Some ({| textContents := textContents g;
                     toolCalls := toolCalls g;
                     toolResults :=
                       toolResults g ++
                       [(get content "tool_use_id",
                         match get content "content" with
                         | Some (JStr s) => Some s
                         | other => stringify_value other
                         end)] |}, m)
       else Some (g, m)) = Some (g1, m1))
      by (destruct content; try exact E; contradiction).
    clear E.
    destruct (is_the_string "text" (get content "type")) eqn:Et.
    { rewrite (is_the_string_exclusive "text" "tool_use" _
                 ltac:(discriminate) Et).
      rewrite (is_the_string_exclusive "text" "tool_result" _
                 ltac:(discriminate) Et).
      inversion E'; subst. cbn [textContents toolCalls toolResults] in *.
      rewrite length_app in H1. cbn [List.length] in *.
      repeat split; lia. }
    destruct (is_the_string "tool_use" (get content "type")) eqn:Eu.
    { rewrite (is_the_string_exclusive "tool_use" "tool_result" _
                 ltac:(discriminate) Eu).
      inversion E'; subst. cbn [textContents toolCalls toolResults] in *.
      rewrite length_app in H2. cbn [List.length] in *.
      repeat split; lia. }
    destruct (is_the_string "tool_result" (get content "type")) eqn:Er.
    { inversion E'; subst. cbn [textContents toolCalls toolResults] in *.
      rewrite length_app in H3. cbn [List.length] in *.
      repeat split; lia. }
    inversion E'; subst. repeat split; lia.
Qed.

(** X13.  A message whose content is an array of blocks gives at most one
    chat message, with the role of the message, and it gives one exactly
    when the array has a text or a tool-use block; after it, whatever the
    order of the blocks, come the tool messages, one for each tool-result
    block. *)
Theorem blocks_give_one_chat_message_then_tool_messages {P : Platform}
  (message : json) (blocks : list json) (out : list OpenAIMessage) :
  get message "content" = Some (JArr blocks) ->
  convertMessages (Some (JArr [message])) = Some out ->
  exists chat tools,
    out = chat ++ tools /\
    Forall (fun m => is_tool_message m = true) tools /\
    List.length tools = count_blocks "tool_result" blocks /\
    (count_blocks "text" blocks + count_blocks "tool_use" blocks = 0 ->
     chat = []) /\
    (count_blocks "text" blocks + count_blocks "tool_use" blocks <> 0 ->
     exists content tool_calls,
       chat = [chat_message (role_of message) content tool_calls] /\
       (content = None <-> count_blocks "text" blocks = 0) /\
       (tool_calls = None <-> count_blocks "tool_use" blocks = 0)).
Proof.
  intros Hc H. unfold convertMessages in H. cbn [iterated on_messages] in H.
  unfold on_message in H.
  assert (Hn : message <> JNull) by (intros ->; discriminate Hc).
  assert (H' : match on_blocks blocks
                       ({| textContents := []; toolCalls := [];
                           toolResults := [] |}, []) with
               | Some (g, _) => Some (pushed message g)
               | None => None
               end = Some out).
  { destruct message; try contradiction; rewrite Hc in H;
      destruct (on_blocks blocks _) as [[g0 m0]|]; exact H. }
  clear H.
  destruct (on_blocks blocks _) as [[g m0]|] eqn:E; [|discriminate H'].
  inversion H'; subst out. clear H'.
  destruct (on_blocks_counts blocks _ _ _ _ E) as (H1 & H2 & H3).
  cbn [textContents toolCalls toolResults List.length Nat.add] in H1, H2, H3.
  unfold pushed. eexists. eexists. split; [reflexivity|].
  split; [apply Forall_forall; intros x Hx; apply in_map_iff in Hx;
          destruct Hx as (y & <- & _); reflexivity|].
  split; [rewrite length_map; exact H3|].
  rewrite H1, H2. split.
  - intros Hz.
    replace (count_blocks "text" blocks) with 0 by lia.
    replace (count_blocks "tool_use" blocks) with 0 by lia.
    reflexivity.
  - intros Hz.
    destruct (count_blocks "text" blocks) as [|nt];
      destruct (count_blocks "tool_use" blocks) as [|nu];
      try (exfalso; apply Hz; reflexivity);
      cbn [Nat.ltb Nat.leb orb];
      eexists; eexists; (split; [reflexivity|]);
      split; split; intros Hx; try discriminate Hx; reflexivity.
Qed.

(* ================================================================= *)
(** * Properties of [convertNormalResponse] *)

Section NormalResponseProperties.

Context {P : Platform}.
Variable estimator : TokenEstimator.
Variable estimateClaudeContent : list ClaudeContent -> Z.
Variable positive_number : json -> bool.

Lemma tool_use_of_appends (toolCall : json) (content content' : list ClaudeContent)
  (w w' : world) :
  tool_use_of toolCall content w = (Normal content', w') ->
  w' = w /\
  exists id name input,
    content' = content ++ [tool_use_content id name input].
Proof.
  unfold tool_use_of. intros E.
  unfold bind at 1 in E.
  destruct (member_cases (Some toolCall) "id" w) as [H | (j & _ & _ & H)];
    rewrite H in E; [discriminate E|]. clear H.
  unfold bind at 1 in E.
  destruct (member_cases (Some toolCall) "function" w)
    as [H | (j' & _ & _ & H)];
    rewrite H in E; [discriminate E|]. clear H.
  unfold bind at 1 in E.
  destruct (member_cases (get j' "function") "name" w)
    as [H | (fn & Hfn & _ & H)];
    rewrite H in E; [discriminate E|]. clear H.
  unfold bind at 1 in E.
  destruct (member_cases (get j' "function") "arguments" w)
    as [H | (fn' & _ & _ & H)];
    rewrite H in E; [discriminate E|]. clear H.
  unfold ret in E. inversion E; subst. split; [reflexivity|].
  eexists. eexists. eexists. reflexivity.
Qed.

Lemma tool_uses_appended (toolCalls : list json) :
  forall content content' w w',
    for_of toolCalls tool_use_of content w = (Normal content', w') ->
    w' = w /\
    exists tools,
      content' = content ++ tools /\
      Forall (fun b => is_tool_use_content b = true) tools /\
      List.length tools = List.length toolCalls.
Proof.
  induction toolCalls as [|call rest IH]; intros content content' w w' E.
  - inversion E; subst. split; [reflexivity|]. exists [].
    rewrite app_nil_r. repeat split. constructor.
  - cbn [for_of] in E. unfold bind in E.
    destruct (tool_use_of call content w) as [[c1|] w1] eqn:E1;
      [|discriminate E].
    destruct (tool_use_of_appends _ _ _ _ _ E1)
      as (-> & id & name & input & ->).
    destruct (IH _ _ _ _ E) as (-> & tools & -> & Ht & Hl).
    split; [reflexivity|].
    exists (tool_use_content id name input :: tools).
    rewrite <- app_assoc. cbn [app List.length].
    repeat split; [constructor; [reflexivity | exact Ht] | lia].
Qed.

(** What is built from the choices. *)
Lemma from_choices_shape (openaiData : json)
  (content : list ClaudeContent) (reason : option string) (w w' : world) :
  from_choices positive_number openaiData w = (Normal (content, reason), w') ->
  w' = w /\ well_shaped content reason.
Proof.
  assert (Hempty : well_shaped [] None).
  { exists [], []. repeat split; try constructor; auto.
    intros H. contradiction. }
  assert (Hfinish : forall text finish,
    well_shaped
      match text with
      | Some t => if truthy text then [text_content t] else []
      | None => []
      end
      (Some (if is_the_string "length" finish
             then "max_tokens"%string else "end_turn"%string))).
  { intros text finish.
    exists (match text with
            | Some t => if truthy text then [text_content t] else []
            | None => []
            end), [].
    rewrite app_nil_r. split; [reflexivity|].
    split; [destruct text as [t|]; [destruct (truthy (Some t))|]; cbn; lia|].
    split; [destruct text as [t|]; [destruct (truthy (Some t))|];
            repeat constructor|].
    split; [constructor|].
    split; [destruct (is_the_string "length" finish); auto|].
    split; [intros H; contradiction | intros H; discriminate H]. }
  unfold from_choices. intros E.
  unfold bind at 1 in E.
  destruct (member_cases (Some openaiData) "choices" w)
    as [H | (j & Hj & _ & H)]; rewrite H in E; [discriminate E|]. clear H.
  inversion Hj; subst j. clear Hj.
  destruct (get openaiData "choices") as [c|];
    [|inversion E; subst; split; [reflexivity | exact Hempty]].
  destruct (truthy (Some c) && greater_than_zero positive_number (get_length c));
    [|inversion E; subst; split; [reflexivity | exact Hempty]].
  unfold bind at 1 in E.
  destruct (member_cases (get_first c) "message" w)
    as [H | (ch & Hch & _ & H)]; rewrite H in E; [discriminate E|]. clear H.
  unfold bind at 1 in E.
  destruct (member_cases (get ch "message") "content" w)
    as [H | (msg & Hmsg & _ & H)]; rewrite H in E; [discriminate E|].
  clear H.
  unfold bind at 1 in E.
  destruct (member_cases (get ch "message") "tool_calls" w)
    as [H | (msg' & Hmsg' & _ & H)]; rewrite H in E; [discriminate E|].
  clear H.
  assert (Hfin : forall text,
    (finish_reason <- member (get_first c) "finish_reason" ;;
     ret (match text with
          | Some t => if truthy text then [text_content t] else []
          | None => []
          end,
          Some (if is_the_string "length" finish_reason
                then "max_tokens"%string else "end_turn"%string))) w
    = (Normal (content, reason), w') ->
    w' = w /\ well_shaped content reason).
  { intros text E'. unfold bind in E'.
    destruct (member_cases (get_first c) "finish_reason" w)
      as [H | (ch' & _ & _ & H)]; rewrite H in E'; [discriminate E'|].
    unfold ret in E'. inversion E'; subst.
    split; [reflexivity | apply Hfinish]. }
  destruct (get msg' "tool_calls") as [calls|]; [|exact (Hfin _ E)].
  destruct (truthy (Some calls)); [|exact (Hfin _ E)].
  unfold bind at 1 in E.
  destruct (iterate calls w) as [[toolCalls|] w1] eqn:Ei; [|discriminate E].
  assert (w1 = w) by (destruct calls; inversion Ei; reflexivity). subst w1.
  unfold bind at 1 in E.
  destruct (for_of toolCalls tool_use_of _ w) as [[c'|] w2] eqn:Ef;
    [|discriminate E].
  destruct (tool_uses_appended _ _ _ _ _ Ef) as (-> & tools & -> & Ht & _).
  unfold ret in E. inversion E; subst. split; [reflexivity|].
  exists (match get msg "content" with
          | Some t => if truthy (get msg "content") then [text_content t]
                      else []
          | None => []
          end), tools.
  split; [reflexivity|].
  split; [destruct (get msg "content") as [t|];
          [destruct (truthy (Some t))|]; cbn; lia|].
  split; [destruct (get msg "content") as [t|];
          [destruct (truthy (Some t))|]; repeat constructor|].
  split; [exact Ht|].
  split; [auto|].
  split; [intros _; reflexivity | intros H; discriminate H].
Qed.

(** A conversion that returns: the data read, the content and the stop
    reason built from it, the usage computed from them. *)
Lemma convertNormalResponse_returns (openaiResponse : Response)
  (req : value) (w w' : world) (st : nat) (r : ClaudeResponse) :
  convertNormalResponse estimator estimateClaudeContent positive_number
    openaiResponse req w = (Normal (st, r), w') ->
  exists data,
    response_json openaiResponse w = (Normal data, w) /\
    well_shaped (response_content r) (stop_reason r) /\
    st = status openaiResponse /\
    response_id r = slice 2 (random36 (draws w)) /\
    (input_tokens r, output_tokens r)
    = usage_of estimator estimateClaudeContent data req
        (response_content r).
Proof.
  unfold convertNormalResponse. intros E.
  unfold bind at 1 in E.
  destruct (response_json openaiResponse w) as [[data|] w1] eqn:Ej;
    [|discriminate E].
  assert (w1 = w).
  { unfold response_json in Ej.
    destruct (body openaiResponse) as [up|].
    - destruct (read_fails up); [discriminate Ej|].
      destruct (JSON_parse _); inversion Ej; reflexivity.
    - destruct (JSON_parse _); inversion Ej; reflexivity. }
  subst w1. exists data. split; [reflexivity|].
  unfold bind at 1 in E. cbn [generateId] in E.
  unfold bind at 1 in E.
  destruct (from_choices positive_number data _) as [[[content reason]|] w2]
    eqn:Ec; [|discriminate E].
  destruct (from_choices_shape _ _ _ _ _ Ec) as [_ Hshape].
  destruct (usage_of estimator estimateClaudeContent data req content)
    as [i o] eqn:Eu.
  unfold ret in E. inversion E; subst.
  cbn [response_content stop_reason response_id input_tokens output_tokens].
  repeat split; try assumption. symmetry. exact Eu.
Qed.

(** The conversion once the data is read. *)
Lemma convertNormalResponse_run (openaiResponse : Response)
  (req : value) (w : world) (data : json) :
  response_json openaiResponse w = (Normal data, w) ->
  convertNormalResponse estimator estimateClaudeContent positive_number
    openaiResponse req w
  = match from_choices positive_number data
            {| draws := S (draws w);
               accumulatedOutputTokens := accumulatedOutputTokens w |} with
    | (Normal (content, reason), w2) =>
        (Normal
           (status openaiResponse,
            {| response_id := slice 2 (random36 (draws w));
               response_content := content;
               stop_reason := reason;
               input_tokens :=
                 fst (usage_of estimator estimateClaudeContent data req
                        content);
               output_tokens :=
                 snd (usage_of estimator estimateClaudeContent data req
                        content) |}), w2)
    | (Abrupt, w2) => (Abrupt, w2)
    end.
Proof.
  intros Hj. unfold convertNormalResponse. unfold bind at 1. rewrite Hj.
  unfold bind at 1. cbn [generateId]. unfold bind at 1.
  destruct (from_choices positive_number data _)
    as [[[content reason]|] w2]; [|reflexivity].
  destruct (usage_of estimator estimateClaudeContent data req content);
    reflexivity.
Qed.

End NormalResponseProperties.

(** X14.  Whenever the conversion of a complete response returns, the
    content it built is at most one text block followed by tool-use blocks
    only; the stop reason is missing or one of [tool_use], [max_tokens]
    and [end_turn]; it is [tool_use] whenever a tool-use block was built;
    and it is missing only when no content was built. *)
Theorem normal_response_is_well_shaped {P : Platform}
  (estimator : TokenEstimator)
  (estimateClaudeContent : list ClaudeContent -> Z)
  (positive_number : json -> bool)
  (openaiResponse : Response) (req : value) (w w' : world)
  (st : nat) (r : ClaudeResponse) :
  convertNormalResponse estimator estimateClaudeContent positive_number
    openaiResponse req w = (Normal (st, r), w') ->
  st = status openaiResponse /\
  exists texts tools,
    response_content r = texts ++ tools /\
    List.length texts <= 1 /\
    Forall (fun b => is_text_content b = true) texts /\
    Forall (fun b => is_tool_use_content b = true) tools /\
    (stop_reason r = None \/ stop_reason r = Some "tool_use"%string \/
     stop_reason r = Some "max_tokens"%string \/
     stop_reason r = Some "end_turn"%string) /\
    (tools <> [] -> stop_reason r = Some "tool_use"%string) /\
    (stop_reason r = None -> response_content r = []).
Proof.
  intros E.
  destruct (convertNormalResponse_returns _ _ _ _ _ _ _ _ _ E)
    as (data & _ & Hshape & Hst & _).
  split; [exact Hst | exact Hshape].
Qed.

(** X15.  When the provider reports a usage with a truthy
    [completion_tokens], the estimator is not consulted: the response is
    the same whatever the estimator, its [output_tokens] is the
    provider's [completion_tokens], and its [input_tokens] is the
    provider's [prompt_tokens], or [0] when that is missing. *)
Theorem reported_usage_is_passed_on {P : Platform}
  (estimator estimator' : TokenEstimator)
  (estimateClaudeContent estimateClaudeContent' : list ClaudeContent -> Z)
  (positive_number : json -> bool)
  (openaiResponse : Response) (up : upstream) (data completion : json)
  (req : value) (w : world) :
  body openaiResponse = Some up ->
  read_fails up = false ->
  JSON_parse (joined (reads up)) = Some data ->
  member_opt (get data "usage") "completion_tokens" = Some completion ->
  truthy (Some completion) = true ->
  convertNormalResponse estimator estimateClaudeContent positive_number
    openaiResponse req w
  = convertNormalResponse estimator' estimateClaudeContent' positive_number
      openaiResponse req w /\
  forall st r w',
    convertNormalResponse estimator estimateClaudeContent positive_number
      openaiResponse req w = (Normal (st, r), w') ->
    output_tokens r = completion /\
    input_tokens r
    = or_zero (member_opt (get data "usage") "prompt_tokens").
Proof.
  intros Hb Hr Hp Hc Ht.
  assert (Hu : truthy (get data "usage") = true).
  { destruct (get data "usage") as [[| | | | |]|]; try discriminate Hc;
      reflexivity. }
  assert (Husage : forall e ecc content,
    usage_of e ecc data req content
    = (or_zero (member_opt (get data "usage") "prompt_tokens"),
       completion)).
  { intros e ecc content. unfold usage_of. rewrite Hu, Hc, Ht.
    cbn [negb andb]. unfold or_zero. rewrite Ht. reflexivity. }
  assert (Hjson : response_json openaiResponse w = (Normal data, w)).
  { unfold response_json. rewrite Hb, Hr. unfold joined in Hp.
    rewrite Hp. reflexivity. }
  split.
  - rewrite !(convertNormalResponse_run _ _ _ _ _ _ data Hjson).
    destruct (from_choices positive_number data _)
      as [[[content reason]|] w2]; [|reflexivity].
    rewrite !Husage. reflexivity.
  - intros st r w' E.
    destruct (convertNormalResponse_returns _ _ _ _ _ _ _ _ _ E)
      as (data' & Hj & _ & _ & _ & Hus).
    rewrite Hjson in Hj. inversion Hj; subst data'.
    rewrite Husage in Hus. inversion Hus. split; reflexivity.
Qed.

(** X16.  When the provider reports no usage: with the original request,
    [input_tokens] is the estimate of the request's messages and
    [output_tokens] the estimate of the content built; without it,
    [input_tokens] is [0] and [output_tokens] is the estimate of the
    content, or [0] when no content was built. *)
Theorem missing_usage_is_estimated {P : Platform}
  (estimator : TokenEstimator)
  (estimateClaudeContent : list ClaudeContent -> Z)
  (positive_number : json -> bool)
  (openaiResponse : Response) (up : upstream) (data : json)
  (req : value) (w w' : world) (st : nat) (r : ClaudeResponse) :
  body openaiResponse = Some up ->
  read_fails up = false ->
  JSON_parse (joined (reads up)) = Some data ->
  truthy (get data "usage") = false ->
  convertNormalResponse estimator estimateClaudeContent positive_number
    openaiResponse req w = (Normal (st, r), w') ->
  (truthy req = true ->
   input_tokens r
     = JNum (estimateMessages estimator (member_opt req "messages")) 0 /\
   output_tokens r = JNum (estimateClaudeContent (response_content r)) 0) /\
  (truthy req = false ->
   input_tokens r = JNum 0 0 /\
   (response_content r <> [] ->
    output_tokens r = JNum (estimateClaudeContent (response_content r)) 0) /\
   (response_content r = [] -> output_tokens r = JNum 0 0)).
Proof.
  intros Hb Hr Hp Hu E.
  assert (Hjson : response_json openaiResponse w = (Normal data, w)).
  { unfold response_json. rewrite Hb, Hr. unfold joined in Hp.
    rewrite Hp. reflexivity. }
  destruct (convertNormalResponse_returns _ _ _ _ _ _ _ _ _ E)
    as (data' & Hj & _ & _ & _ & Hus).
  rewrite Hjson in Hj. inversion Hj; subst data'. clear Hj.
  unfold usage_of in Hus. rewrite Hu in Hus. cbn [negb andb] in Hus.
  assert (Hnone : forall name,
            truthy (member_opt (get data "usage") name) = false).
  { intros name.
    destruct (get data "usage") as [[| | | | |]|]; try reflexivity;
      discriminate Hu. }
  assert (Hzero : forall name,
            or_zero (member_opt (get data "usage") name) = JNum 0 0).
  { intros name. unfold or_zero. rewrite (Hnone name).
    destruct (member_opt (get data "usage") name); reflexivity. }
  split.
  - intros Ht. rewrite Ht in Hus. inversion Hus. split; reflexivity.
  - intros Ht. rewrite Ht in Hus. rewrite Hnone, !Hzero in Hus.
    cbn [negb andb] in Hus.
    destruct (response_content r) as [|b rest] eqn:Ec;
      cbn [List.length Nat.ltb Nat.leb] in Hus; inversion Hus.
    + repeat split; try reflexivity. intros H. contradiction.
    + repeat split; try reflexivity. intros H. discriminate H.
Qed.

(* ================================================================= *)
(** * The further properties at concrete inputs *)

Lemma output_tokens_sum_the_emitted_blocks_witness :
  let o := Sample.run Sample.request
             [("data: " ++ Sample.mixed_json ++ NL)%string] in
  nonnegative Sample.estimator /\
  try_exit o <> HandlerThrew /\
  flush_threw o = false /\
  In (message_stop (Some (9, 6)%Z)) (emitted o) /\
  queue_tokens Sample.estimator (emitted o) = 6%Z.
Proof.
  cbn zeta.
  assert (H1 : try_exit (Sample.run Sample.request
                 [("data: " ++ Sample.mixed_json ++ NL)%string])
               <> HandlerThrew) by (vm_compute; discriminate).
  assert (H2 : flush_threw (Sample.run Sample.request
                 [("data: " ++ Sample.mixed_json ++ NL)%string]) = false)
    by (vm_compute; reflexivity).
  assert (H3 : In (message_stop (Some (9, 6)%Z))
                 (emitted (Sample.run Sample.request
                    [("data: " ++ Sample.mixed_json ++ NL)%string])))
    by (vm_compute; tauto).
  split; [exact sample_estimator_nonnegative|].
  repeat (split; [assumption|]).
  destruct (@output_tokens_sum_the_emitted_blocks Sample.platform
              Sample.estimator Sample.request
              (Sample.body_of [("data: " ++ Sample.mixed_json ++ NL)%string])
              sample_estimator_nonnegative H1 H2) as [_ H].
  symmetry. exact (H 9%Z 6%Z H3).
Defined.

Lemma plain_messages_are_kept_one_to_one_witness :
  Forall (fun message => plain_text message <> None)
    [Sample.system_note; Sample.assistant_reply] /\
  @convertMessages Sample.platform
    (Some (JArr [Sample.system_note; Sample.assistant_reply]))
  = Some [chat_message "user" (Some "be brief"%string) None;
          chat_message "assistant" (Some "hello"%string) None].
Proof.
  assert (H : Forall (fun message => plain_text message <> None)
                [Sample.system_note; Sample.assistant_reply])
    by (repeat constructor; discriminate).
  split; [exact H|].
  rewrite (@plain_messages_are_kept_one_to_one Sample.platform _ H).
  reflexivity.
Defined.

Lemma blocks_give_one_chat_message_then_tool_messages_witness :
  let blocks :=
    [JObj [("type", JStr "tool_result"); ("tool_use_id", JStr "t1");
           ("content", JStr "42")];
     JObj [("type", JStr "text"); ("text", JStr "and now?")]] in
  let out := [chat_message "user" (Some "and now?"%string) None;
              tool_message (Some (JStr "t1")) (Some "42"%string)] in
  get Sample.tool_round "content" = Some (JArr blocks) /\
  @convertMessages Sample.platform (Some (JArr [Sample.tool_round]))
    = Some out /\
  exists chat tools,
    out = chat ++ tools /\
    Forall (fun m => is_tool_message m = true) tools /\
    List.length tools = count_blocks "tool_result" blocks.
Proof.
  cbn zeta. split; [reflexivity|]. split; [reflexivity|].
  destruct (@blocks_give_one_chat_message_then_tool_messages
              Sample.platform Sample.tool_round _ _ eq_refl eq_refl)
    as (chat & tools & H1 & H2 & H3 & _).
  exists chat, tools. repeat split; assumption.
Defined.

Lemma normal_response_is_well_shaped_witness :
  exists r,
    @convertNormalResponse Sample.platform Sample.estimator
      Sample.content_count Sample.positive
      (Sample.response_of Sample.complete_body) Sample.request Sample.fresh
    = (Normal (200, r), {| draws := 1; accumulatedOutputTokens := 0 |}) /\
    response_content r
    = [text_content (JStr "Hi");
       tool_use_content (Some (JStr "c1")) (Some (JStr "lookup"))
         (JObj [])] /\
    stop_reason r = Some "tool_use"%string /\
    exists texts tools,
      response_content r = texts ++ tools /\ List.length texts <= 1.
Proof.
  eexists. split; [vm_compute; reflexivity|].
  split; [reflexivity|]. split; [reflexivity|].
  destruct (@normal_response_is_well_shaped Sample.platform Sample.estimator
              Sample.content_count Sample.positive
              (Sample.response_of Sample.complete_body) Sample.request
              Sample.fresh _ _ _ eq_refl)
    as (_ & texts & tools & H1 & H2 & _).
  exists texts, tools. split; assumption.
Defined.

Lemma reported_usage_is_passed_on_witness :
  let resp := Sample.response_of Sample.complete_body in
  let up := {| reads := [Sample.complete_body]; read_fails := false |} in
  body resp = Some up /\
  read_fails up = false /\
  (exists data,
      @JSON_parse Sample.platform (joined (reads up)) = Some data /\
      member_opt (get data "usage") "completion_tokens" = Some (JNum 3 0)) /\
  truthy (Some (JNum 3 0)) = true /\
  @convertNormalResponse Sample.platform Sample.estimator
    Sample.content_count Sample.positive resp Sample.request Sample.fresh
  = @convertNormalResponse Sample.platform Sample.other_estimator
      (fun _ => 1000%Z) Sample.positive resp Sample.request Sample.fresh.
Proof.
  cbn zeta. split; [reflexivity|]. split; [reflexivity|].
  assert (Hp : exists data,
             @JSON_parse Sample.platform
               (joined (reads {| reads := [Sample.complete_body];
                                 read_fails := false |})) = Some data /\
             member_opt (get data "usage") "completion_tokens"
               = Some (JNum 3 0)).
  { eexists. split; vm_compute; reflexivity. }
  split; [exact Hp|]. split; [reflexivity|].
  destruct Hp as (data & Hparse & Hc).
  apply (@reported_usage_is_passed_on Sample.platform Sample.estimator
           Sample.other_estimator Sample.content_count (fun _ => 1000%Z)
           Sample.positive (Sample.response_of Sample.complete_body)
           {| reads := [Sample.complete_body]; read_fails := false |}
           data (JNum 3 0) Sample.request Sample.fresh
           eq_refl eq_refl Hparse Hc eq_refl).
Defined.

Lemma missing_usage_is_estimated_witness :
  let resp := Sample.response_of Sample.no_usage_body in
  let up := {| reads := [Sample.no_usage_body]; read_fails := false |} in
  body resp = Some up /\
  read_fails up = false /\
  truthy Sample.request = true /\
  exists data r,
    @JSON_parse Sample.platform (joined (reads up)) = Some data /\
    truthy (get data "usage") = false /\
    @convertNormalResponse Sample.platform Sample.estimator
      Sample.content_count Sample.positive resp Sample.request Sample.fresh
    = (Normal (200, r), {| draws := 1; accumulatedOutputTokens := 0 |}) /\
    input_tokens r = JNum 9 0 /\
    output_tokens r = JNum 1 0.
Proof.
  cbn zeta. split; [reflexivity|]. split; [reflexivity|].
  split; [reflexivity|].
  eexists. eexists.
  assert (Hparse : @JSON_parse Sample.platform
                     (joined (reads {| reads := [Sample.no_usage_body];
                                       read_fails := false |}))
                   = Some (JObj [("choices",
                             JArr [JObj [("message",
                                          JObj [("content", JStr "Hi")]);
                                         ("finish_reason", JStr "length")]])]))
    by (vm_compute; reflexivity).
  split; [exact Hparse|]. split; [reflexivity|].
  split; [vm_compute; reflexivity|].
  destruct (@missing_usage_is_estimated Sample.platform Sample.estimator
              Sample.content_count Sample.positive
              (Sample.response_of Sample.no_usage_body)
              {| reads := [Sample.no_usage_body]; read_fails := false |}
              _ Sample.request Sample.fresh _ _ _
              eq_refl eq_refl Hparse eq_refl eq_refl) as [H _].
  destruct (H eq_refl) as [Hi Ho].
  split; (etransitivity; [eassumption | vm_compute; reflexivity]).
Defined.

(* ================================================================= *)
(** * Further properties of [handle] and of the stream's end *)

Lemma skipn_two_last {A : Type} (x : A) (mid : list A) (y z : A) :
  skipn (List.length (x :: mid ++ [y; z]) - 2) (x :: mid ++ [y; z])
  = [y; z].
Proof.
  cbn [List.length]. rewrite length_app. cbn [List.length].
  replace (S (List.length mid + 2) - 2) with (S (List.length mid)) by lia.
  cbn [skipn]. rewrite skipn_app, Nat.sub_diag, skipn_all. reflexivity.
Qed.

Lemma firstn_middle {A : Type} (x : A) (mid : list A) (y z : A) :
  firstn (List.length (x :: mid ++ [y; z]) - 2 - 1)
         (skipn 1 (x :: mid ++ [y; z]))
  = mid.
Proof.
  cbn [List.length skipn]. rewrite length_app. cbn [List.length].
  replace (S (List.length mid + 2) - 2 - 1) with (List.length mid) by lia.
  rewrite firstn_app, Nat.sub_diag, firstn_all. cbn [firstn].
  apply app_nil_r.
Qed.

(** X17.  A POST with a non-empty key is dispatched whenever the non-empty
    segments of its path are the name of a provider, at least one more
    segment, [v1] and [messages]: to that provider, with the key, and with
    the segments in between joined by single slashes as the base URL (so
    the two slashes after the scheme of a URL written in the path come out
    as one). *)
Theorem proper_path_is_dispatched (t : provider_type)
  (parts : list string) (path key : string) :
  key <> ""%string ->
  parts <> [] ->
  segments path = type_segment t :: parts ++ ["v1"; "messages"]%string ->
  handle {| method := "POST"; pathname := path; x_api_key := Some key |}
  = Dispatched t (Array_join "/" parts) key.
Proof.
  intros Hk Hne Hs.
  assert (Hall : Forall (fun part => proper_segment part = true) parts).
  { pose proof (segments_proper path) as H. rewrite Hs in H.
    inversion H as [|? ? _ Hrest]; subst.
    apply Forall_app in Hrest. apply Hrest. }
  pose proof (Array_join_nonempty parts Hne Hall) as Hb.
  apply nonempty_true in Hb. apply nonempty_true in Hk.
  unfold handle. cbn [method pathname x_api_key].
  fold (segments path). rewrite Hs.
  rewrite skipn_two_last, firstn_middle.
  cbn [String.eqb Ascii.eqb Bool.eqb negb nth orb].
  replace (List.length (type_segment t :: parts ++ ["v1"; "messages"]%string)
           <? 3)%nat with false.
  2:{ symmetry. apply Nat.ltb_ge. cbn [List.length]. rewrite length_app.
      cbn [List.length]. lia. }
  rewrite Hb, Hk. destruct t; reflexivity.
Qed.

Lemma proper_path_is_dispatched_witness :
  let path := "/gemini//https://host.example/api/v1/messages"%string in
  segments path
    = ["gemini"; "https:"; "host.example"; "api"; "v1"; "messages"]%string /\
  handle {| method := "POST"; pathname := path; x_api_key := Some "k" |}
  = Dispatched gemini "https:/host.example/api" "k".
Proof.
  cbn zeta. split; [reflexivity|].
  apply (proper_path_is_dispatched gemini
           ["https:"; "host.example"; "api"]%string
           "/gemini//https://host.example/api/v1/messages" "k");
    [discriminate | discriminate | reflexivity].
Defined.

Lemma split_nl_ends (x : string) :
  exists l, l <> [] /\ split_nl (x ++ NL)%string = l ++ [""%string].
Proof.
  induction x as [|c r IH].
  - exists [""%string]. split; [discriminate | reflexivity].
  - destruct IH as (l & Hl & E).
    change (String c r ++ NL)%string with (String c (r ++ NL)%string).
    destruct (Ascii.eqb c LF) eqn:Hc.
    + exists (""%string :: l). split; [discriminate|].
      cbn [split_nl]. rewrite Hc, E. reflexivity.
    + destruct (split_nl_cons c (r ++ NL)%string Hc) as (h & u & E1 & E2).
      rewrite E2. rewrite E in E1.
      destruct l as [|h' l']; [contradiction|].
      inversion E1; subst. exists (String c h :: l').
      split; [discriminate | reflexivity].
Qed.

Section WholeLines.

Context {P : Platform}.
Variable handler : string -> nat -> nat -> M (option LineResult.t).
Variable originalClaudeRequest : value.
Variable tokenEstimator : option TokenEstimator.

(** After a read that ends with a line feed nothing is left over, also
    when the handler threw on one of its lines. *)
Lemma on_read_whole (x : string) (s : stream_state) :
  buffer s = ""%string ->
  buffer (fst (on_read handler (x ++ NL)%string s)) = ""%string.
Proof.
  intros Hb. rewrite on_read_eq, for_lines_buffer. cbn [set_buffer buffer].
  rewrite Hb. cbn [append].
  destruct (split_nl_ends x) as (l & Hl & E). rewrite E.
  rewrite last_app_nonempty by discriminate. reflexivity.
Qed.

Lemma read_loop_whole (values : list string) :
  Forall (fun v => exists x, v = (x ++ NL)%string) values ->
  forall s,
    buffer s = ""%string ->
    buffer (fst (read_loop handler values s)) = ""%string.
Proof.
  induction 1 as [|v rest (x & Hv) _ IH]; intros s Hb; [exact Hb|].
  subst v. cbn [read_loop].
  pose proof (on_read_whole x s Hb) as H.
  destruct (on_read handler (x ++ NL)%string s) as [s' [|]];
    cbn [fst] in *; [exact H|].
  apply IH. exact H.
Qed.

(** [finally] with nothing left over. *)
Lemma finally_blank (t : try_end) (s : stream_state) :
  buffer s = ""%string ->
  finally handler originalClaudeRequest tokenEstimator t s
  = {| final :=
         sendMessageStop
           (final_usage originalClaudeRequest tokenEstimator
              (totalOutputTokens s)) s;
       closed := true; released := true;
       try_exit := t; flush_threw := false |}.
Proof.
  intros Hb. unfold finally, flush. rewrite Hb. reflexivity.
Qed.

Lemma start_whole (up : upstream) :
  Forall (fun v => exists x, v = (x ++ NL)%string) (reads up) ->
  let o := start handler originalClaudeRequest tokenEstimator (Some up) in
  flush_threw o = false /\ closed o = true /\ released o = true /\
  exists before usage, emitted o = before ++ [message_stop usage].
Proof.
  intros H. cbn zeta. unfold start.
  pose proof (read_loop_whole (reads up) H
                (sendMessageStart initial_state) eq_refl) as Hb.
  destruct (read_loop handler (reads up) (sendMessageStart initial_state))
    as [s [|]]; cbn [fst] in Hb; rewrite (finally_blank _ s Hb);
    cbn [flush_threw closed released]; repeat (split; [reflexivity|]);
    eexists; eexists; reflexivity.
Qed.

End WholeLines.

(** X18.  When every read of the body ends with a line feed, nothing is
    left over at the end of the stream, so the handler is not called on a
    remainder: the lock of the reader is released, [message_stop] is the
    last event enqueued and [controller.close()] is called, also when the
    handler threw on a line or a read was rejected. *)
Theorem whole_lines_close_the_stream {P : Platform}
  (estimator : TokenEstimator) (req : value) (up : upstream) :
  Forall (fun v => exists x, v = (x ++ NL)%string) (reads up) ->
  let o := convertStreamResponse estimator req (Some up) in
  flush_threw o = false /\ closed o = true /\ released o = true /\
  exists before usage, emitted o = before ++ [message_stop usage].
Proof.
  intros H. exact (start_whole (processLine estimator) req (Some estimator)
                     up H).
Qed.

Lemma whole_lines_close_the_stream_witness :
  let up := {| reads := [(Sample.a_line ++ NL)%string;
                          (Sample.bad_line ++ NL)%string];
               read_fails := true |} in
  let o := @convertStreamResponse Sample.platform Sample.estimator None
             (Some up) in
  Forall (fun v => exists x, v = (x ++ NL)%string) (reads up) /\
  try_exit o = HandlerThrew /\
  closed o = true /\ released o = true /\
  exists before usage, emitted o = before ++ [message_stop usage].
Proof.
  cbn zeta.
  assert (H : Forall (fun v => exists x, v = (x ++ NL)%string)
                (reads {| reads := [(Sample.a_line ++ NL)%string;
                                    (Sample.bad_line ++ NL)%string];
                          read_fails := true |})).
  { cbn [reads]. repeat constructor; eexists; reflexivity. }
  split; [exact H|]. split; [vm_compute; reflexivity|].
  destruct (@whole_lines_close_the_stream Sample.platform Sample.estimator
              None _ H) as (_ & Hc & Hr & Hq).
  repeat (split; [assumption|]). exact Hq.
Defined.
